(** * WBCategoryParser: the catalog crawl pipeline of [main.py]

    A shallow embedding of the pure core of [main.py] (tree flattening,
    leaf selection, URL building, subject extraction, the per-leaf fetch
    with its [try]/[except] boundary, the bounded-concurrency orchestrator,
    the statistics, the paths and rows of the export and the sheets of the
    workbook), followed by the properties the specification states about
    them and by further properties of the code.

    Conventions.
    - A Python [str] is the list of its Unicode code points ([pystr]).
    - A value read from JSON is a [json]; a [dict] is the list of its
      items in insertion order, looked up by first match.
    - A Python exception (an instance of [Exception]) is an [exc]: its
      class and the text [str(e)] gives.  A function that can raise returns
      a [result].  The texts of library exceptions follow CPython where
      they are fixed strings; no property below depends on them.
    - Builtins whose full definition lies outside the repository
      ([repr] of floats and containers, [int] of a [str], [json.loads])
      are parameters of the development. *)

From Stdlib Require Import ZArith NArith List Bool String Ascii Lia Permutation.
From Stdlib Require Import Floats.SpecFloat Numbers.DecimalString.
From stdpp Require Import base option list gmap.
From Equations.Prop Require Import Equations Logic.

Local Open Scope Z_scope.

(** ** Python strings *)

Definition pystr := list N.

(** [u "text"] is the [str] whose code points are the bytes of an ASCII
    literal. *)
Definition u (s : string) : pystr :=
  List.map N_of_ascii (list_ascii_of_string s).
Arguments u s%_string : simpl never.

Definition str_eqb (a b : pystr) : bool := bool_decide (a = b).

(** [s.startswith(p)] *)
Fixpoint startswith (s p : pystr) {struct p} : bool :=
  match p, s with
  | [], _ => true
  | c :: p', d :: s' => N.eqb c d && startswith s' p'
  | _ :: _, [] => false
  end.

(** [s.endswith(p)] *)
Definition endswith (s p : pystr) : bool :=
  startswith (rev s) (rev p).

(** [p in s] for two strings: [p] occurs in [s] as a contiguous run. *)
Fixpoint str_contains (s p : pystr) : bool :=
  startswith s p ||
  match s with
  | [] => false
  | _ :: s' => str_contains s' p
  end.

(** [s.lstrip(chars)]: drop leading code points found in [chars]. *)
Fixpoint lstrip_chars (chars s : pystr) : pystr :=
  match s with
  | [] => []
  | c :: s' => if existsb (N.eqb c) chars then lstrip_chars chars s' else s
  end.

(** Code points for which [str.isspace()] holds; [s.strip()] removes
    them from both ends. *)
Definition is_space (c : N) : bool :=
  ((9 <=? c) && (c <=? 13) || (28 <=? c) && (c <=? 32) ||
   (c =? 133) || (c =? 160) || (c =? 5760) ||
   (8192 <=? c) && (c <=? 8202) || (c =? 8232) || (c =? 8233) ||
   (c =? 8239) || (c =? 8287) || (c =? 12288))%N.

Fixpoint lstrip (s : pystr) : pystr :=
  match s with
  | [] => []
  | c :: s' => if is_space c then lstrip s' else s
  end.

Definition strip (s : pystr) : pystr := rev (lstrip (rev (lstrip s))).

(** Decimal text of an integer, as [str(n)] prints it. *)
Definition str_of_Z (n : Z) : pystr :=
  u (NilZero.string_of_int (Z.to_int n)).

(** ** JSON values and exceptions *)

Unset Elimination Schemes.
Inductive json : Type :=
| JNull
| JBool (b : bool)
| JInt (n : Z)
| JFloat (f : spec_float)
| JStr (s : pystr)
| JList (l : list json)
| JObj (kvs : list (pystr * json)).
Set Elimination Schemes.

Inductive exc_class : Type :=
| KeyError | TypeError | ValueError | AttributeError | IndexError
| OverflowError | UnicodeEncodeError | JSONDecodeError
| OtherError (name : pystr).

(** An exception instance: its class and the text of [str(e)]. *)
Record exc : Type := Exc { exc_cls : exc_class; exc_str : pystr }.

Inductive result (A : Type) : Type :=
| Ok (a : A)
| Raise (e : exc).
Arguments Ok {A} a.
Arguments Raise {A} e.

Definition bind {A B} (r : result A) (k : A -> result B) : result B :=
  match r with
  | Ok a => k a
  | Raise e => Raise e
  end.

Notation "x <- r ;; k" := (bind r (fun x => k))
  (at level 100, r at next level, right associativity).

(** [for x in l: ...] over a body that can raise *)
Fixpoint mapM {A B} (f : A -> result B) (l : list A) : result (list B) :=
  match l with
  | [] => Ok []
  | x :: l' => y <- f x ;; ys <- mapM f l' ;; Ok (y :: ys)
  end.

(** ** Builtins on JSON values *)

Definition type_name (v : json) : pystr :=
  match v with
  | JNull => u "NoneType"
  | JBool _ => u "bool"
  | JInt _ => u "int"
  | JFloat _ => u "float"
  | JStr _ => u "str"
  | JList _ => u "list"
  | JObj _ => u "dict"
  end.

(** Truth value of a JSON value ([bool(v)]). *)
Definition truthy (v : json) : bool :=
  match v with
  | JNull => false
  | JBool b => b
  | JInt n => negb (n =? 0)
  | JFloat f => match f with S754_zero _ => false | _ => true end
  | JStr s => match s with [] => false | _ => true end
  | JList l => match l with [] => false | _ => true end
  | JObj kvs => match kvs with [] => false | _ => true end
  end.

Fixpoint dict_lookup (kvs : list (pystr * json)) (k : pystr) : option json :=
  match kvs with
  | [] => None
  | (k', v) :: rest => if str_eqb k' k then Some v else dict_lookup rest k
  end.

Definition quoted (k : pystr) : pystr := u "'" ++ k ++ u "'".

(** [o.get(k, d)] *)
Definition py_get (o : json) (k : pystr) (d : json) : result json :=
  match o with
  | JObj kvs => Ok (default d (dict_lookup kvs k))
  | _ => Raise (Exc AttributeError
                 (quoted (type_name o) ++ u " object has no attribute 'get'"))
  end.

(** [o[k]] with a [str] key *)
Definition py_getitem (o : json) (k : pystr) : result json :=
  match o with
  | JObj kvs =>
      match dict_lookup kvs k with
      | Some v => Ok v
      | None => Raise (Exc KeyError (quoted k))
      end
  | JList _ => Raise (Exc TypeError
                 (u "list indices must be integers or slices, not str"))
  | JStr _ => Raise (Exc TypeError
                 (u "string indices must be integers, not 'str'"))
  | _ => Raise (Exc TypeError
                 (quoted (type_name o) ++ u " object is not subscriptable"))
  end.

(** [k in o] for a dict [o] *)
Definition dict_has (kvs : list (pystr * json)) (k : pystr) : bool :=
  match dict_lookup kvs k with Some _ => true | None => false end.

(** The items a [for] loop (or [list.extend]) draws from a value. *)
Definition py_iter (v : json) : result (list json) :=
  match v with
  | JList l => Ok l
  | JObj kvs => Ok (List.map (fun kv => JStr (fst kv)) kvs)
  | JStr s => Ok (List.map (fun c => JStr [c]) s)
  | _ => Raise (Exc TypeError
                 (quoted (type_name v) ++ u " object is not iterable"))
  end.

(** [int(f)] for a float: truncation towards zero. *)
Definition float_trunc (f : spec_float) : result Z :=
  match f with
  | S754_zero _ => Ok 0
  | S754_infinity _ =>
      Raise (Exc OverflowError (u "cannot convert float infinity to integer"))
  | S754_nan =>
      Raise (Exc ValueError (u "cannot convert float NaN to integer"))
  | S754_finite s m e =>
      let a := match e with
               | Z.neg k => Z.pos m / 2 ^ Z.pos k
               | _ => Z.pos m * 2 ^ e
               end in
      Ok (if s then - a else a)
  end.

(** [len(v)] *)
Definition py_len (v : json) : result Z :=
  match v with
  | JList l => Ok (Z.of_nat (length l))
  | JObj kvs => Ok (Z.of_nat (length kvs))
  | JStr s => Ok (Z.of_nat (length s))
  | _ => Raise (Exc TypeError
                 (u "object of type " ++ quoted (type_name v) ++ u " has no len()"))
  end.

(** [a or b] *)
Definition py_or (a b : json) : json := if truthy a then a else b.

(** [d[k] = v] on a dict: replace in place, or append a new item. *)
Fixpoint dict_set (kvs : list (pystr * json)) (k : pystr) (v : json)
  : list (pystr * json) :=
  match kvs with
  | [] => [(k, v)]
  | (k', v') :: rest =>
      if str_eqb k' k then (k', v) :: rest else (k', v') :: dict_set rest k v
  end.

(** [sep.join(parts)] *)
Fixpoint str_join (sep : pystr) (parts : list pystr) : pystr :=
  match parts with
  | [] => []
  | [p] => p
  | p :: rest => p ++ sep ++ str_join sep rest
  end.

(** *** [urllib.parse.quote] *)

(** UTF-8 bytes of one code point; a surrogate (and a number that is no
    code point) has none. *)
Definition utf8_char (c : N) : option (list N) :=
  (if c <? 128 then Some [c]
   else if c <? 2048 then Some [192 + c / 64; 128 + c mod 64]
   else if (55296 <=? c) && (c <=? 57343) then None
   else if c <? 65536 then
     Some [224 + c / 4096; 128 + (c / 64) mod 64; 128 + c mod 64]
   else if c <? 1114112 then
     Some [240 + c / 262144; 128 + (c / 4096) mod 64;
           128 + (c / 64) mod 64; 128 + c mod 64]
   else None)%N.

(** [s.encode("utf-8", "strict")]; the text of the error leaves out the
    character and its position. *)
Fixpoint utf8_encode (s : pystr) : result (list N) :=
  match s with
  | [] => Ok []
  | c :: s' =>
      match utf8_char c with
      | Some bs => rest <- utf8_encode s' ;; Ok (bs ++ rest)
      | None => Raise (Exc UnicodeEncodeError
                  (u "'utf-8' codec can't encode character: surrogates not allowed"))
      end
  end.

(** Bytes [quote] never escapes: letters, digits and [_.-~]. *)
Definition is_always_safe (b : N) : bool :=
  ((65 <=? b) && (b <=? 90) || (97 <=? b) && (b <=? 122) ||
   (48 <=? b) && (b <=? 57) ||
   (b =? 95) || (b =? 46) || (b =? 45) || (b =? 126))%N.

Definition hex_digit (n : N) : N :=
  (if n <? 10 then 48 + n else 55 + n)%N.

(** One byte through [quote] with an empty [safe] set: itself, or [%XX]. *)
Definition quote_byte (b : N) : pystr :=
  if is_always_safe b then [b]
  else [37%N; hex_digit (b / 16); hex_digit (b mod 16)].

(** [quote(s, safe="")] *)
Definition quote (s : pystr) : result pystr :=
  bs <- utf8_encode s ;; Ok (flat_map quote_byte bs).

(** ** 1. Capture of the menu document *)

Definition MENU_HINTS : list pystr := [u "main-menu"; u "v3"].

Definition looks_like_menu_json (data : json) : bool :=
  match data with
  | JList l =>
      existsb (fun x =>
                 match x with
                 | JObj kvs => dict_has kvs (u "id") && dict_has kvs (u "name")
                 | _ => false
                 end) (firstn 5 l)
  | _ => false
  end.

Definition is_menu_url (url : pystr) : bool :=
  endswith url (u ".json") && forallb (fun h => str_contains url h) MENU_HINTS.

(** A network response: the request's resource type, the URL, and what
    [resp.json()] and [resp.text()] give. *)
Record response : Type := Response {
  resource_type : pystr;
  resp_url : pystr;
  resp_json : result json;
  resp_text : result pystr
}.

(** The listener [on_response] of [fetch_menu].  The future [fut] is
    [None] while pending and [Some data] once set; the listener returns
    the future's new state. *)
Definition on_response (resp : response) (fut : option json)
  : result (option json) :=
  if existsb (str_eqb (resource_type resp)) [u "xhr"; u "fetch"]
     && is_menu_url (resp_url resp)
  then
    data <- resp_json resp ;;
    if looks_like_menu_json data && negb (bool_decide (is_Some fut))
    then Ok (Some data)
    else Ok fut
  else Ok fut.

(** ** 2. Leaves of the catalog tree *)

Fixpoint nat_sum (l : list nat) : nat :=
  match l with
  | [] => O
  | n :: l' => (n + nat_sum l')%nat
  end.

Fixpoint json_size (v : json) : nat :=
  match v with
  | JStr s => length s
  | JList l => S (nat_sum (List.map json_size l))
  | JObj kvs =>
      S (nat_sum (List.map (fun kv => S (length (fst kv) + json_size (snd kv))) kvs))
  | _ => 1%nat
  end.

Definition forest_size (l : list json) : nat :=
  nat_sum (List.map json_size l).

(** [stack.pop()]: the list without its last element, and that element. *)
Definition list_pop {A} (l : list A) : option (list A * A) :=
  match rev l with
  | [] => None
  | x :: r => Some (rev r, x)
  end.

Inductive loop_step : Type :=
| LoopExit
| LoopRaise (e : exc)
| LoopNext (stack out : list json).

(** One turn of [while stack:] in [iter_leaves]. *)
Definition iter_leaves_body (stack out : list json) : loop_step :=
  match list_pop stack with
  | None => LoopExit
  | Some (stack', node) =>
      match py_get node (u "childs") JNull with
      | Raise e => LoopRaise e
      | Ok c =>
          let childs := py_or c (JList []) in
          if truthy childs then
            match py_iter childs with
            | Raise e => LoopRaise e
            | Ok cs => LoopNext (stack' ++ cs) out
            end
          else LoopNext stack' (out ++ [node])
      end
  end.

(** The [while] loop of [iter_leaves].  The total size of the stack
    shrinks at every turn, so the loop ends on every input. *)
Equations? iter_leaves_loop (stack out : list json) : result (list json)
  by wf (forest_size stack) lt :=
  iter_leaves_loop stack out with inspect (iter_leaves_body stack out) => {
    | exist _ LoopExit _ := Ok out
    | exist _ (LoopRaise e) _ := Raise e
    | exist _ (LoopNext stack' out') Hstep := iter_leaves_loop stack' out' }.
Proof.
  assert (Happ : forall a b,
             forest_size (a ++ b) = (forest_size a + forest_size b)%nat).
  { intros a b. unfold forest_size.
    induction a as [|x a IH]; cbn; [reflexivity | rewrite IH; lia]. }
  assert (Hlook : forall kvs k v, dict_lookup kvs k = Some v ->
                                  (json_size v < json_size (JObj kvs))%nat).
  { intros kvs k v. induction kvs as [|[k' x] kvs IH]; cbn; [discriminate|].
    destruct (str_eqb k' k).
    - intros [= ->]. lia.
    - intros H. specialize (IH H). cbn in IH. lia. }
  assert (Hiter : forall v cs, py_iter v = Ok cs ->
                               (forest_size cs <= json_size v)%nat).
  { intros v cs. unfold forest_size.
    destruct v; cbn; try discriminate; intros [= <-].
    - induction s as [|c s IH]; cbn in *; lia.
    - lia.
    - induction kvs as [|[k x] kvs IH]; cbn in *; lia. }
  unfold iter_leaves_body, list_pop in Hstep.
  destruct (rev stack) as [|node r] eqn:Hrev; [discriminate|].
  assert (Hone : forall x, forest_size [x] = json_size x).
  { intros x. unfold forest_size. cbn. lia. }
  rewrite <- (rev_involutive stack), Hrev. simpl. rewrite Happ, Hone.
  destruct node; simpl in Hstep; try discriminate.
  unfold py_or in Hstep.
  destruct (dict_lookup kvs (u "childs")) as [c|] eqn:Hc; simpl in Hstep.
  - destruct (truthy c) eqn:Ht.
    + rewrite Ht in Hstep.
      destruct (py_iter c) as [cs|e] eqn:Hit; [|discriminate].
      injection Hstep as <- <-. rewrite Happ.
      apply Hiter in Hit. apply Hlook in Hc. lia.
    + simpl in Hstep. injection Hstep as <- <-. cbn. lia.
  - injection Hstep as <- <-. cbn. lia.
Qed.

Definition iter_leaves (tree : list json) : result (list json) :=
  iter_leaves_loop tree [].

(** ** 3. The per-leaf fetch *)

Definition BASE_HOST : pystr := u "https://search.wb.ru".
Definition BASE_PATH : pystr := u "/exactmatch/ru/common/v18/search".
Definition EXPAND_PARAMS : list (pystr * json) :=
  [ (u "appType", JStr (u "1"));
    (u "curr", JStr (u "rub"));
    (u "dest", JStr (u "-1257786"));
    (u "hide_dtype", JStr (u "13"));
    (u "lang", JStr (u "ru"));
    (u "filters", JStr (u "ffsubject"));
    (u "resultset", JStr (u "filters"));
    (u "spp", JStr (u "30")) ].

(** The injected HTTP capability [ctx.request.get(url, headers, timeout)]. *)
Definition http_client : Type :=
  pystr -> list (pystr * pystr) -> Z -> result response.

(** The headers [fetch_json] sends. *)
Definition request_headers (referer : pystr) : list (pystr * pystr) :=
  [ (u "Accept", u "application/json,text/plain,*/*");
    (u "Accept-Language", u "ru-RU,ru;q=0.9,en;q=0.8");
    (u "Referer", referer) ].

(** The characters [fetch_json] strips from the start of the raw text:
    U+FEFF, space, tab, carriage return, line feed. *)
Definition BOM : N := 65279%N.
Definition BOM_WS : pystr := [BOM; 32; 9; 13; 10]%N.

(** [f.get("key") == "xsubject"] *)
Definition json_eq_str (v : json) (s : pystr) : bool :=
  match v with
  | JStr t => str_eqb t s
  | _ => false
  end.

(** [{"id": it["id"], "name": it["name"]}] *)
Definition subject_of_item (it : json) : result json :=
  i <- py_getitem it (u "id") ;;
  n <- py_getitem it (u "name") ;;
  Ok (JObj [(u "id", i); (u "name", n)]).

(** The [for f in ...] loop of [extract_subjects], with its early return. *)
Fixpoint extract_subjects_loop (filters : list json) : result (list json) :=
  match filters with
  | [] => Ok []
  | f :: rest =>
      k <- py_get f (u "key") JNull ;;
      if json_eq_str k (u "xsubject") then
        items <- py_get f (u "items") (JList []) ;;
        its <- py_iter items ;;
        mapM subject_of_item its
      else extract_subjects_loop rest
  end.

Definition extract_subjects (payload : json) : result (list json) :=
  d <- py_getitem payload (u "data") ;;
  fl <- py_getitem d (u "filters") ;;
  filters <- py_iter fl ;;
  extract_subjects_loop filters.

(** The record [fetch_subjects_for_leaf] builds (a dict in the source). *)
Record LeafRecord : Type := mkLeafRecord {
  leaf_id : Z;
  leaf_name : pystr;
  leaf_full_url : pystr;
  subjects : list json;
  error : option pystr
}.

(** A record as [leaf_subjects.json] holds it and [json.loads] returns it. *)
Definition record_json (r : LeafRecord) : json :=
  JObj [ (u "leaf_id", JInt (leaf_id r));
         (u "leaf_name", JStr (leaf_name r));
         (u "leaf_full_url", JStr (leaf_full_url r));
         (u "subjects", JList (subjects r));
         (u "error", match error r with Some m => JStr m | None => JNull end) ].

(** ** 4. Rows of the export *)

Abbreviation row := (Z * pystr * Z)%type.
Definition row_level (r : row) : Z := snd r.

(** [path[1:-1]] *)
Definition slice_1_m1 {A} (path : list A) : list A := removelast (tl path).

(** [path[-1]] *)
Definition last_item {A} (path : list A) : result A :=
  match list_pop path with
  | Some (_, x) => Ok x
  | None => Raise (Exc IndexError (u "list index out of range"))
  end.

(** ** 5. The workbook *)

Definition BASE_WIDTH : Z := 12.
Definition NAME_WIDTH : Z := BASE_WIDTH * 5.

(** The suffix of a sheet name: a space, an en dash, a space and the
    nine Cyrillic letters of the word for categories. *)
Definition SHEET_SUFFIX : pystr :=
  [32; 8211; 32; 1050; 1072; 1090; 1077; 1075; 1086; 1088; 1080; 1080]%N.

Definition safe_sheet_name (root_name : pystr) : pystr :=
  let suffix := SHEET_SUFFIX in
  take 31 (take (31 - length suffix) root_name ++ suffix).

(** What [make_excel] asks of the workbook library, in the order of the
    source: opening the writer ([pd.ExcelWriter(out_path,
    engine="openpyxl")] and its [__enter__]); writing a frame
    ([pd.DataFrame(rows, columns=columns).to_excel(xw, sheet_name=sheet,
    index=False)]); looking a worksheet up ([ws = xw.sheets[sheet]]);
    setting the width of a column of that worksheet
    ([ws.column_dimensions[column].width = width]); and leaving the [with]
    block ([__exit__], told of the exception that ended the block, if
    any). *)
Inductive workbook_call : Type :=
| OpenWriter
| ToExcel (sheet_name : pystr) (columns : list pystr) (rows : list row)
| SheetOf (sheet_name : pystr)
| SetWidth (column : pystr) (width : Z)
| ExitWriter (pending : option exc).

(** The workbook library as an injected capability, over a state [W] of its
    own.  [writer_open] gives the state of a fresh writer or raises;
    [writer_call] gives the state after a call and the exception the call
    raised, if any; [writer_exit] is [__exit__]: it can raise, and
    otherwise its truth value says whether the pending exception is
    swallowed. *)
Record excel_writer (W : Type) : Type := {
  writer_open : result W;
  writer_call : W -> workbook_call -> W * option exc;
  writer_exit : W -> option exc -> result bool
}.
Arguments writer_open {W} _.
Arguments writer_call {W} _ _ _.
Arguments writer_exit {W} _ _ _.

(** Calls made one after the other, up to the first that raises: the state
    reached, the calls made and the exception raised, if any. *)
Fixpoint do_calls {W : Type} (wr : excel_writer W) (w : W)
    (calls : list workbook_call) : W * list workbook_call * option exc :=
  match calls with
  | [] => (w, [], None)
  | c :: rest =>
      match writer_call wr w c with
      | (w1, Some e) => (w1, [c], Some e)
      | (w1, None) =>
          let '(w2, made, raised) := do_calls wr w1 rest in
          (w2, c :: made, raised)
      end
  end.

Section Pipeline.

(** [repr] of a float, a list or a dict; and [repr] of a [str] inside
    an error message. *)
Variable py_repr : json -> pystr.
(** [int(s)] for a string: the integer it spells, if any. *)
Variable str_to_int : pystr -> option Z.
(** [json.loads] *)
Variable json_loads : pystr -> result json.

(** [str(v)] *)
Definition py_str (v : json) : pystr :=
  match v with
  | JStr s => s
  | JNull => u "None"
  | JBool true => u "True"
  | JBool false => u "False"
  | JInt n => str_of_Z n
  | _ => py_repr v
  end.

(** [int(v)] *)
Definition py_int (v : json) : result Z :=
  match v with
  | JInt n => Ok n
  | JBool b => Ok (if b then 1 else 0)
  | JFloat f => float_trunc f
  | JStr s =>
      match str_to_int s with
      | Some n => Ok n
      | None => Raise (Exc ValueError
                  (u "invalid literal for int() with base 10: " ++ py_repr v))
      end
  | _ => Raise (Exc TypeError
           (u "int() argument must be a string, a bytes-like object or a real number, not "
            ++ quoted (type_name v)))
  end.

Definition get_leaf_info (node : json) : result (Z * pystr * pystr * json) :=
  idv <- py_getitem node (u "id") ;;
  id <- py_int idv ;;
  namev <- py_get node (u "name") (JStr []) ;;
  let name := strip (py_str namev) in
  urlv <- py_get node (u "url") (JStr []) ;;
  let leaf_url := strip (py_str urlv) in
  let full_url :=
    if startswith leaf_url (u "/")
    then u "https://www.wildberries.ru" ++ leaf_url
    else leaf_url in
  q <- py_getitem node (u "searchQuery") ;;
  Ok (id, name, full_url, q).

(** [urlencode(params, quote_via=quote)]: [urlencode] passes every key
    and value through [quote(str(x), safe="")] and joins with [&]. *)
Definition urlencode (params : list (pystr * json)) : result pystr :=
  parts <- mapM (fun kv =>
                   k <- quote (fst kv) ;;
                   v <- quote (py_str (snd kv)) ;;
                   Ok (k ++ u "=" ++ v)) params ;;
  Ok (str_join (u "&") parts).

Definition build_filters_url (query : json) : result pystr :=
  let params := dict_set EXPAND_PARAMS (u "query") query in
  qs <- urlencode params ;;
  Ok (BASE_HOST ++ BASE_PATH ++ u "?" ++ qs).

(** The text [fetch_json] hands to [json.loads] in its fallback:
    [txt.lstrip(chars)] with [chars] the five characters of [BOM_WS]. *)
Definition fallback_text (txt : pystr) : pystr := lstrip_chars BOM_WS txt.

Definition fetch_json (ctx : http_client) (url referer : pystr) : result json :=
  resp <- ctx url (request_headers referer) 8000 ;;
  match resp_json resp with
  | Ok data => Ok data
  | Raise _ =>
      txt <- resp_text resp ;;
      json_loads (fallback_text txt)
  end.

(** The body of the [try] block of [fetch_subjects_for_leaf]. *)
Definition fetch_subjects_try (ctx : http_client) (q : json)
    (full_url : pystr) : result (list json) :=
  url <- build_filters_url q ;;
  data <- fetch_json ctx url full_url ;;
  extract_subjects data.

Definition fetch_subjects_for_leaf (ctx : http_client) (node : json)
  : result LeafRecord :=
  info <- get_leaf_info node ;;
  let '(id, name, full_url, q) := info in
  let record := {| leaf_id := id; leaf_name := name; leaf_full_url := full_url;
                   subjects := []; error := None |} in
  match fetch_subjects_try ctx q full_url with
  | Ok subj =>
      Ok {| leaf_id := leaf_id record; leaf_name := leaf_name record;
            leaf_full_url := leaf_full_url record;
            subjects := subj; error := error record |}
  | Raise e =>
      Ok {| leaf_id := leaf_id record; leaf_name := leaf_name record;
            leaf_full_url := leaf_full_url record;
            subjects := subjects record; error := Some (exc_str e) |}
  end.

(** The [for node in iter_leaves(menu)] loop of [select_leaves]. *)
Fixpoint select_leaves_loop (nodes out : list json) : result (list json) :=
  match nodes with
  | [] => Ok out
  | node :: rest =>
      urlv <- py_get node (u "url") (JStr []) ;;
      let url := py_str urlv in
      if startswith url (u "/catalog") then
        q <- py_get node (u "searchQuery") JNull ;;
        if truthy q then select_leaves_loop rest (out ++ [node])
        else select_leaves_loop rest out
      else select_leaves_loop rest out
  end.

Definition select_leaves (menu : list json) : result (list json) :=
  leaves <- iter_leaves menu ;;
  select_leaves_loop leaves [].

(** *** The orchestrator

    [collect_subjects] starts one task per leaf; a task holds the
    semaphore from its start to its end, so at most [concurrency] of
    them are in flight, the rest wait in creation order.  The loop over
    [asyncio.as_completed] runs once per task and receives, each time,
    the result of whichever in-flight task ends next.  Which one that is
    is the network's choice: the parameter [sched].  A loop turn with
    tasks left and none in flight would wait for ever ([Deadlock]); a
    task that raised makes [await coro] raise ([Crashed]). *)

Inductive crawl_outcome : Type :=
| Completed (results : list LeafRecord)
| Crashed (e : exc)
| Deadlock.

(** Waiting tasks enter, in creation order, while a slot is free. *)
Fixpoint fill_slots (cap : nat) (waiting in_flight : list json)
  : list json * list json :=
  match waiting with
  | [] => ([], in_flight)
  | n :: waiting' =>
      if (length in_flight <? cap)%nat
      then fill_slots cap waiting' (in_flight ++ [n])
      else (waiting, in_flight)
  end.

Fixpoint as_completed_loop (ctx : http_client) (cap : nat) (sched : nat -> nat)
    (tasks : nat) (waiting in_flight : list json) (results : list LeafRecord)
  : crawl_outcome :=
  match tasks with
  | O => Completed results
  | S tasks' =>
      let '(waiting1, in_flight1) := fill_slots cap waiting in_flight in
      let i := (sched tasks mod length in_flight1)%nat in
      match in_flight1 !! i with
      | None => Deadlock
      | Some node =>
          match fetch_subjects_for_leaf ctx node with
          | Raise e => Crashed e
          | Ok r =>
              as_completed_loop ctx cap sched tasks' waiting1
                (delete i in_flight1) (results ++ [r])
          end
      end
  end.

(** The fan-out and fan-in of [collect_subjects] over its [leaves]. *)
Definition gather_leaves (ctx : http_client) (concurrency : Z)
    (sched : nat -> nat) (leaves : list json) : crawl_outcome :=
  if concurrency <? 0 then
    Crashed (Exc ValueError (u "Semaphore initial value must be >= 0"))
  else
    as_completed_loop ctx (Z.to_nat concurrency) sched
      (length leaves) leaves [] [].

(** [collect_subjects], from the parsed [menu.json] to the list written
    to [leaf_subjects.json]. *)
Definition collect_subjects (menu : list json) (ctx : http_client)
    (concurrency : Z) (sched : nat -> nat) : crawl_outcome :=
  match select_leaves menu with
  | Raise e => Crashed e
  | Ok leaves => gather_leaves ctx concurrency sched leaves
  end.

(** The generator [1 for r in data if not r.get("error")], summed. *)
Fixpoint count_ok (data : list json) : result Z :=
  match data with
  | [] => Ok 0
  | r :: rest =>
      e <- py_get r (u "error") JNull ;;
      n <- count_ok rest ;;
      Ok (if truthy e then n else 1 + n)
  end.

(** [leaves_stats] on the parsed content of the file. *)
Definition leaves_stats (data : json) : result (Z * Z) :=
  total <- py_len data ;;
  rs <- py_iter data ;;
  ok <- count_ok rs ;;
  Ok (total, ok).

Fixpoint subjects_map_loop (items : list json) (res : gmap Z json)
  : result (gmap Z json) :=
  match items with
  | [] => Ok res
  | r :: rest =>
      e <- py_get r (u "error") JNull ;;
      if truthy e then subjects_map_loop rest res
      else
        s <- py_get r (u "subjects") (JList []) ;;
        lid <- py_getitem r (u "leaf_id") ;;
        k <- py_int lid ;;
        subjects_map_loop rest (<[k := py_or s (JList [])]> res)
  end.

Definition subjects_map (items : list json) : result (gmap Z json) :=
  subjects_map_loop items ∅.

(** [(int(s["id"]), str(s["name"]), 99)] *)
Definition subject_row (s : json) : result row :=
  i <- py_getitem s (u "id") ;;
  i' <- py_int i ;;
  n <- py_getitem s (u "name") ;;
  Ok (i', py_str n, 99).

(** The rows one [path] adds: one turn of [for path in paths]. *)
Definition path_rows (subj_by_leaf : gmap Z json) (path : list row)
  : result (list row) :=
  let parents := slice_1_m1 path in
  leaf <- last_item path ;;
  let '(id, name, level) := leaf in
  let rows1 := List.filter (fun p => 0 <? row_level p) parents in
  let rows2 := if 0 <? level then [(id, name, level)] else [] in
  ss <- py_iter (default (JList []) (subj_by_leaf !! id)) ;;
  rows3 <- mapM subject_row ss ;;
  Ok (rows1 ++ rows2 ++ rows3).

Fixpoint build_rows_loop (paths : list (list row)) (subj_by_leaf : gmap Z json)
    (rows : list row) : result (list row) :=
  match paths with
  | [] => Ok rows
  | path :: rest =>
      new <- path_rows subj_by_leaf path ;;
      build_rows_loop rest subj_by_leaf (rows ++ new)
  end.

Definition build_rows (paths : list (list row)) (subj_by_leaf : gmap Z json)
  : result (list row) :=
  build_rows_loop paths subj_by_leaf [].

(** *** The paths of the export

    [build_paths_by_root] fills a dict from [(root id, root name)] to the
    list of the root's paths; the dict is the list of its items in
    insertion order.  [walk] is recursive in the source; here it recurses on
    a bound [depth] on the depth of the tree, and has no result ([None]) when
    the bound is too small.  The interpreter's own limit on the depth of
    recursion is not part of the model. *)

Definition paths_dict : Type := list ((Z * pystr) * list (list row)).

Definition key_eqb (a b : Z * pystr) : bool :=
  (fst a =? fst b) && str_eqb (snd a) (snd b).

(** [out.setdefault(root_key, []).append(path)] *)
Fixpoint setdefault_append (out : paths_dict) (root_key : Z * pystr)
    (path : list row) : paths_dict :=
  match out with
  | [] => [(root_key, [path])]
  | (k, ps) :: rest =>
      if key_eqb k root_key then (k, ps ++ [path]) :: rest
      else (k, ps) :: setdefault_append rest root_key path
  end.

(** [for x in xs: f(x)] over a body that updates a state and can raise. *)
Fixpoint for_each {S : Type} (f : json -> S -> option (result S))
    (xs : list json) (s : S) : option (result S) :=
  match xs with
  | [] => Some (Ok s)
  | x :: rest =>
      match f x s with
      | Some (Ok s') => for_each f rest s'
      | other => other
      end
  end.

Fixpoint walk (depth : nat) (node : json) (level : Z) (acc : list row)
    (root_key : Z * pystr) (out : paths_dict) : option (result paths_dict) :=
  match depth with
  | O => None
  | S depth' =>
      match (idv <- py_getitem node (u "id") ;;
             id <- py_int idv ;;
             namev <- py_get node (u "name") (JStr []) ;;
             c <- py_get node (u "childs") JNull ;;
             Ok (id, py_str namev, c)) with
      | Raise e => Some (Raise e)
      | Ok (id, name, c) =>
          let cur := (id, name, level) in
          let path := acc ++ [cur] in
          let childs := py_or c (JList []) in
          if truthy childs then
            match py_iter childs with
            | Raise e => Some (Raise e)
            | Ok cs =>
                for_each (fun ch out' => walk depth' ch (level + 1) path root_key out')
                  cs out
            end
          else Some (Ok (setdefault_append out root_key path))
      end
  end.

(** [(int(node["id"]), str(node.get("name", "")))] *)
Definition node_key (node : json) : result (Z * pystr) :=
  idv <- py_getitem node (u "id") ;;
  id <- py_int idv ;;
  namev <- py_get node (u "name") (JStr []) ;;
  Ok (id, py_str namev).

(** One turn of [for root in menu]. *)
Definition walk_root (root : json) (out : paths_dict)
  : option (result paths_dict) :=
  match node_key root with
  | Raise e => Some (Raise e)
  | Ok root_key => walk (S (json_size root)) root 0 [] root_key out
  end.

Definition build_paths_by_root (menu : list json) : option (result paths_dict) :=
  for_each walk_root menu [].

(** *** The sheets of the workbook

    [make_excel] on the parsed contents of its two files, against a
    workbook writer [wr].  The result is the list of the calls made on the
    writer, in order, and the outcome of the function. *)

(** The loop [for (_, root_name), paths in paths_by_root.items()]: the
    state of the writer, the calls made so far, and the exception that
    ended the loop, if any. *)
Fixpoint make_excel_loop {W : Type} (wr : excel_writer W) (items : paths_dict)
    (subj_by_leaf : gmap Z json) (w : W) (made : list workbook_call)
  : W * list workbook_call * option exc :=
  match items with
  | [] => (w, made, None)
  | ((_, root_name), paths) :: rest =>
      match build_rows paths subj_by_leaf with
      | Raise e => (w, made, Some e)
      | Ok rows =>
          match rows with
          | [] => make_excel_loop wr rest subj_by_leaf w made
          | _ :: _ =>
              let sheet := safe_sheet_name root_name in
              let '(w1, made1, raised) :=
                do_calls wr w
                  [ ToExcel sheet [u "id"; u "name"; u "level"] rows;
                    SheetOf sheet;
                    SetWidth (u "A") BASE_WIDTH;
                    SetWidth (u "B") NAME_WIDTH;
                    SetWidth (u "C") BASE_WIDTH ] in
              match raised with
              | Some e => (w1, made ++ made1, Some e)
              | None => make_excel_loop wr rest subj_by_leaf w1 (made ++ made1)
              end
          end
      end
  end.

Definition make_excel {W : Type} (wr : excel_writer W) (menu subj : list json)
  : option (list workbook_call * result unit) :=
  match subjects_map subj with
  | Raise e => Some ([], Raise e)
  | Ok subj_by_leaf =>
      match build_paths_by_root menu with
      | None => None
      | Some (Raise e) => Some ([], Raise e)
      | Some (Ok paths_by_root) =>
          match writer_open wr with
          | Raise e => Some ([OpenWriter], Raise e)
          | Ok w =>
              let '(w1, made, pending) :=
                make_excel_loop wr paths_by_root subj_by_leaf w [] in
              Some (OpenWriter :: made ++ [ExitWriter pending],
                    match writer_exit wr w1 pending with
                    | Raise e => Raise e
                    | Ok swallowed =>
                        match pending with
                        | Some e => if swallowed then Ok tt else Raise e
                        | None => Ok tt
                        end
                    end)
          end
      end
  end.

End Pipeline.

(** * The vocabulary of the specification *)

(** The URL shape the specification asks for. *)
Definition menu_url_shape (url : pystr) : Prop :=
  (exists p, url = p ++ u ".json") /\
  (exists a b, url = a ++ u "main-menu" ++ b) /\
  (exists a b, url = a ++ u "v3" ++ b).

(** The body shape the specification asks for: a list one of whose first
    five elements is a dict with the keys [id] and [name]. *)
Definition menu_body_shape (data : json) : Prop :=
  exists l, data = JList l /\
    exists (i : nat) kvs, (i < 5)%nat /\ l !! i = Some (JObj kvs) /\
      (exists v, In (u "id", v) kvs) /\ (exists v, In (u "name", v) kvs).

(** A field of a node, if the node is a dict that has it. *)
Definition node_field (n : json) (k : pystr) : option json :=
  match n with
  | JObj kvs => dict_lookup kvs k
  | _ => None
  end.

(** The children sequence of a node; empty when [childs] is absent. *)
Definition children (n : json) : list json :=
  match node_field n (u "childs") with
  | Some (JList cs) => cs
  | _ => []
  end.

(** A catalog node: a dict whose [childs], unless absent or empty, is a
    list of catalog nodes. *)
Unset Elimination Schemes.
Inductive catalog_node : json -> Prop :=
| catalog_node_intro kvs :
    (forall c, dict_lookup kvs (u "childs") = Some c -> truthy c = true ->
               exists cs, c = JList cs /\ Forall catalog_node cs) ->
    catalog_node (JObj kvs).
Set Elimination Schemes.

(** [in_tree r n]: [n] is [r] or one of its descendants. *)
Inductive in_tree : json -> json -> Prop :=
| in_tree_here r : in_tree r r
| in_tree_child r c n : In c (children r) -> in_tree c n -> in_tree r n.

Definition is_leaf (n : json) : Prop := children n = [].

(** The test [select_leaves] applies to a leaf. *)
Definition eligible (py_repr : json -> pystr) (n : json) : bool :=
  startswith (py_str py_repr (default (JStr []) (node_field n (u "url"))))
    (u "/catalog")
  && truthy (default JNull (node_field n (u "searchQuery"))).

(** An eligible leaf as the data model has it: it passes the test of
    [select_leaves] and it has an [id] that is (or converts to) an integer. *)
Definition eligible_leaf (py_repr : json -> pystr)
    (str_to_int : pystr -> option Z) (n : json) : Prop :=
  eligible py_repr n = true /\
  exists idv i, node_field n (u "id") = Some idv /\
                py_int py_repr str_to_int idv = Ok i.

(** The filters of a response: the elements of [data.filters]. *)
Definition filters_of (data : json) : option (list json) :=
  match node_field data (u "data") with
  | Some d =>
      match node_field d (u "filters") with
      | Some fl => match py_iter fl with Ok l => Some l | Raise _ => None end
      | None => None
      end
  | None => None
  end.

(** A filter whose [key] equals ["xsubject"]. *)
Definition has_key_xsubject (f : json) : bool :=
  match node_field f (u "key") with
  | Some (JStr k) => bool_decide (k = u "xsubject")
  | _ => false
  end.

(** [s] is the [{id, name}] pair of the item [it]. *)
Definition pair_of_item (it s : json) : Prop :=
  exists i n, node_field it (u "id") = Some i /\
              node_field it (u "name") = Some n /\
              s = JObj [(u "id", i); (u "name", n)].

(** What the specification says the subjects are: the pairs of the items
    of the [xsubject] filter, in order; none when there is no such filter. *)
Definition xsubject_subjects (filters subjs : list json) : Prop :=
  match List.find has_key_xsubject filters with
  | Some f =>
      exists items,
        py_iter (default (JList []) (node_field f (u "items"))) = Ok items /\
        Forall2 pair_of_item items subjs
  | None => subjs = []
  end.

(** The test both [leaves_stats] and [subjects_map] apply to a record,
    [not r.get("error")], on a typed record: no error, or an empty one. *)
Definition error_is_falsy (r : LeafRecord) : bool :=
  match error r with
  | None => true
  | Some [] => true
  | Some (_ :: _) => false
  end.

(** What one turn of the loop of [subjects_map] does with a record. *)
Definition keep_record (m : gmap Z json) (r : LeafRecord) : gmap Z json :=
  if error_is_falsy r then <[leaf_id r := JList (subjects r)]> m else m.

(** The last record of [recs] for the leaf [k] that the test lets through. *)
Definition last_ok (k : Z) (recs : list LeafRecord) : option LeafRecord :=
  List.find (fun r => error_is_falsy r && (leaf_id r =? k)) (rev recs).







(** The text the specification describes: a leading byte-order mark
    removed, then the whitespace at both ends. *)
Definition spec_fallback_text (txt : pystr) : pystr :=
  strip match txt with
        | c :: rest => if (c =? BOM)%N then rest else txt
        | [] => []
        end.

(** [str(node.get(k, "")).strip()] for a dict [node]. *)
Definition node_text (py_repr : json -> pystr) (node : json) (k : pystr)
  : pystr :=
  strip (py_str py_repr (default (JStr []) (node_field node k))).

(** A text without whitespace at either end. *)
Definition stripped (s : pystr) : Prop :=
  (forall c r, s = c :: r -> is_space c = false) /\
  (forall r c, s = r ++ [c] -> is_space c = false).

(** A character [quote] can produce: an unreserved one or the percent sign. *)
Definition url_char (c : N) : bool := is_always_safe c || (c =? 37)%N.

(** A surrogate code point. *)
Definition is_surrogate (c : N) : Prop := (55296 <= c <= 57343)%N.

(** A JSON object. *)
Definition is_dict (v : json) : Prop := exists kvs, v = JObj kvs.

(** The test [not r.get("error")] on a parsed record. *)
Definition record_ok (r : json) : bool :=
  negb (truthy (default JNull (node_field r (u "error")))).

(** A path as [build_paths_by_root] files it under the key of a root: it
    starts at the root, at level 0, and the level grows by one at every
    step. *)
Definition root_path (key : Z * pystr) (p : list row) : Prop :=
  (exists rest, p = (fst key, snd key, 0) :: rest) /\
  List.map row_level p = List.map Z.of_nat (seq 0 (length p)).

(** All the paths of a dict of paths, key after key. *)
Definition all_paths (out : paths_dict) : list (list row) :=
  concat (List.map snd out).

(** The path [p] ends at the node [leaf]. *)
Definition ends_at (py_repr : json -> pystr) (str_to_int : pystr -> option Z)
    (p : list row) (leaf : json) : Prop :=
  exists pre id name level,
    p = pre ++ [(id, name, level)] /\
    node_key py_repr str_to_int leaf = Ok (id, name).

(** The path [p] goes through [acc], then through the node of key
    [(id, name)] at [level], and one level deeper at every further step. *)
Definition grows_from (acc : list row) (level id : Z) (name : pystr)
    (p : list row) : Prop :=
  exists tail,
    p = acc ++ (id, name, level) :: tail /\
    List.map row_level tail
    = List.map (fun i => level + 1 + Z.of_nat i) (seq 0 (length tail)).

(** The dict after [out.setdefault(key, []).append(p)] for each [p] of
    [ps] in turn. *)
Definition add_paths (key : Z * pystr) (ps : list (list row))
    (out : paths_dict) : paths_dict :=
  fold_left (fun o p => setdefault_append o key p) ps out.

(** A dict of paths is in order: no key twice, no key without a path, and
    under every key only paths from that root. *)
Definition paths_dict_ok (out : paths_dict) : Prop :=
  NoDup (List.map fst out) /\
  Forall (fun kp => snd kp <> [] /\ Forall (root_path (fst kp)) (snd kp)) out.

(** What [build_paths_by_root] has done for one root: the key it filed the
    paths under, and the paths, one for each leaf below the root. *)
Definition root_entry (py_repr : json -> pystr)
    (str_to_int : pystr -> option Z) (root : json)
    (kp : (Z * pystr) * list (list row)) : Prop :=
  node_key py_repr str_to_int root = Ok (fst kp) /\
  snd kp <> [] /\
  Forall (root_path (fst kp)) (snd kp) /\
  exists leaves,
    iter_leaves [root] = Ok leaves /\
    Forall2 (ends_at py_repr str_to_int) (snd kp) (rev leaves).

(** The dict after the paths of each root have been filed in turn. *)
Definition add_entries (kps : paths_dict) (out : paths_dict) : paths_dict :=
  fold_left (fun o kp => add_paths (fst kp) (snd kp) o) kps out.

(** Every node of the tree below [root] has a key: an [id] that converts
    to an integer. *)
Definition keyed_tree (py_repr : json -> pystr)
    (str_to_int : pystr -> option Z) (root : json) : Prop :=
  forall n, in_tree root n -> exists k, node_key py_repr str_to_int n = Ok k.




(** * Sample data

    Stand-ins for the three builtins (enough to run the examples: none of
    them prints a float or a container), a two-node menu and canned
    responses of the search endpoint. *)

Definition sample_repr (v : json) : pystr := u "<" ++ type_name v ++ u ">".

Fixpoint digits_value (acc : Z) (s : pystr) : option Z :=
  match s with
  | [] => Some acc
  | c :: s' =>
      if ((48 <=? c) && (c <=? 57))%N
      then digits_value (10 * acc + Z.of_N (c - 48)) s'
      else None
  end.

(** Plain ASCII decimal literals, with an optional minus sign. *)
Definition sample_int (s : pystr) : option Z :=
  match s with
  | [] => None
  | 45%N :: (_ :: _) as d => option_map Z.opp (digits_value 0 d)
  | _ => digits_value 0 s
  end.

(** A parser that knows the two smallest documents. *)
Definition sample_loads (s : pystr) : result json :=
  if str_eqb s (u "{}") then Ok (JObj [])
  else if str_eqb s (u "[]") then Ok (JList [])
  else Raise (Exc JSONDecodeError (u "Expecting value")).

Definition sample_leaf : json :=
  JObj [ (u "id", JInt 2); (u "name", JStr (u "L"));
         (u "url", JStr (u "/catalog/x")); (u "searchQuery", JStr (u "q")) ].

Definition sample_root : json :=
  JObj [ (u "id", JInt 1); (u "name", JStr (u "A"));
         (u "url", JStr (u "/catalog/a")); (u "childs", JList [sample_leaf]) ].

Definition sample_menu : list json := [sample_root].

Definition sample_menu_response : response :=
  {| resource_type := u "xhr";
     resp_url := u "https://static.example/main-menu-ru-ru-v3.json";
     resp_json := Ok (JList sample_menu);
     resp_text := Ok [] |}.

(** A response of the search endpoint with one subject, [Foo]. *)
Definition sample_payload : json :=
  JObj [ (u "data",
          JObj [ (u "filters",
                  JList [ JObj [ (u "key", JStr (u "xsubject"));
                                 (u "items",
                                  JList [ JObj [ (u "id", JInt 9);
                                                 (u "name", JStr (u "Foo"));
                                                 (u "count", JInt 3) ] ]) ] ]) ]) ].

Definition sample_ctx : http_client :=
  fun url headers timeout =>
    Ok {| resource_type := u "fetch"; resp_url := url;
          resp_json := Ok sample_payload; resp_text := Ok [] |}.

(** A client whose every request times out. *)
Definition sample_ctx_down : http_client :=
  fun url headers timeout =>
    Raise (Exc (OtherError (u "TimeoutError")) (u "Timeout 8000ms exceeded.")).

(** A response whose body [resp.json()] refuses, with raw text [txt]. *)
Definition sample_text_response (txt : pystr) : response :=
  {| resource_type := u "fetch"; resp_url := [];
     resp_json := Raise (Exc JSONDecodeError (u "Unexpected token"));
     resp_text := Ok txt |}.

(** A probe in place of the parser: it returns the text it is given. *)
Definition probe_loads (s : pystr) : result json := Ok (JStr s).

(** A second eligible leaf. *)
Definition sample_leaf2 : json :=
  JObj [ (u "id", JInt 3); (u "name", JStr (u "M"));
         (u "url", JStr (u "/catalog/y")); (u "searchQuery", JStr (u "a b")) ].

(** A client whose every request fails with an exception raised without
    a message, so that [str(e)] is the empty string. *)
Definition sample_ctx_silent : http_client :=
  fun url headers timeout => Raise (Exc (OtherError (u "TimeoutError")) []).

(** The record of the sample leaf when its fetch failed with an exception
    of empty text. *)
Definition sample_record_empty_error : LeafRecord :=
  {| leaf_id := 2; leaf_name := u "L";
     leaf_full_url := u "https://www.wildberries.ru/catalog/x";
     subjects := []; error := Some [] |}.

(** The path of the sample leaf under its root. *)
Definition sample_path : list row := [(1, u "A", 0); (2, u "L", 1)].




(** The [xsubject] filter of the sample response, and a filter of another
    key. *)
Definition sample_filter : json :=
  JObj [ (u "key", JStr (u "xsubject"));
         (u "items",
          JList [ JObj [ (u "id", JInt 9);
                         (u "name", JStr (u "Foo"));
                         (u "count", JInt 3) ] ]) ].

Definition sample_filter_brand : json :=
  JObj [ (u "key", JStr (u "fbrand")); (u "items", JList []) ].

(** A response with the filters [fl]. *)
Definition sample_payload_of (fl : list json) : json :=
  JObj [ (u "data", JObj [ (u "filters", JList fl) ]) ].

(** An [xsubject] filter one of whose items has no [name]. *)
Definition sample_filter_bad : json :=
  JObj [ (u "key", JStr (u "xsubject"));
         (u "items", JList [ JObj [ (u "id", JInt 9) ] ]) ].

(** A client whose every response has a brand filter and no [xsubject]
    filter. *)
Definition sample_ctx_brand : http_client :=
  fun url headers timeout =>
    Ok {| resource_type := u "fetch"; resp_url := url;
          resp_json := Ok (sample_payload_of [sample_filter_brand]);
          resp_text := Ok [] |}.

(** The records of the sample leaf: with the subject [Foo], and without
    subjects. *)
Definition sample_record_foo : LeafRecord :=
  {| leaf_id := 2; leaf_name := u "L";
     leaf_full_url := u "https://www.wildberries.ru/catalog/x";
     subjects := [JObj [ (u "id", JInt 9); (u "name", JStr (u "Foo")) ]];
     error := None |}.

Definition sample_record_none : LeafRecord :=
  {| leaf_id := 2; leaf_name := u "L";
     leaf_full_url := u "https://www.wildberries.ru/catalog/x";
     subjects := []; error := None |}.

(** A leaf without [searchQuery]. *)
Definition sample_leaf_bad : json :=
  JObj [ (u "id", JInt 4); (u "url", JStr (u "/catalog/z")) ].

(** The dict of paths of the sample menu. *)
Definition sample_paths : paths_dict := [((1, u "A"), [sample_path])].

(** A writer that counts the sheets it is given, accepts every call and,
    on leaving, refuses a workbook without a sheet. *)
Definition sample_writer : excel_writer nat :=
  {| writer_open := Ok 0%nat;
     writer_call := fun n c =>
       match c with
       | ToExcel _ _ _ => (S n, None)
       | _ => (n, None)
       end;
     writer_exit := fun n pending =>
       match n with
       | O => Raise (Exc IndexError (u "At least one sheet must be visible"))
       | S _ => Ok false
       end |}.

(** * Properties *)

(** ** Strings, dicts and the loop primitives *)

Lemma Ok_inj {A} (a b : A) : Ok a = Ok b -> a = b.
Proof. intros [= ->]. reflexivity. Qed.

Lemma bind_Ok {A B} (r : result A) (k : A -> result B) b :
  bind r k = Ok b -> exists a, r = Ok a /\ k a = Ok b.
Proof. destruct r as [a|e]; simpl; [eauto | discriminate]. Qed.


Lemma str_eqb_eq a b : str_eqb a b = true <-> a = b.
Proof. unfold str_eqb. apply bool_decide_eq_true. Qed.

Lemma str_eqb_refl a : str_eqb a a = true.
Proof. apply str_eqb_eq. reflexivity. Qed.

Lemma startswith_spec s p : startswith s p = true <-> exists t, s = p ++ t.
Proof.
  revert s. induction p as [|c p IH]; intros s; simpl.
  - split; [intros _; exists s; reflexivity | reflexivity].
  - destruct s as [|d s].
    + split; [discriminate | intros [t Ht]; discriminate].
    + rewrite andb_true_iff, N.eqb_eq, IH. split.
      * intros [-> [t ->]]. exists t. reflexivity.
      * intros [t [= -> ->]]. split; [reflexivity | exists t; reflexivity].
Qed.

Lemma endswith_spec s p : endswith s p = true <-> exists t, s = t ++ p.
Proof.
  unfold endswith. rewrite startswith_spec. split.
  - intros [t Ht]. exists (rev t).
    rewrite <- (rev_involutive s), Ht, rev_app_distr, rev_involutive. reflexivity.
  - intros [t ->]. exists (rev t). apply rev_app_distr.
Qed.

Lemma str_contains_spec s p :
  str_contains s p = true <-> exists a b, s = a ++ p ++ b.
Proof.
  induction s as [|c s IH]; simpl; rewrite orb_true_iff, startswith_spec.
  - split.
    + intros [[t Ht]|H]; [|discriminate]. exists [], t. exact Ht.
    + intros [a [b H]]. left. destruct a; [exists b; exact H | discriminate].
  - rewrite IH. split.
    + intros [[t Ht]|[a [b ->]]].
      * exists [], t. exact Ht.
      * exists (c :: a), b. reflexivity.
    + intros [[|c' a] [b H]].
      * left. exists b. exact H.
      * right. injection H as -> ->. exists a, b. reflexivity.
Qed.

Lemma dict_lookup_In kvs k :
  (exists v, dict_lookup kvs k = Some v) <-> (exists v, In (k, v) kvs).
Proof.
  induction kvs as [|[k' x] kvs IH]; simpl.
  - split; intros [v H]; [discriminate | contradiction].
  - destruct (str_eqb k' k) eqn:E.
    + apply str_eqb_eq in E. subst k'. split; intros _; exists x; auto.
    + rewrite IH. split; intros [v H]; exists v; [right; exact H|].
      destruct H as [[= -> ->]|H]; [|exact H].
      rewrite str_eqb_refl in E. discriminate.
Qed.

Lemma dict_has_spec kvs k : dict_has kvs k = true <-> exists v, In (k, v) kvs.
Proof.
  rewrite <- dict_lookup_In. unfold dict_has.
  destruct (dict_lookup kvs k); split; eauto; try discriminate.
  intros [v H]. discriminate.
Qed.

(** ** C7: the capture classifier *)

Lemma is_menu_url_spec url : is_menu_url url = true <-> menu_url_shape url.
Proof.
  unfold is_menu_url, menu_url_shape, MENU_HINTS. simpl.
  rewrite !andb_true_iff, endswith_spec, !str_contains_spec. tauto.
Qed.

Lemma looks_like_menu_json_spec data :
  looks_like_menu_json data = true <-> menu_body_shape data.
Proof.
  unfold menu_body_shape. destruct data; simpl;
    try (split; [discriminate | intros [l' [H _]]; discriminate]).
  rewrite existsb_exists. split.
  - intros [x [Hin Hx]]. exists l. split; [reflexivity|].
    destruct x; try discriminate.
    apply andb_true_iff in Hx as [Hid Hname].
    apply dict_has_spec in Hid, Hname.
    apply list_elem_of_In, list_elem_of_lookup in Hin as [i Hi].
    apply lookup_take_Some in Hi as [Hi Hlt].
    exists i, kvs. auto.
  - intros [l' [[= <-] [i [kvs [Hlt [Hi [Hid Hname]]]]]]].
    exists (JObj kvs). split.
    + apply list_elem_of_In, list_elem_of_lookup. exists i.
      apply lookup_take_Some. auto.
    + apply andb_true_iff. split; apply dict_has_spec; assumption.
Qed.

(** C7. A response is accepted exactly when its URL ends with [.json] and
    contains [main-menu] and [v3], and its parsed body is a list with, among
    its first five elements, a dict holding the keys [id] and [name]: the two
    predicates decide exactly these shapes, and the listener, on an
    XHR/fetch response while the future is pending, sets the future to the
    body in that case and leaves it pending in every other. *)
Theorem capture_classifier_iff (resp : response) (data : json) :
  In (resource_type resp) [u "xhr"; u "fetch"] ->
  resp_json resp = Ok data ->
  (is_menu_url (resp_url resp) = true <-> menu_url_shape (resp_url resp)) /\
  (looks_like_menu_json data = true <-> menu_body_shape data) /\
  (on_response resp None = Ok (Some data) <->
     menu_url_shape (resp_url resp) /\ menu_body_shape data) /\
  (~ (menu_url_shape (resp_url resp) /\ menu_body_shape data) ->
     on_response resp None = Ok None).
Proof.
  intros Hty Hjson.
  assert (Hrt : existsb (str_eqb (resource_type resp)) [u "xhr"; u "fetch"] = true).
  { apply existsb_exists. exists (resource_type resp). split; [exact Hty|].
    apply str_eqb_refl. }
  split; [apply is_menu_url_spec|]. split; [apply looks_like_menu_json_spec|].
  unfold on_response. rewrite Hrt, Hjson. simpl.
  rewrite <- is_menu_url_spec, <- looks_like_menu_json_spec.
  destruct (is_menu_url (resp_url resp)); simpl.
  - destruct (looks_like_menu_json data); simpl.
    + split; [tauto | intros H; exfalso; apply H; auto].
    + split; [split; [intros [= ]|intros [_ [= ]]] | reflexivity].
  - split; [split; [intros [= ]|intros [[= ] _]] | reflexivity].
Qed.

(** ** C4: leaves and eligible leaves *)

Lemma list_pop_snoc {A} (l : list A) x : list_pop (l ++ [x]) = Some (l, x).
Proof. unfold list_pop. rewrite rev_unit, rev_involutive. reflexivity. Qed.

Lemma iter_leaves_loop_eq stack out :
  iter_leaves_loop stack out =
  match iter_leaves_body stack out with
  | LoopExit => Ok out
  | LoopRaise e => Raise e
  | LoopNext stack' out' => iter_leaves_loop stack' out'
  end.
Proof.
  funelim (iter_leaves_loop stack out).
  - rewrite e. reflexivity.
  - rewrite e1. reflexivity.
  - rewrite Hstep. reflexivity.
Qed.

Section Properties.

Set Default Proof Using "Type".

Variable py_repr : json -> pystr.
Variable str_to_int : pystr -> option Z.
Variable json_loads : pystr -> result json.

Lemma catalog_node_children n :
  catalog_node n -> Forall catalog_node (children n).
Proof.
  intros [kvs H]. unfold children. simpl.
  destruct (dict_lookup kvs (u "childs")) as [c|] eqn:E; [|constructor].
  destruct c; try constructor.
  destruct l as [|x l]; [constructor|].
  destruct (H _ eq_refl eq_refl) as [cs [[= <-] Hcs]]. exact Hcs.
Qed.

Lemma in_tree_catalog r n : catalog_node r -> in_tree r n -> catalog_node n.
Proof.
  intros Hr Ht. induction Ht as [r|r c n Hc _ IH]; [exact Hr|].
  apply IH. apply catalog_node_children in Hr.
  rewrite List.Forall_forall in Hr. apply Hr. exact Hc.
Qed.

Lemma iter_leaves_body_catalog st node out :
  catalog_node node ->
  iter_leaves_body (st ++ [node]) out =
  match children node with
  | [] => LoopNext st (out ++ [node])
  | _ :: _ => LoopNext (st ++ children node) out
  end.
Proof.
  intros [kvs H]. unfold iter_leaves_body, children. rewrite list_pop_snoc.
  simpl. unfold py_or.
  destruct (dict_lookup kvs (u "childs")) as [c|] eqn:E; simpl; [|reflexivity].
  destruct (truthy c) eqn:Ht.
  - destruct (H c eq_refl Ht) as [cs [-> _]].
    simpl in Ht. destruct cs; [discriminate|]. reflexivity.
  - simpl. destruct c; try reflexivity. destruct l; [reflexivity|discriminate].
Qed.

Lemma leaf_below_childless node n :
  children node = [] -> (in_tree node n /\ is_leaf n <-> n = node).
Proof.
  intros Hc. split.
  - intros [Ht _]. inversion Ht as [|? c ? Hin _]; subst; [reflexivity|].
    rewrite Hc in Hin. contradiction.
  - intros ->. split; [constructor | exact Hc].
Qed.

Lemma leaf_below_parent node n :
  children node <> [] ->
  (in_tree node n /\ is_leaf n <->
   exists c, In c (children node) /\ in_tree c n /\ is_leaf n).
Proof.
  intros Hc. split.
  - intros [Ht Hl]. inversion Ht as [|? c ? Hin Hsub]; subst.
    + contradiction.
    + exists c. auto.
  - intros [c [Hin [Ht Hl]]]. split; [|exact Hl].
    eapply in_tree_child; eassumption.
Qed.

(** The loop of [iter_leaves] on catalog nodes: it returns, and what it
    adds to [out] are the leaves below the nodes on the stack. *)
Lemma iter_leaves_loop_spec stack out :
  Forall catalog_node stack ->
  exists res, iter_leaves_loop stack out = Ok res /\
    forall n, In n res <->
      In n out \/ exists r, In r stack /\ in_tree r n /\ is_leaf n.
Proof.
  revert stack out.
  apply (iter_leaves_loop_elim (fun stack out r =>
    Forall catalog_node stack ->
    exists res, r = Ok res /\
      forall n, In n res <->
        In n out \/ exists r, In r stack /\ in_tree r n /\ is_leaf n)).
  - intros stack out e _ Hwf.
    destruct stack as [|node st _] using rev_ind.
    + exists out. split; [reflexivity|]. intros n. split; [auto|].
      intros [H|[r [[] _]]]. exact H.
    + apply Forall_app in Hwf as [_ Hnode].
      inversion Hnode as [|? ? Hn _]; subst.
      rewrite iter_leaves_body_catalog in e by exact Hn.
      destruct (children node); discriminate.
  - intros stack out e e1 _ Hwf.
    destruct stack as [|node st _] using rev_ind; [discriminate|].
    apply Forall_app in Hwf as [_ Hnode].
    inversion Hnode as [|? ? Hn _]; subst.
    rewrite iter_leaves_body_catalog in e1 by exact Hn.
    destruct (children node); discriminate.
  - intros stack out stack' out' Hstep H _ Hwf.
    destruct stack as [|node st _] using rev_ind; [discriminate|].
    apply Forall_app in Hwf as [Hst Hnode].
    inversion Hnode as [|? ? Hn _]; subst.
    rewrite iter_leaves_body_catalog in Hstep by exact Hn.
    destruct (children node) as [|c cs] eqn:Hch; injection Hstep as <- <-.
    + destruct (H Hst) as [res [Hres Hin]]. exists res. split; [exact Hres|].
      intros n. rewrite Hin, in_app_iff. simpl.
      pose proof (leaf_below_childless node n Hch) as Hleaf. split.
      * intros [[H1|[<-|[]]]|[r [Hr Hrn]]]; [auto| |].
        -- right. exists node. rewrite in_app_iff. simpl.
           split; [auto|]. apply Hleaf. reflexivity.
        -- right. exists r. rewrite in_app_iff. auto.
      * intros [H1|[r [Hr [Ht Hl]]]]; [auto|].
        apply in_app_iff in Hr as [Hr|[<-|[]]].
        -- right. exists r. auto.
        -- left. right. left. symmetry. apply Hleaf. auto.
    + assert (Hcs : Forall catalog_node (st ++ c :: cs)).
      { apply Forall_app. split; [exact Hst|].
        rewrite <- Hch. apply catalog_node_children. exact Hn. }
      destruct (H Hcs) as [res [Hres Hin]]. exists res. split; [exact Hres|].
      intros n. rewrite Hin.
      assert (Hne : children node <> []) by (rewrite Hch; discriminate).
      pose proof (leaf_below_parent node n Hne) as Hleaf. rewrite Hch in Hleaf.
      split.
      * intros [H1|[r [Hr [Ht Hl]]]]; [auto|]. right.
        apply in_app_iff in Hr as [Hr|Hr].
        -- exists r. rewrite in_app_iff. auto.
        -- exists node. rewrite in_app_iff. simpl. split; [auto|].
           apply Hleaf. exists r. auto.
      * intros [H1|[r [Hr [Ht Hl]]]]; [auto|]. right.
        apply in_app_iff in Hr as [Hr|[<-|[]]].
        -- exists r. rewrite in_app_iff. auto.
        -- destruct Hleaf as [Hleaf _].
           destruct (Hleaf (conj Ht Hl)) as [c' [Hc' [Ht' Hl']]].
           exists c'. rewrite in_app_iff. auto.
Qed.

Lemma iter_leaves_spec menu :
  Forall catalog_node menu ->
  exists leaves, iter_leaves menu = Ok leaves /\
    Forall catalog_node leaves /\
    forall n, In n leaves <-> (exists r, In r menu /\ in_tree r n) /\ is_leaf n.
Proof.
  intros Hwf. destruct (iter_leaves_loop_spec menu [] Hwf) as [res [Hres Hin]].
  exists res. split; [exact Hres|].
  assert (Hiff : forall n, In n res <->
                   (exists r, In r menu /\ in_tree r n) /\ is_leaf n).
  { intros n. rewrite Hin. simpl. split.
    - intros [[]|[r [Hr [Ht Hl]]]]. split; [exists r; auto | exact Hl].
    - intros [[r [Hr Ht]] Hl]. right. exists r. auto. }
  split; [|exact Hiff].
  apply List.Forall_forall. intros n Hn. apply Hiff in Hn as [[r [Hr Ht]] _].
  eapply in_tree_catalog; [|exact Ht].
  rewrite List.Forall_forall in Hwf. apply Hwf. exact Hr.
Qed.

Lemma eligible_spec n :
  eligible py_repr n = true <->
  (exists rest, py_str py_repr (default (JStr []) (node_field n (u "url")))
                = u "/catalog" ++ rest) /\
  (exists q, node_field n (u "searchQuery") = Some q /\ truthy q = true).
Proof.
  unfold eligible. rewrite andb_true_iff, startswith_spec.
  destruct (node_field n (u "searchQuery")) as [q|]; simpl.
  - split; intros [H1 H2]; (split; [exact H1|]).
    + exists q. auto.
    + destruct H2 as [q' [[= <-] Hq]]. exact Hq.
  - split; intros [H1 H2]; [discriminate|].
    destruct H2 as [q [[= ] _]].
Qed.

Lemma select_leaves_loop_filter nodes out :
  Forall catalog_node nodes ->
  select_leaves_loop py_repr nodes out = Ok (out ++ List.filter (eligible py_repr) nodes).
Proof.
  revert out. induction nodes as [|node rest IH]; intros out Hwf.
  - simpl. rewrite app_nil_r. reflexivity.
  - inversion Hwf as [|? ? Hn Hrest]; subst. destruct Hn as [kvs _].
    cbn [select_leaves_loop List.filter]. unfold eligible at 1.
    cbn [py_get bind node_field].
    destruct (startswith (py_str py_repr (default (JStr []) (dict_lookup kvs (u "url"))))
                (u "/catalog")); cbn [andb].
    + destruct (truthy (default JNull (dict_lookup kvs (u "searchQuery"))));
        rewrite IH by exact Hrest; [|reflexivity].
      rewrite <- app_assoc. reflexivity.
    + apply IH. exact Hrest.
Qed.

(** C4. On a forest of catalog nodes [select_leaves] returns, and what it
    returns are the nodes given by [iter_leaves], kept in order when they
    pass the test; [iter_leaves] gives exactly the nodes of the forest with
    an empty or absent children sequence; so a node is selected exactly
    when it is such a leaf, its url begins with [/catalog] and its
    [searchQuery] is present and non-empty. *)
Theorem select_leaves_exactly (menu : list json) :
  Forall catalog_node menu ->
  exists leaves out,
    iter_leaves menu = Ok leaves /\
    select_leaves py_repr menu = Ok out /\
    out = List.filter (eligible py_repr) leaves /\
    (forall n, In n leaves <->
       (exists r, In r menu /\ in_tree r n) /\ is_leaf n) /\
    (forall n, In n out <->
       ((exists r, In r menu /\ in_tree r n) /\ is_leaf n) /\
       (exists rest, py_str py_repr (default (JStr []) (node_field n (u "url")))
                     = u "/catalog" ++ rest) /\
       (exists q, node_field n (u "searchQuery") = Some q /\ truthy q = true)).
Proof.
  intros Hwf. destruct (iter_leaves_spec menu Hwf) as [leaves [Hit [Hcat Hin]]].
  exists leaves, (List.filter (eligible py_repr) leaves).
  split; [exact Hit|]. split.
  - unfold select_leaves. rewrite Hit. simpl.
    apply select_leaves_loop_filter. exact Hcat.
  - split; [reflexivity|]. split; [exact Hin|].
    intros n. rewrite filter_In, Hin, eligible_spec. tauto.
Qed.

(** ** C10, C1, C3: the per-leaf fetch and its failure boundary *)

Lemma fetch_subjects_for_leaf_Ok ctx node id name full_url q :
  get_leaf_info py_repr str_to_int node = Ok (id, name, full_url, q) ->
  fetch_subjects_for_leaf py_repr str_to_int json_loads ctx node =
  Ok match fetch_subjects_try py_repr json_loads ctx q full_url with
     | Ok subj =>
         {| leaf_id := id; leaf_name := name; leaf_full_url := full_url;
            subjects := subj; error := None |}
     | Raise e =>
         {| leaf_id := id; leaf_name := name; leaf_full_url := full_url;
            subjects := []; error := Some (exc_str e) |}
     end.
Proof.
  intros H. unfold fetch_subjects_for_leaf. rewrite H. cbn [bind].
  destruct (fetch_subjects_try py_repr json_loads ctx q full_url); reflexivity.
Qed.

(** C10. [get_leaf_info] runs before the [try] block: whatever it raises,
    [fetch_subjects_for_leaf] raises too, instead of returning a record.
    So a node without the key [id], a node whose [id] does not convert to an
    integer, and a node without the key [searchQuery] make the function
    raise; and as soon as [get_leaf_info] returns, the function returns a
    record, whatever happens in URL building, the request and the
    extraction. *)
Theorem leaf_info_errors_escape (ctx : http_client) (node : json) :
  (forall e, get_leaf_info py_repr str_to_int node = Raise e ->
     fetch_subjects_for_leaf py_repr str_to_int json_loads ctx node = Raise e) /\
  (forall kvs, node = JObj kvs -> dict_lookup kvs (u "id") = None ->
     fetch_subjects_for_leaf py_repr str_to_int json_loads ctx node
     = Raise (Exc KeyError (quoted (u "id")))) /\
  (forall kvs idv e, node = JObj kvs -> dict_lookup kvs (u "id") = Some idv ->
     py_int py_repr str_to_int idv = Raise e ->
     fetch_subjects_for_leaf py_repr str_to_int json_loads ctx node = Raise e) /\
  (forall kvs, node = JObj kvs -> dict_lookup kvs (u "searchQuery") = None ->
     exists e, fetch_subjects_for_leaf py_repr str_to_int json_loads ctx node
               = Raise e) /\
  (forall kvs idv n, node = JObj kvs -> dict_lookup kvs (u "id") = Some idv ->
     py_int py_repr str_to_int idv = Ok n ->
     dict_lookup kvs (u "searchQuery") = None ->
     fetch_subjects_for_leaf py_repr str_to_int json_loads ctx node
     = Raise (Exc KeyError (quoted (u "searchQuery")))) /\
  (forall info, get_leaf_info py_repr str_to_int node = Ok info ->
     exists r, fetch_subjects_for_leaf py_repr str_to_int json_loads ctx node
               = Ok r).
Proof.
  split; [|split; [|split; [|split; [|split]]]].
  - intros e H. unfold fetch_subjects_for_leaf. rewrite H. reflexivity.
  - intros kvs -> Hid. unfold fetch_subjects_for_leaf, get_leaf_info.
    cbn [py_getitem]. rewrite Hid. reflexivity.
  - intros kvs idv e -> Hid Hint. unfold fetch_subjects_for_leaf, get_leaf_info.
    cbn [py_getitem]. rewrite Hid. cbn [bind]. rewrite Hint. reflexivity.
  - intros kvs -> Hq. unfold fetch_subjects_for_leaf, get_leaf_info.
    cbn [py_getitem py_get]. rewrite Hq.
    destruct (dict_lookup kvs (u "id")) as [idv|]; cbn [bind]; [|eauto].
    destruct (py_int py_repr str_to_int idv); cbn [bind]; eauto.
  - intros kvs idv n -> Hid Hint Hq.
    unfold fetch_subjects_for_leaf, get_leaf_info.
    cbn [py_getitem py_get]. rewrite Hid. cbn [bind]. rewrite Hint.
    cbn [bind]. rewrite Hq. reflexivity.
  - intros [[[id name] full_url] q] H.
    rewrite (fetch_subjects_for_leaf_Ok ctx node id name full_url q H). eauto.
Qed.

(** C1. For a leaf whose descriptor [get_leaf_info] could read, an exception
    raised while building the URL, during the request (or the parsing of its
    body), or while extracting the subjects does not leave
    [fetch_subjects_for_leaf]: the function returns a record whose [error] is
    the text of that exception and whose [subjects] are empty. *)
Theorem fetch_errors_are_recorded (ctx : http_client) (node : json)
    (id : Z) (name full_url : pystr) (q : json) :
  get_leaf_info py_repr str_to_int node = Ok (id, name, full_url, q) ->
  exists r,
    fetch_subjects_for_leaf py_repr str_to_int json_loads ctx node = Ok r /\
    leaf_id r = id /\ leaf_name r = name /\ leaf_full_url r = full_url /\
    (forall e, build_filters_url py_repr q = Raise e ->
       error r = Some (exc_str e) /\ subjects r = []) /\
    (forall url e, build_filters_url py_repr q = Ok url ->
       fetch_json json_loads ctx url full_url = Raise e ->
       error r = Some (exc_str e) /\ subjects r = []) /\
    (forall url data e, build_filters_url py_repr q = Ok url ->
       fetch_json json_loads ctx url full_url = Ok data ->
       extract_subjects data = Raise e ->
       error r = Some (exc_str e) /\ subjects r = []).
Proof.
  intros H. rewrite (fetch_subjects_for_leaf_Ok ctx node id name full_url q H).
  eexists. split; [reflexivity|]. unfold fetch_subjects_try.
  destruct (build_filters_url py_repr q) as [url|e0] eqn:Hb; cbn [bind].
  - destruct (fetch_json json_loads ctx url full_url) as [data|e1] eqn:Hf;
      cbn [bind].
    + destruct (extract_subjects data) as [subj|e2] eqn:Hx;
        cbn; repeat split; intros; repeat split; congruence.
    + cbn; repeat split; intros; repeat split; congruence.
  - cbn; repeat split; intros; repeat split; congruence.
Qed.

Lemma py_getitem_Ok o k v : py_getitem o k = Ok v -> node_field o k = Some v.
Proof.
  destruct o; simpl; try discriminate.
  destruct (dict_lookup kvs k); [intros [= ->]; reflexivity | discriminate].
Qed.

Lemma py_get_Ok o k d v :
  py_get o k d = Ok v -> v = default d (node_field o k).
Proof. destruct o; simpl; try discriminate. intros [= <-]. reflexivity. Qed.

(** The comparison [f.get("key") == "xsubject"] of the code decides
    whether the filter has the key ["xsubject"]. *)
Lemma has_key_xsubject_eq f :
  json_eq_str (default JNull (node_field f (u "key"))) (u "xsubject")
  = has_key_xsubject f.
Proof.
  unfold has_key_xsubject.
  destruct (node_field f (u "key")) as [[]|]; reflexivity.
Qed.

Lemma mapM_subject_of_item items subjs :
  mapM subject_of_item items = Ok subjs -> Forall2 pair_of_item items subjs.
Proof.
  revert subjs. induction items as [|it items IH]; intros subjs; simpl.
  - intros [= <-]. constructor.
  - intros H. apply bind_Ok in H as [s [Hs H]].
    apply bind_Ok in H as [ss [Hss [= <-]]].
    constructor; [|apply IH; exact Hss].
    unfold subject_of_item in Hs.
    apply bind_Ok in Hs as [i [Hi Hs]]. apply bind_Ok in Hs as [n [Hn [= <-]]].
    exists i, n. auto using py_getitem_Ok.
Qed.

Lemma extract_subjects_loop_spec filters subjs :
  extract_subjects_loop filters = Ok subjs -> xsubject_subjects filters subjs.
Proof.
  unfold xsubject_subjects.
  induction filters as [|f rest IH]; cbn [extract_subjects_loop List.find].
  - intros [= <-]. reflexivity.
  - intros H. apply bind_Ok in H as [k [Hk H]].
    apply py_get_Ok in Hk as Hk'. rewrite <- has_key_xsubject_eq, <- Hk'.
    destruct (json_eq_str k (u "xsubject")).
    + apply bind_Ok in H as [items [Hitems H]].
      apply bind_Ok in H as [its [Hits H]].
      apply py_get_Ok in Hitems. subst items.
      exists its. split; [exact Hits | apply mapM_subject_of_item; exact H].
    + apply IH. exact H.
Qed.

Lemma extract_subjects_spec data subjs :
  extract_subjects data = Ok subjs ->
  exists filters, filters_of data = Some filters /\
                  xsubject_subjects filters subjs.
Proof.
  unfold extract_subjects, filters_of. intros H.
  apply bind_Ok in H as [d [Hd H]]. apply bind_Ok in H as [fl [Hfl H]].
  apply bind_Ok in H as [filters [Hit H]].
  rewrite (py_getitem_Ok _ _ _ Hd), (py_getitem_Ok _ _ _ Hfl), Hit.
  exists filters. split; [reflexivity | apply extract_subjects_loop_spec; exact H].
Qed.

Lemma extract_subjects_filters data filters :
  filters_of data = Some filters ->
  extract_subjects data = extract_subjects_loop filters.
Proof.
  unfold filters_of, extract_subjects. intros H.
  destruct data; try discriminate. cbn [node_field py_getitem] in *.
  destruct (dict_lookup kvs (u "data")) as [d|]; [|discriminate]. cbn [bind].
  destruct d; try discriminate. cbn [node_field py_getitem] in *.
  destruct (dict_lookup kvs0 (u "filters")) as [fl|]; [|discriminate].
  cbn [bind]. destruct (py_iter fl); [|discriminate].
  injection H as <-. reflexivity.
Qed.

Lemma has_key_xsubject_get f :
  has_key_xsubject f = true ->
  exists kvs, f = JObj kvs /\
    forall rest,
      extract_subjects_loop (f :: rest)
      = (its <- py_iter (default (JList []) (dict_lookup kvs (u "items"))) ;;
         mapM subject_of_item its).
Proof.
  intros H. rewrite <- has_key_xsubject_eq in H.
  destruct f; try (cbn in H; discriminate).
  exists kvs. split; [reflexivity|]. intros rest.
  cbn [extract_subjects_loop py_get bind]. cbn [node_field] in H.
  rewrite H. reflexivity.
Qed.

Lemma mapM_subject_of_item_Ok items :
  Forall (fun it => exists s, pair_of_item it s) items ->
  exists subjs, mapM subject_of_item items = Ok subjs.
Proof.
  induction 1 as [|it items [s [i [n [Hi [Hn _]]]]] _ [subjs IH]]; simpl; [eauto|].
  rewrite IH.
  assert (Hit : subject_of_item it = Ok (JObj [(u "id", i); (u "name", n)])).
  { unfold subject_of_item. destruct it; try discriminate.
    cbn [node_field py_getitem] in *. rewrite Hi, Hn. reflexivity. }
  rewrite Hit. cbn [bind]. eauto.
Qed.

Lemma extract_subjects_loop_find filters :
  Forall is_dict filters ->
  extract_subjects_loop filters
  = match List.find has_key_xsubject filters with
    | Some f =>
        its <- py_iter (default (JList []) (node_field f (u "items"))) ;;
        mapM subject_of_item its
    | None => Ok []
    end.
Proof.
  induction 1 as [|f filters [kvs ->] _ IH]; [reflexivity|].
  cbn [List.find]. destruct (has_key_xsubject (JObj kvs)) eqn:E.
  - destruct (has_key_xsubject_get _ E) as [kvs' [[= <-] Hloop]].
    rewrite Hloop. reflexivity.
  - cbn [extract_subjects_loop py_get bind]. rewrite <- has_key_xsubject_eq in E.
    cbn [node_field] in E. rewrite E. exact IH.
Qed.

(** C3. A record with an error has no subjects.  A record without error
    comes from a response that was fetched and parsed, and its subjects are
    the [{id, name}] pairs of the items of the filter of [data.filters]
    whose key is ["xsubject"], in the order of the response, and none when
    no filter has that key.  And the other way round, for the response the
    leaf's request gets, when [data.filters] is a list of dicts: without a
    filter of key ["xsubject"] the record has no error and no subjects (the
    missing facet is not an error); with one whose items all have [id] and
    [name], the record has no error and one pair for each item, in order. *)
Theorem record_subjects_invariant (ctx : http_client) (node : json)
    (r : LeafRecord) :
  fetch_subjects_for_leaf py_repr str_to_int json_loads ctx node = Ok r ->
  (error r <> None -> subjects r = []) /\
  (error r = None ->
     exists q url data filters,
       get_leaf_info py_repr str_to_int node
         = Ok (leaf_id r, leaf_name r, leaf_full_url r, q) /\
       build_filters_url py_repr q = Ok url /\
       fetch_json json_loads ctx url (leaf_full_url r) = Ok data /\
       filters_of data = Some filters /\
       xsubject_subjects filters (subjects r)) /\
  (forall q url data filters,
     get_leaf_info py_repr str_to_int node
       = Ok (leaf_id r, leaf_name r, leaf_full_url r, q) ->
     build_filters_url py_repr q = Ok url ->
     fetch_json json_loads ctx url (leaf_full_url r) = Ok data ->
     filters_of data = Some filters ->
     Forall is_dict filters ->
     (List.find has_key_xsubject filters = None ->
        error r = None /\ subjects r = []) /\
     (forall f items,
        List.find has_key_xsubject filters = Some f ->
        default (JList []) (node_field f (u "items")) = JList items ->
        Forall (fun it => exists s, pair_of_item it s) items ->
        error r = None /\ Forall2 pair_of_item items (subjects r))).
Proof.
  intros H.
  destruct (get_leaf_info py_repr str_to_int node)
    as [[[[id name] full_url] q]|e] eqn:Hinfo.
  2: { unfold fetch_subjects_for_leaf in H. rewrite Hinfo in H. discriminate. }
  rewrite (fetch_subjects_for_leaf_Ok ctx node id name full_url q Hinfo) in H.
  apply Ok_inj in H. subst r.
  destruct (fetch_subjects_try py_repr json_loads ctx q full_url)
    as [subj|e] eqn:Htry; cbn [error subjects leaf_id leaf_name leaf_full_url].
  - split; [congruence|]. split.
    + intros _. unfold fetch_subjects_try in Htry.
      apply bind_Ok in Htry as [url [Hurl Htry]].
      apply bind_Ok in Htry as [data [Hdata Hx]].
      apply extract_subjects_spec in Hx as [filters [Hf Hs]].
      exists q, url, data, filters. auto.
    + intros q' url data filters Hq Hurl Hdata Hf Hd.
      apply Ok_inj in Hq.
      assert (q' = q) by (apply (f_equal snd) in Hq; symmetry; exact Hq).
      subst q'. clear Hq.
      unfold fetch_subjects_try in Htry. rewrite Hurl in Htry.
      cbn [bind] in Htry. rewrite Hdata in Htry. cbn [bind] in Htry.
      rewrite (extract_subjects_filters _ _ Hf) in Htry.
      rewrite (extract_subjects_loop_find _ Hd) in Htry.
      split.
      * intros Hnone. rewrite Hnone in Htry. apply Ok_inj in Htry.
        split; [reflexivity | symmetry; exact Htry].
      * intros f items Hsome Hitems Hwf. rewrite Hsome, Hitems in Htry.
        cbn [py_iter bind] in Htry. split; [reflexivity|].
        apply mapM_subject_of_item. exact Htry.
  - split; [reflexivity|]. split; [discriminate|].
    intros q' url data filters Hq Hurl Hdata Hf Hd.
    apply Ok_inj in Hq.
    assert (q' = q) by (apply (f_equal snd) in Hq; symmetry; exact Hq).
    subst q'. clear Hq.
    unfold fetch_subjects_try in Htry. rewrite Hurl in Htry.
    cbn [bind] in Htry. rewrite Hdata in Htry. cbn [bind] in Htry.
    rewrite (extract_subjects_filters _ _ Hf) in Htry.
    rewrite (extract_subjects_loop_find _ Hd) in Htry.
    split.
    + intros Hnone. rewrite Hnone in Htry. discriminate.
    + intros f items Hsome Hitems Hwf. rewrite Hsome, Hitems in Htry.
      cbn [py_iter bind] in Htry.
      destruct (mapM_subject_of_item_Ok items Hwf) as [subjs Hs].
      rewrite Hs in Htry. discriminate.
Qed.

(** ** C2: one record per leaf *)

Lemma fill_slots_split cap waiting in_flight w f :
  fill_slots cap waiting in_flight = (w, f) ->
  exists pre, f = in_flight ++ pre /\ waiting = pre ++ w.
Proof.
  revert in_flight. induction waiting as [|n waiting IH]; intros in_flight; simpl.
  - intros [= <- <-]. exists []. rewrite app_nil_r. auto.
  - destruct (length in_flight <? cap)%nat.
    + intros H. apply IH in H as [pre [-> ->]]. exists (n :: pre).
      rewrite <- app_assoc. auto.
    + intros [= <- <-]. exists []. rewrite app_nil_r. auto.
Qed.

Lemma fill_slots_app cap waiting in_flight w f :
  fill_slots cap waiting in_flight = (w, f) -> f ++ w = in_flight ++ waiting.
Proof.
  intros H. apply fill_slots_split in H as [pre [-> ->]].
  rewrite <- app_assoc. reflexivity.
Qed.

Lemma fill_slots_nonempty cap waiting in_flight w f :
  (0 < cap)%nat -> fill_slots cap waiting in_flight = (w, f) ->
  f = [] -> waiting = [] /\ in_flight = [].
Proof.
  intros Hcap. destruct waiting as [|n waiting]; simpl.
  - intros [= <- <-] ->. auto.
  - destruct (length in_flight <? cap)%nat eqn:E.
    + intros H ->. apply fill_slots_split in H as [pre [H _]].
      destruct in_flight; discriminate.
    + intros [= <- <-] ->. apply Nat.ltb_ge in E. simpl in E. lia.
Qed.

Lemma as_completed_loop_spec ctx cap sched tasks :
  (0 < cap)%nat ->
  forall waiting in_flight results,
    (length waiting + length in_flight)%nat = tasks ->
    Forall (fun n => exists r,
              fetch_subjects_for_leaf py_repr str_to_int json_loads ctx n = Ok r)
           (in_flight ++ waiting) ->
    exists out,
      as_completed_loop py_repr str_to_int json_loads ctx cap sched tasks
        waiting in_flight results = Completed out /\
      length out = (length results + tasks)%nat /\
      Permutation (List.map Ok out)
        (List.map Ok results ++
         List.map (fetch_subjects_for_leaf py_repr str_to_int json_loads ctx)
           (in_flight ++ waiting)).
Proof.
  intros Hcap. induction tasks as [|tasks IH]; intros waiting in_flight results Hlen Hok.
  - destruct waiting; [|discriminate]. destruct in_flight; [|discriminate].
    exists results. simpl. rewrite app_nil_r. split; [reflexivity|].
    split; [lia | reflexivity].
  - cbn [as_completed_loop].
    destruct (fill_slots cap waiting in_flight) as [w f] eqn:Hfill.
    pose proof (fill_slots_app _ _ _ _ _ Hfill) as Happ.
    assert (Hf : f <> []).
    { intros ->. destruct (fill_slots_nonempty _ _ _ _ _ Hcap Hfill eq_refl)
        as [-> ->]. discriminate. }
    assert (Hi : (sched (S tasks) mod length f < length f)%nat).
    { apply Nat.mod_upper_bound. destruct f; [contradiction | discriminate]. }
    destruct (lookup_lt_is_Some_2 _ _ Hi) as [node Hnode]. rewrite Hnode.
    rewrite <- Happ in Hok.
    assert (Hperm : f ≡ₚ node :: delete (sched (S tasks) mod length f)%nat f)
      by (apply delete_Permutation; exact Hnode).
    assert (Hok' : Forall (fun n => exists r,
              fetch_subjects_for_leaf py_repr str_to_int json_loads ctx n = Ok r)
              (node :: delete (sched (S tasks) mod length f)%nat f ++ w)).
    { eapply Permutation_Forall; [|exact Hok].
      change (f ++ w ≡ₚ (node :: delete (sched (S tasks) mod length f)%nat f) ++ w).
      apply Permutation_app_tail. exact Hperm. }
    inversion Hok' as [|? ? [r Hr] Hrest]; subst. rewrite Hr.
    destruct (IH w (delete (sched (S tasks) mod length f)%nat f) (results ++ [r]))
      as [out [Hout [Hlen' Hp]]].
    + assert (Hl : length (f ++ w) = length (in_flight ++ waiting))
        by (rewrite Happ; reflexivity).
      apply Permutation_length in Hperm. rewrite !length_app in Hl.
      simpl in Hperm. lia.
    + exact Hrest.
    + exists out. split; [exact Hout|]. split.
      * rewrite Hlen', length_app. simpl. lia.
      * rewrite Hp, <- Happ, List.map_app, <- app_assoc. simpl.
        apply Permutation_app_head. rewrite <- Hr.
        change (List.map (fetch_subjects_for_leaf py_repr str_to_int json_loads ctx)
                  (node :: delete (sched (S tasks) mod length f)%nat f ++ w)
                ≡ₚ List.map (fetch_subjects_for_leaf py_repr str_to_int json_loads ctx)
                  (f ++ w)).
        apply Permutation_map.
        change ((node :: delete (sched (S tasks) mod length f)%nat f) ++ w ≡ₚ f ++ w).
        apply Permutation_app_tail. symmetry. exact Hperm.
Qed.

Lemma eligible_leaf_fetch ctx n :
  eligible_leaf py_repr str_to_int n ->
  exists r, fetch_subjects_for_leaf py_repr str_to_int json_loads ctx n = Ok r.
Proof.
  intros [He [idv [i [Hi Hint]]]]. apply eligible_spec in He as [_ [q [Hq _]]].
  destruct n; try discriminate. simpl in Hi, Hq.
  assert (H : exists name url,
             get_leaf_info py_repr str_to_int (JObj kvs) = Ok (i, name, url, q)).
  { unfold get_leaf_info. cbn [py_getitem py_get]. rewrite Hi, Hq.
    cbn [bind]. rewrite Hint. cbn [bind]. eauto. }
  destruct H as [name [url H]].
  rewrite (fetch_subjects_for_leaf_Ok ctx _ _ _ _ _ H). eauto.
Qed.

(** C2. For every list of eligible leaves, every concurrency cap of at
    least one and every order in which the requests finish, the fan-out and
    fan-in of [collect_subjects] ends with a list of records of the length of
    the list of leaves: the records of the leaves, one each, with or without
    error, in the order of completion. *)
Theorem one_record_per_leaf (ctx : http_client) (concurrency : Z)
    (sched : nat -> nat) (leaves : list json) :
  1 <= concurrency ->
  Forall (eligible_leaf py_repr str_to_int) leaves ->
  exists results,
    gather_leaves py_repr str_to_int json_loads ctx concurrency sched leaves
      = Completed results /\
    length results = length leaves /\
    Permutation (List.map Ok results)
      (List.map (fetch_subjects_for_leaf py_repr str_to_int json_loads ctx) leaves) /\
    (forall menu, select_leaves py_repr menu = Ok leaves ->
       collect_subjects py_repr str_to_int json_loads menu ctx concurrency sched
       = Completed results).
Proof.
  intros Hc Hel. unfold gather_leaves.
  destruct (concurrency <? 0) eqn:E; [apply Z.ltb_lt in E; lia|].
  destruct (as_completed_loop_spec ctx (Z.to_nat concurrency) sched
              (length leaves) ltac:(lia) leaves [] [])
    as [out [Hout [Hlen Hperm]]].
  - simpl. lia.
  - simpl. eapply Forall_impl; [exact Hel|].
    intros n Hn. apply eligible_leaf_fetch. exact Hn.
  - exists out. split; [exact Hout|]. split; [simpl in Hlen; exact Hlen|].
    split; [exact Hperm|].
    intros menu Hsel. unfold collect_subjects, gather_leaves.
    rewrite Hsel, E. exact Hout.
Qed.

(** ** C8: which records count as succeeded *)

Lemma error_is_falsy_spec r :
  error_is_falsy r = true <-> error r = None \/ error r = Some [].
Proof.
  unfold error_is_falsy. destruct (error r) as [[|c m]|].
  - split; auto.
  - split; [discriminate | intros [H|H]; discriminate].
  - split; auto.
Qed.

Lemma record_error_get r :
  py_get (record_json r) (u "error") JNull
  = Ok match error r with Some m => JStr m | None => JNull end.
Proof. reflexivity. Qed.

Lemma record_error_truthy r :
  truthy match error r with Some m => JStr m | None => JNull end
  = negb (error_is_falsy r).
Proof. unfold error_is_falsy. destruct (error r) as [[|c m]|]; reflexivity. Qed.

Lemma count_ok_records recs :
  count_ok (List.map record_json recs)
  = Ok (Z.of_nat (length (List.filter error_is_falsy recs))).
Proof.
  induction recs as [|r recs IH]; [reflexivity|].
  cbn [List.map count_ok List.filter].
  rewrite record_error_get, IH. cbn [bind]. rewrite record_error_truthy.
  destruct (error_is_falsy r); cbn [negb length]; f_equal; lia.
Qed.

Lemma subjects_map_loop_records recs res :
  subjects_map_loop py_repr str_to_int (List.map record_json recs) res
  = Ok (fold_left keep_record recs res).
Proof.
  revert res. induction recs as [|r recs IH]; intros res; [reflexivity|].
  cbn [List.map subjects_map_loop fold_left].
  rewrite record_error_get. cbn [bind]. rewrite record_error_truthy.
  unfold keep_record at 2. destruct (error_is_falsy r); cbn [negb].
  - change (py_get (record_json r) (u "subjects") (JList []))
      with (Ok (JList (subjects r))).
    change (py_getitem (record_json r) (u "leaf_id"))
      with (Ok (JInt (leaf_id r))).
    cbn [bind py_int]. rewrite IH. do 3 f_equal.
    unfold py_or. destruct (subjects r); reflexivity.
  - apply IH.
Qed.

Lemma lookup_fold_keep k recs res :
  fold_left keep_record recs res !! k
  = match last_ok k recs with
    | Some r => Some (JList (subjects r))
    | None => res !! k
    end.
Proof.
  unfold last_ok. induction recs as [|r recs IH] using rev_ind; [reflexivity|].
  rewrite fold_left_app, rev_unit. cbn [fold_left List.find].
  unfold keep_record at 1. destruct (error_is_falsy r); cbn [andb].
  - destruct (leaf_id r =? k) eqn:E.
    + apply Z.eqb_eq in E. subst k. apply lookup_insert_eq.
    + apply Z.eqb_neq in E. rewrite lookup_insert_ne by exact E. exact IH.
  - exact IH.
Qed.

Lemma last_ok_Some k recs :
  is_Some (last_ok k recs) <->
  exists r, In r recs /\ leaf_id r = k /\ error_is_falsy r = true.
Proof.
  unfold last_ok. split.
  - intros [r Hr]. apply find_some in Hr as [Hin Hr].
    apply andb_true_iff in Hr as [He Hk]. apply Z.eqb_eq in Hk.
    exists r. rewrite in_rev. auto.
  - intros [r [Hin [Hk He]]].
    destruct (List.find _ (rev recs)) as [r'|] eqn:E; [eauto|].
    exfalso. apply in_rev in Hin. apply (find_none _ _ E r) in Hin.
    rewrite He, Hk, Z.eqb_refl in Hin. discriminate.
Qed.

Lemma subjects_map_records recs :
  exists m,
    subjects_map py_repr str_to_int (List.map record_json recs) = Ok m /\
    (forall k, is_Some (m !! k) <->
       exists r, In r recs /\ leaf_id r = k /\ error_is_falsy r = true) /\
    (forall k, m !! k = (fun r => JList (subjects r)) <$> last_ok k recs).
Proof.
  unfold subjects_map. rewrite subjects_map_loop_records.
  eexists. split; [reflexivity|].
  assert (Hk : forall k, fold_left keep_record recs ∅ !! k
                 = (fun r => JList (subjects r)) <$> last_ok k recs).
  { intros k. rewrite lookup_fold_keep.
    destruct (last_ok k recs); [reflexivity | apply lookup_empty]. }
  split; [|exact Hk].
  intros k. rewrite Hk, <- last_ok_Some.
  destruct (last_ok k recs); simpl; split; intros [x Hx]; eauto; discriminate.
Qed.

(** What the two functions test.  For every list of LeafRecords,
    [leaves_stats] counts a record, and [subjects_map] keeps its leaf id
    (with the subjects of the last such record), exactly when
    [not r.get("error")] holds of it: the error is null or the empty
    string. *)
Lemma success_is_falsy_error (recs : list LeafRecord) :
  (forall r, error_is_falsy r = true <-> error r = None \/ error r = Some []) /\
  leaves_stats (JList (List.map record_json recs))
  = Ok (Z.of_nat (length recs),
        Z.of_nat (length (List.filter error_is_falsy recs))) /\
  exists m,
    subjects_map py_repr str_to_int (List.map record_json recs) = Ok m /\
    (forall k, is_Some (m !! k) <->
       exists r, In r recs /\ leaf_id r = k /\ error_is_falsy r = true) /\
    (forall k, m !! k = (fun r => JList (subjects r)) <$> last_ok k recs).
Proof.
  split; [exact error_is_falsy_spec|]. split.
  - unfold leaves_stats. cbn [py_len py_iter bind].
    rewrite count_ok_records, length_map. reflexivity.
  - apply subjects_map_records.
Qed.

(** ** C5: rows never have level 0; failed leaves lose only their subjects *)





Lemma build_rows_loop_concat paths subj rows :
  build_rows_loop py_repr str_to_int paths subj rows
  = (rs <- mapM (path_rows py_repr str_to_int subj) paths ;;
     Ok (rows ++ concat rs)).
Proof.
  revert rows. induction paths as [|path paths IH]; intros rows; simpl.
  - rewrite app_nil_r. reflexivity.
  - destruct (path_rows py_repr str_to_int subj path) as [new|e]; simpl;
      [|reflexivity].
    rewrite IH.
    destruct (mapM (path_rows py_repr str_to_int subj) paths); simpl;
      [|reflexivity].
    rewrite <- app_assoc. reflexivity.
Qed.





(** ** C9: the text fallback of [fetch_json] *)

Lemma lstrip_chars_spec chars s :
  exists pre, s = pre ++ lstrip_chars chars s /\
    Forall (fun c => In c chars) pre /\
    (forall c rest, lstrip_chars chars s = c :: rest -> ~ In c chars).
Proof.
  induction s as [|c s [pre [Hs [Hpre Hhd]]]]; simpl.
  - exists []. repeat split; [constructor | discriminate].
  - destruct (existsb (N.eqb c) chars) eqn:E.
    + exists (c :: pre). split; [simpl; congruence|]. split; [|exact Hhd].
      constructor; [|exact Hpre].
      apply existsb_exists in E as [d [Hd E]]. apply N.eqb_eq in E. congruence.
    + exists []. split; [reflexivity|]. split; [constructor|].
      intros c' rest [= <- <-] Hin.
      assert (existsb (N.eqb c) chars = true); [|congruence].
      apply existsb_exists. exists c. split; [exact Hin | apply N.eqb_refl].
Qed.

(** C9 (amended). When [resp.json()] raises, whatever the reason,
    [fetch_json] reads the raw text, drops from its start every character
    that is a byte-order mark, a space, a tab, a carriage return or a line
    feed, up to the first character that is none of these, leaves the rest
    of the text as it is (nothing is removed at the end), and parses that
    text as JSON. *)
Theorem fetch_json_text_fallback (ctx : http_client) (url referer : pystr)
    (resp : response) (e : exc) :
  ctx url (request_headers referer) 8000 = Ok resp ->
  resp_json resp = Raise e ->
  fetch_json json_loads ctx url referer
  = (txt <- resp_text resp ;; json_loads (fallback_text txt)) /\
  forall txt, exists pre,
    txt = pre ++ fallback_text txt /\
    Forall (fun c => In c [BOM; 32; 9; 13; 10]%N) pre /\
    (forall c rest, fallback_text txt = c :: rest ->
                    ~ In c [BOM; 32; 9; 13; 10]%N).
Proof.
  intros Hget Hjson. split.
  - unfold fetch_json. rewrite Hget. cbn [bind]. rewrite Hjson. reflexivity.
  - intros txt. apply (lstrip_chars_spec BOM_WS txt).
Qed.

(** ** C6: the search URL *)

Lemma utf8_encode_app a b :
  utf8_encode (a ++ b)
  = (x <- utf8_encode a ;; y <- utf8_encode b ;; Ok (x ++ y)).
Proof.
  induction a as [|c a IH]; simpl.
  - destruct (utf8_encode b); reflexivity.
  - destruct (utf8_char c) as [bs|]; [|reflexivity]. rewrite IH.
    destruct (utf8_encode a); simpl; [|reflexivity].
    destruct (utf8_encode b); simpl; [|reflexivity].
    rewrite app_assoc. reflexivity.
Qed.

Lemma hex_digit_ge n : (48 <= hex_digit n)%N.
Proof. unfold hex_digit. destruct (n <? 10)%N; lia. Qed.

Lemma quote_byte_no_space_plus b c :
  In c (quote_byte b) -> c <> 32%N /\ c <> 43%N.
Proof.
  unfold quote_byte. destruct (is_always_safe b) eqn:E; simpl.
  - intros [<-|[]]. split; intros ->; discriminate.
  - pose proof (hex_digit_ge (b / 16)). pose proof (hex_digit_ge (b mod 16)).
    intros [<-|[<-|[<-|[]]]]; lia.
Qed.

Lemma quoted_no_space_plus bs c :
  In c (flat_map quote_byte bs) -> c <> 32%N /\ c <> 43%N.
Proof.
  intros H. apply in_flat_map in H as [b [_ H]].
  exact (quote_byte_no_space_plus b c H).
Qed.

Lemma str_join_snoc sep p parts x :
  str_join sep ((p :: parts) ++ [x]) = str_join sep (p :: parts) ++ sep ++ x.
Proof.
  revert p. induction parts as [|p' parts IH]; intros p; [reflexivity|].
  change (p ++ sep ++ str_join sep ((p' :: parts) ++ [x])
          = (p ++ sep ++ str_join sep (p' :: parts)) ++ sep ++ x).
  rewrite IH, <- !app_assoc. reflexivity.
Qed.

Lemma mapM_app {A B} (f : A -> result B) l1 l2 :
  mapM f (l1 ++ l2) = (x <- mapM f l1 ;; y <- mapM f l2 ;; Ok (x ++ y)).
Proof.
  induction l1 as [|a l1 IH]; simpl.
  - destruct (mapM f l2); reflexivity.
  - destruct (f a); simpl; [|reflexivity]. rewrite IH.
    destruct (mapM f l1); simpl; [|reflexivity].
    destruct (mapM f l2); reflexivity.
Qed.

Lemma build_filters_url_eq (query : json) :
  build_filters_url py_repr query
  = (v <- quote (py_str py_repr query) ;;
     Ok (u "https://search.wb.ru/exactmatch/ru/common/v18/search?appType=1&curr=rub&dest=-1257786&hide_dtype=13&lang=ru&filters=ffsubject&resultset=filters&spp=30&query="
         ++ v)).
Proof.
  unfold build_filters_url, urlencode.
  change (dict_set EXPAND_PARAMS (u "query") query)
    with (EXPAND_PARAMS ++ [(u "query", query)]).
  rewrite mapM_app.
  change (mapM _ EXPAND_PARAMS)
    with (Ok [u "appType=1"; u "curr=rub"; u "dest=-1257786"; u "hide_dtype=13";
              u "lang=ru"; u "filters=ffsubject"; u "resultset=filters";
              u "spp=30"]).
  cbn [bind mapM fst snd].
  change (quote (u "query")) with (Ok (u "query")). cbn [bind].
  destruct (quote (py_str py_repr query)) as [v|e]; cbn [bind]; [|reflexivity].
  rewrite str_join_snoc. f_equal.
Qed.

(** C6 (amended). For every query string that UTF-8 can encode,
    [build_filters_url] gives the fixed host and path, then the eight fixed
    parameters, then [query=] followed by the percent-encoding of the UTF-8
    bytes of the text.  A space is encoded as [%20] and a plus sign as
    [%2B]: the encoded text holds neither a space nor a plus sign. *)
Theorem build_filters_url_percent_encoding (q : pystr) (bs : list N) :
  utf8_encode q = Ok bs ->
  build_filters_url py_repr (JStr q)
  = Ok (u "https://search.wb.ru/exactmatch/ru/common/v18/search?appType=1&curr=rub&dest=-1257786&hide_dtype=13&lang=ru&filters=ffsubject&resultset=filters&spp=30&query="
        ++ flat_map quote_byte bs) /\
  quote_byte 32 = u "%20" /\ quote_byte 43 = u "%2B" /\
  (forall c, In c (flat_map quote_byte bs) -> c <> 32%N /\ c <> 43%N) /\
  (forall a b, q = a ++ [32%N] ++ b ->
     exists a' b', utf8_encode a = Ok a' /\ utf8_encode b = Ok b' /\
       flat_map quote_byte bs
       = flat_map quote_byte a' ++ u "%20" ++ flat_map quote_byte b').
Proof.
  intros Hq. split; [|split; [reflexivity|split; [reflexivity|split]]].
  - rewrite build_filters_url_eq. cbn [py_str]. unfold quote. rewrite Hq.
    reflexivity.
  - apply quoted_no_space_plus.
  - intros a b ->. rewrite !utf8_encode_app in Hq.
    destruct (utf8_encode a) as [a'|]; [|discriminate].
    destruct (utf8_encode b) as [b'|]; [|discriminate].
    injection Hq as <-. exists a', b'. split; [reflexivity|].
    split; [reflexivity|]. rewrite !flat_map_app. reflexivity.
Qed.

End Properties.

(** * Instances *)

Lemma capture_classifier_iff_witness :
  In (resource_type sample_menu_response) [u "xhr"; u "fetch"] /\
  resp_json sample_menu_response = Ok (JList sample_menu) /\
  on_response sample_menu_response None = Ok (Some (JList sample_menu)).
Proof.
  assert (H1 : In (resource_type sample_menu_response) [u "xhr"; u "fetch"])
    by (left; reflexivity).
  assert (H2 : resp_json sample_menu_response = Ok (JList sample_menu))
    by reflexivity.
  split; [exact H1|]. split; [exact H2|].
  destruct (capture_classifier_iff sample_menu_response (JList sample_menu) H1 H2)
    as [Hurl [Hbody [Hacc _]]].
  apply Hacc. split; [apply Hurl | apply Hbody]; vm_compute; reflexivity.
Defined.

Lemma select_leaves_exactly_witness :
  Forall catalog_node sample_menu /\
  select_leaves sample_repr sample_menu = Ok [sample_leaf].
Proof.
  assert (Hleaf : catalog_node sample_leaf).
  { constructor. intros c Hc. vm_compute in Hc. discriminate. }
  assert (Hmenu : Forall catalog_node sample_menu).
  { apply List.Forall_cons; [|constructor]. constructor. intros c Hc _.
    vm_compute in Hc. injection Hc as <-.
    exists [sample_leaf]. split; [reflexivity|].
    apply List.Forall_cons; [exact Hleaf | constructor]. }
  split; [exact Hmenu|].
  destruct (select_leaves_exactly sample_repr sample_menu Hmenu)
    as [leaves [out [_ [Hsel _]]]].
  rewrite Hsel. vm_compute in Hsel. injection Hsel as <-. reflexivity.
Defined.

Lemma leaf_info_errors_escape_witness :
  fetch_subjects_for_leaf sample_repr sample_int sample_loads sample_ctx
    (JObj [(u "id", JInt 2); (u "url", JStr (u "/catalog/x"))])
  = Raise (Exc KeyError (quoted (u "searchQuery"))).
Proof.
  refine (proj1 (proj2 (proj2 (proj2 (proj2
    (leaf_info_errors_escape sample_repr sample_int sample_loads sample_ctx _)))))
    _ (JInt 2) 2 eq_refl _ _ _); reflexivity.
Defined.

Lemma fetch_errors_are_recorded_witness :
  get_leaf_info sample_repr sample_int sample_leaf
    = Ok (2, u "L", u "https://www.wildberries.ru/catalog/x", JStr (u "q")) /\
  fetch_subjects_for_leaf sample_repr sample_int sample_loads sample_ctx_down
    sample_leaf
  = Ok {| leaf_id := 2; leaf_name := u "L";
          leaf_full_url := u "https://www.wildberries.ru/catalog/x";
          subjects := []; error := Some (u "Timeout 8000ms exceeded.") |}.
Proof.
  assert (H : get_leaf_info sample_repr sample_int sample_leaf
              = Ok (2, u "L", u "https://www.wildberries.ru/catalog/x",
                    JStr (u "q"))) by (vm_compute; reflexivity).
  split; [exact H|].
  destruct (fetch_errors_are_recorded sample_repr sample_int sample_loads
              sample_ctx_down sample_leaf _ _ _ _ H) as [r [Hr _]].
  rewrite Hr. vm_compute in Hr. injection Hr as <-. vm_compute. reflexivity.
Defined.

Lemma record_subjects_invariant_witness :
  fetch_subjects_for_leaf sample_repr sample_int sample_loads sample_ctx
    sample_leaf = Ok sample_record_foo /\
  subjects sample_record_foo
    = [JObj [ (u "id", JInt 9); (u "name", JStr (u "Foo")) ]] /\
  (error sample_record_foo = None /\
   Forall2 pair_of_item
     [JObj [ (u "id", JInt 9); (u "name", JStr (u "Foo"));
             (u "count", JInt 3) ]]
     (subjects sample_record_foo)) /\
  fetch_subjects_for_leaf sample_repr sample_int sample_loads sample_ctx_brand
    sample_leaf = Ok sample_record_none /\
  (error sample_record_none = None /\ subjects sample_record_none = []).
Proof.
  assert (H1 : fetch_subjects_for_leaf sample_repr sample_int sample_loads
                 sample_ctx sample_leaf = Ok sample_record_foo)
    by (vm_compute; reflexivity).
  assert (H2 : fetch_subjects_for_leaf sample_repr sample_int sample_loads
                 sample_ctx_brand sample_leaf = Ok sample_record_none)
    by (vm_compute; reflexivity).
  split; [exact H1|]. split; [reflexivity|]. split.
  - refine (proj2 (proj2 (proj2 (record_subjects_invariant sample_repr
              sample_int sample_loads sample_ctx sample_leaf _ H1))
              (JStr (u "q")) _ (sample_payload_of [sample_filter])
              [sample_filter] _ _ _ _ _) sample_filter _ _ _ _).
    + vm_compute. reflexivity.
    + vm_compute. reflexivity.
    + vm_compute. reflexivity.
    + reflexivity.
    + apply List.Forall_cons; [eexists; reflexivity | apply List.Forall_nil].
    + reflexivity.
    + reflexivity.
    + apply List.Forall_cons; [|apply List.Forall_nil].
      eexists. eexists. eexists. split; [reflexivity|]. split; reflexivity.
  - split; [exact H2|].
    refine (proj1 (proj2 (proj2 (record_subjects_invariant sample_repr
              sample_int sample_loads sample_ctx_brand sample_leaf _ H2))
              (JStr (u "q")) _ (sample_payload_of [sample_filter_brand])
              [sample_filter_brand] _ _ _ _ _) _).
    + vm_compute. reflexivity.
    + vm_compute. reflexivity.
    + vm_compute. reflexivity.
    + reflexivity.
    + apply List.Forall_cons; [eexists; reflexivity | apply List.Forall_nil].
    + reflexivity.
Defined.

Lemma one_record_per_leaf_witness :
  1 <= 24 /\
  Forall (eligible_leaf sample_repr sample_int) [sample_leaf; sample_leaf2] /\
  exists results,
    gather_leaves sample_repr sample_int sample_loads sample_ctx_down 24
      (fun _ => 1%nat) [sample_leaf; sample_leaf2] = Completed results /\
    length results = 2%nat.
Proof.
  assert (H1 : 1 <= 24) by lia.
  assert (H2 : Forall (eligible_leaf sample_repr sample_int) [sample_leaf; sample_leaf2]).
  { repeat apply List.Forall_cons; try apply List.Forall_nil;
      (split; [vm_compute; reflexivity
              | eexists; eexists; split; vm_compute; reflexivity]). }
  split; [exact H1|]. split; [exact H2|].
  destruct (one_record_per_leaf sample_repr sample_int sample_loads
              sample_ctx_down 24 (fun _ => 1%nat) _ H1 H2)
    as [results [Hres [Hlen _]]].
  exists results. split; [exact Hres | exact Hlen].
Defined.


Lemma fetch_json_text_fallback_witness :
  fetch_json sample_loads
    (fun _ _ _ => Ok (sample_text_response (BOM :: u " {}")))
    [] [] = Ok (JObj []).
Proof.
  destruct (fetch_json_text_fallback sample_loads
              (fun _ _ _ => Ok (sample_text_response (BOM :: u " {}")))
              [] [] _ _ eq_refl eq_refl) as [H _].
  rewrite H. reflexivity.
Defined.

Lemma build_filters_url_percent_encoding_witness :
  utf8_encode (u "a b") = Ok (u "a b") /\
  build_filters_url sample_repr (JStr (u "a b"))
  = Ok (u "https://search.wb.ru/exactmatch/ru/common/v18/search?appType=1&curr=rub&dest=-1257786&hide_dtype=13&lang=ru&filters=ffsubject&resultset=filters&spp=30&query=a%20b").
Proof.
  assert (H : utf8_encode (u "a b") = Ok (u "a b")) by reflexivity.
  split; [exact H|].
  destruct (build_filters_url_percent_encoding sample_repr _ _ H) as [Hurl _].
  rewrite Hurl. reflexivity.
Defined.

(** * Where the code departs from the specification *)

(** C6. The query [a b] is encoded as [a%20b], not as [a+b]; and a query
    holding a lone surrogate gives no URL at all. *)
Lemma space_is_not_encoded_as_plus :
  build_filters_url sample_repr (JStr (u "a b"))
  = Ok (u "https://search.wb.ru/exactmatch/ru/common/v18/search?appType=1&curr=rub&dest=-1257786&hide_dtype=13&lang=ru&filters=ffsubject&resultset=filters&spp=30&query=a%20b") /\
  build_filters_url sample_repr (JStr (u "a b"))
  <> Ok (u "https://search.wb.ru/exactmatch/ru/common/v18/search?appType=1&curr=rub&dest=-1257786&hide_dtype=13&lang=ru&filters=ffsubject&resultset=filters&spp=30&query=a+b") /\
  (exists e, build_filters_url sample_repr (JStr [55296%N]) = Raise e /\
             exc_cls e = UnicodeEncodeError).
Proof.
  split; [vm_compute; reflexivity|]. split.
  - vm_compute. discriminate.
  - eexists. split; [vm_compute; reflexivity | reflexivity].
Qed.

(** C8. A fetch that fails with an exception of empty text leaves a
    record whose error is the empty string, not null; yet [leaves_stats]
    counts that record as succeeded and [subjects_map] keeps its leaf,
    where a failure with a message is neither counted nor kept. *)
Theorem empty_error_counts_as_success :
  fetch_subjects_for_leaf sample_repr sample_int sample_loads
    sample_ctx_silent sample_leaf = Ok sample_record_empty_error /\
  error sample_record_empty_error <> None /\
  leaves_stats (JList [record_json sample_record_empty_error]) = Ok (1, 1) /\
  (m <- subjects_map sample_repr sample_int
          [record_json sample_record_empty_error] ;;
   Ok (m !! 2))
  = Ok (Some (JList [])) /\
  (forall rs,
     collect_subjects sample_repr sample_int sample_loads sample_menu
       sample_ctx_down 24 (fun _ => 0%nat) = Completed rs ->
     leaves_stats (JList (List.map record_json rs)) = Ok (1, 0) /\
     (m <- subjects_map sample_repr sample_int (List.map record_json rs) ;;
      Ok (m !! 2))
     = Ok None).
Proof.
  split; [vm_compute; reflexivity|]. split; [discriminate|].
  split; [vm_compute; reflexivity|]. split; [vm_compute; reflexivity|].
  intros rs H. vm_compute in H. injection H as <-.
  split; vm_compute; reflexivity.
Qed.

(** C9. Whitespace at the end of the text stays, and every leading
    byte-order mark goes, where the specification's text would lose the
    trailing space and keep the second mark; the probe shows the text
    [fetch_json] hands to the parser. *)
Lemma fallback_text_is_not_a_strip :
  fallback_text (u "{} ") = u "{} " /\
  spec_fallback_text (u "{} ") = u "{}" /\
  fallback_text ([BOM; BOM] ++ u "{}") = u "{}" /\
  spec_fallback_text ([BOM; BOM] ++ u "{}") = [BOM] ++ u "{}" /\
  fetch_json probe_loads (fun _ _ _ => Ok (sample_text_response (u "{} ")))
    [] []
  = Ok (JStr (u "{} ")).
Proof. repeat split; vm_compute; reflexivity. Qed.

(** * Two runs of the pipeline on the sample menu *)

(** The leaf's request answers with the subject [Foo]: one record without
    error, counted as succeeded, and the rows of the leaf and of its
    subject. *)
Example run_with_subject :
  collect_subjects sample_repr sample_int sample_loads sample_menu sample_ctx
    24 (fun _ => 0%nat)
  = Completed
      [ {| leaf_id := 2; leaf_name := u "L";
           leaf_full_url := u "https://www.wildberries.ru/catalog/x";
           subjects := [JObj [(u "id", JInt 9); (u "name", JStr (u "Foo"))]];
           error := None |} ] /\
  (forall rs,
     collect_subjects sample_repr sample_int sample_loads sample_menu sample_ctx
       24 (fun _ => 0%nat) = Completed rs ->
     leaves_stats (JList (List.map record_json rs)) = Ok (1, 1) /\
     (m <- subjects_map sample_repr sample_int (List.map record_json rs) ;;
      build_rows sample_repr sample_int [sample_path] m)
     = Ok [(2, u "L", 1); (9, u "Foo", 99)]).
Proof.
  split; [vm_compute; reflexivity|].
  intros rs H. vm_compute in H. injection H as <-.
  split; vm_compute; reflexivity.
Qed.

(** The leaf's request fails: one record with the error, none succeeded,
    and the row of the leaf alone. *)
Example run_with_failure :
  collect_subjects sample_repr sample_int sample_loads sample_menu
    sample_ctx_down 24 (fun _ => 0%nat)
  = Completed
      [ {| leaf_id := 2; leaf_name := u "L";
           leaf_full_url := u "https://www.wildberries.ru/catalog/x";
           subjects := [];
           error := Some (u "Timeout 8000ms exceeded.") |} ] /\
  (forall rs,
     collect_subjects sample_repr sample_int sample_loads sample_menu
       sample_ctx_down 24 (fun _ => 0%nat) = Completed rs ->
     leaves_stats (JList (List.map record_json rs)) = Ok (1, 0) /\
     (m <- subjects_map sample_repr sample_int (List.map record_json rs) ;;
      build_rows sample_repr sample_int [sample_path] m)
     = Ok [(2, u "L", 1)]).
Proof.
  split; [vm_compute; reflexivity|].
  intros rs H. vm_compute in H. injection H as <-.
  split; vm_compute; reflexivity.
Qed.

(** * Further properties of the code *)

Section MoreProperties.

Variable py_repr : json -> pystr.
Variable str_to_int : pystr -> option Z.
Variable json_loads : pystr -> result json.

(** ** The listener of [fetch_menu] *)

(** X1. The future is set at most once, and only menu responses are
    parsed.  Once the future holds a document, [on_response] returns it
    unchanged or raises what [resp.json()] raised, whatever the response;
    and for a response that is not an XHR/fetch request for a menu URL the
    body is not read at all: the future is returned as it is even when
    [resp.json()] would raise. *)
Theorem future_is_set_once (resp : response) (d : json) :
  (on_response resp (Some d) = Ok (Some d) \/
   exists e, resp_json resp = Raise e /\ on_response resp (Some d) = Raise e) /\
  (existsb (str_eqb (resource_type resp)) [u "xhr"; u "fetch"]
   && is_menu_url (resp_url resp) = false ->
   forall fut, on_response resp fut = Ok fut).
Proof.
  unfold on_response. split.
  - destruct (existsb _ _ && is_menu_url _); [|left; reflexivity].
    destruct (resp_json resp) as [data|e]; cbn [bind].
    + left. rewrite andb_false_r. reflexivity.
    + right. exists e. auto.
  - intros ->. reflexivity.
Qed.

(** ** Leaves once more *)

Lemma iter_leaves_loop_childless stack out :
  Forall (fun n => catalog_node n /\ children n = []) stack ->
  iter_leaves_loop stack out = Ok (out ++ rev stack).
Proof.
  revert out. induction stack as [|node st IH] using rev_ind; intros out H.
  - rewrite iter_leaves_loop_eq. simpl. rewrite app_nil_r. reflexivity.
  - apply Forall_app in H as [Hst Hnode].
    inversion Hnode as [|? ? [Hcat Hch] _]; subst.
    rewrite iter_leaves_loop_eq, (iter_leaves_body_catalog st node out Hcat), Hch.
    rewrite IH by exact Hst. rewrite rev_unit, <- app_assoc. reflexivity.
Qed.

(** X2. Selecting again changes nothing but the order.  On a forest of
    catalog nodes, the leaves [iter_leaves] returns are their own leaves,
    and the nodes [select_leaves] returns are selected again, when the
    function is run on its own result: each time the list comes back
    reversed, because the stack is emptied from its end. *)
Theorem select_leaves_again (menu : list json) :
  Forall catalog_node menu ->
  exists leaves out,
    iter_leaves menu = Ok leaves /\
    iter_leaves leaves = Ok (rev leaves) /\
    select_leaves py_repr menu = Ok out /\
    select_leaves py_repr out = Ok (rev out).
Proof.
  intros Hwf. destruct (iter_leaves_spec menu Hwf) as [leaves [Hit [Hcat Hin]]].
  assert (Hleaf : Forall (fun n => catalog_node n /\ children n = []) leaves).
  { apply List.Forall_forall. intros n Hn. split.
    - rewrite List.Forall_forall in Hcat. apply Hcat. exact Hn.
    - apply Hin in Hn as [_ Hl]. exact Hl. }
  exists leaves, (List.filter (eligible py_repr) leaves).
  split; [exact Hit|]. split.
  { unfold iter_leaves. rewrite (iter_leaves_loop_childless leaves [] Hleaf).
    reflexivity. }
  split.
  { unfold select_leaves. rewrite Hit. cbn [bind].
    apply select_leaves_loop_filter. exact Hcat. }
  assert (Hsel : Forall (fun n => catalog_node n /\ children n = [])
                   (List.filter (eligible py_repr) leaves)).
  { apply List.Forall_forall. intros n Hn. apply filter_In in Hn as [Hn _].
    rewrite List.Forall_forall in Hleaf. apply Hleaf. exact Hn. }
  unfold select_leaves, iter_leaves.
  rewrite (iter_leaves_loop_childless _ [] Hsel). cbn [bind app].
  rewrite select_leaves_loop_filter.
  - cbn [app]. f_equal. apply forallb_filter_id.
    apply forallb_forall. intros n Hn. apply in_rev in Hn.
    apply filter_In in Hn as [_ Hn]. exact Hn.
  - apply List.Forall_forall. intros n Hn. apply in_rev in Hn.
    rewrite List.Forall_forall in Hsel. apply Hsel. exact Hn.
Qed.

(** ** The descriptor of a leaf *)

Lemma lstrip_split s :
  exists pre, s = pre ++ lstrip s /\
    (forall c r, lstrip s = c :: r -> is_space c = false).
Proof.
  induction s as [|c s [pre [Hs Hhd]]]; simpl.
  - exists []. split; [reflexivity | discriminate].
  - destruct (is_space c) eqn:E.
    + exists (c :: pre). split; [simpl; congruence | exact Hhd].
    + exists []. split; [reflexivity|]. intros c' r [= <- <-]. exact E.
Qed.

Lemma strip_stripped s : stripped (strip s).
Proof.
  unfold strip.
  destruct (lstrip_split s) as [pre1 [_ Hhd1]].
  destruct (lstrip_split (rev (lstrip s))) as [pre2 [Hs2 Hhd2]].
  set (t := lstrip s) in *. set (y := lstrip (rev t)) in *.
  assert (Ht : t = rev y ++ rev pre2).
  { rewrite <- (rev_involutive t), Hs2, rev_app_distr. reflexivity. }
  split.
  - intros c r Hy. rewrite Hy in Ht. apply (Hhd1 c (r ++ rev pre2)). exact Ht.
  - intros r c Hy. apply (Hhd2 c (rev r)).
    rewrite <- (rev_involutive y), Hy, rev_unit. reflexivity.
Qed.

(** X3. What [get_leaf_info] returns.  The name and the full URL have no
    whitespace at either end; a URL that begins with a slash once stripped
    is resolved against the origin of the site, any other is kept; a
    missing name or url gives the empty string; and the search query is the
    node's value as it is, neither stripped nor converted. *)
Theorem get_leaf_info_descriptor (node : json) (id : Z) (name full_url : pystr)
    (q : json) :
  get_leaf_info py_repr str_to_int node = Ok (id, name, full_url, q) ->
  name = node_text py_repr node (u "name") /\
  stripped name /\ stripped full_url /\
  ((exists rest, node_text py_repr node (u "url") = u "/" ++ rest) ->
     full_url = u "https://www.wildberries.ru" ++ node_text py_repr node (u "url")) /\
  (~ (exists rest, node_text py_repr node (u "url") = u "/" ++ rest) ->
     full_url = node_text py_repr node (u "url")) /\
  (node_field node (u "name") = None -> name = []) /\
  (node_field node (u "url") = None -> full_url = []) /\
  node_field node (u "searchQuery") = Some q.
Proof.
  unfold get_leaf_info. intros H.
  apply bind_Ok in H as [idv [Hid H]]. apply bind_Ok in H as [id' [Hint H]].
  apply bind_Ok in H as [namev [Hname H]]. apply bind_Ok in H as [urlv [Hurl H]].
  apply bind_Ok in H as [q' [Hq H]]. apply Ok_inj in H.
  apply py_get_Ok in Hname, Hurl. apply py_getitem_Ok in Hq. subst namev urlv.
  change (strip (py_str py_repr (default (JStr []) (node_field node (u "name")))))
    with (node_text py_repr node (u "name")) in H.
  change (strip (py_str py_repr (default (JStr []) (node_field node (u "url")))))
    with (node_text py_repr node (u "url")) in H.
  assert (Hs : stripped (node_text py_repr node (u "url")))
    by apply strip_stripped.
  assert (Hnone : node_field node (u "url") = None ->
                  node_text py_repr node (u "url") = []).
  { intros Hn. unfold node_text. rewrite Hn. reflexivity. }
  remember (node_text py_repr node (u "url")) as url eqn:Hu in *. clear Hu.
  pose proof (f_equal (fun t => snd (fst (fst t))) H) as Hn.
  pose proof (f_equal (fun t => snd (fst t)) H) as Hfull.
  pose proof (f_equal snd H) as Hq'.
  cbn [fst snd] in Hn, Hfull, Hq'. subst q'. symmetry in Hn, Hfull. clear H.
  split; [exact Hn|]. split; [rewrite Hn; apply strip_stripped|].
  assert (Hname0 : node_field node (u "name") = None -> name = []).
  { intros Hno. rewrite Hn. unfold node_text. rewrite Hno. reflexivity. }
  destruct (startswith url (u "/")) eqn:E.
  - apply startswith_spec in E as [rest Hrest].
    split; [|split; [intros _; exact Hfull|]].
    + rewrite Hfull. split.
      * intros c r [= <- _]. reflexivity.
      * intros r c Hc. destruct Hs as [_ Hlast]. rewrite Hrest in Hc.
        destruct rest as [|x rest _] using rev_ind.
        -- rewrite app_nil_r in Hc.
           change (u "https://www.wildberries.ru" ++ u "/")
             with (u "https://www.wildberries.ru" ++ [47%N]) in Hc.
           apply app_inj_tail in Hc as [_ <-]. reflexivity.
        -- rewrite !app_assoc in Hc. apply app_inj_tail in Hc as [_ <-].
           apply (Hlast (u "/" ++ rest) x). rewrite Hrest, app_assoc. reflexivity.
    + split; [intros Hno; exfalso; apply Hno; eauto|].
      split; [exact Hname0|]. split; [|exact Hq].
      intros Hno. apply Hnone in Hno. rewrite Hno in Hrest. discriminate.
  - assert (Hnot : ~ exists rest, url = u "/" ++ rest).
    { intros Hex. apply startswith_spec in Hex. congruence. }
    split; [rewrite Hfull; exact Hs|]. split; [intros Hex; contradiction|].
    split; [intros _; exact Hfull|]. split; [exact Hname0|].
    split; [|exact Hq]. intros Hno. rewrite Hfull. apply Hnone. exact Hno.
Qed.

(** ** The characters of the search URL *)

(** Linear arithmetic with division and remainder by constants. *)
Ltac lia_div :=
  clear py_repr str_to_int json_loads;
  zify; Z.to_euclidean_division_equations; lia.

Lemma is_always_safe_spec b :
  is_always_safe b = true <->
  (65 <= b <= 90 \/ 97 <= b <= 122 \/ 48 <= b <= 57 \/
   b = 95 \/ b = 46 \/ b = 45 \/ b = 126)%N.
Proof.
  unfold is_always_safe.
  rewrite !orb_true_iff, !andb_true_iff, !N.leb_le, !N.eqb_eq. tauto.
Qed.

Lemma utf8_char_bytes c bs :
  utf8_char c = Some bs -> Forall (fun b => (b < 256)%N) bs.
Proof.
  unfold utf8_char.
  destruct (c <? 128)%N eqn:E1.
  { intros [= <-]. apply N.ltb_lt in E1.
    repeat apply List.Forall_cons; try apply List.Forall_nil; lia_div. }
  destruct (c <? 2048)%N eqn:E2.
  { intros [= <-]. apply N.ltb_lt in E2.
    repeat apply List.Forall_cons; try apply List.Forall_nil; lia_div. }
  destruct ((55296 <=? c) && (c <=? 57343))%N; [discriminate|].
  destruct (c <? 65536)%N eqn:E3.
  { intros [= <-]. apply N.ltb_lt in E3.
    repeat apply List.Forall_cons; try apply List.Forall_nil; lia_div. }
  destruct (c <? 1114112)%N eqn:E4; [|discriminate].
  intros [= <-]. apply N.ltb_lt in E4.
  repeat apply List.Forall_cons; try apply List.Forall_nil; lia_div.
Qed.

Lemma utf8_encode_bytes s bs :
  utf8_encode s = Ok bs -> Forall (fun b => (b < 256)%N) bs.
Proof.
  revert bs. induction s as [|c s IH]; intros bs; simpl.
  - intros [= <-]. constructor.
  - destruct (utf8_char c) as [x|] eqn:E; [|discriminate].
    intros H. apply bind_Ok in H as [rest [Hrest [= <-]]].
    apply Forall_app. split; [eapply utf8_char_bytes; exact E | auto].
Qed.

Lemma quote_byte_url_chars b :
  (b < 256)%N -> Forall (fun c => url_char c = true) (quote_byte b).
Proof.
  intros Hb. unfold quote_byte. destruct (is_always_safe b) eqn:E.
  - apply List.Forall_cons; [|apply List.Forall_nil].
    unfold url_char. rewrite E. reflexivity.
  - assert (Hhex : forall n, (n < 16)%N -> url_char (hex_digit n) = true).
    { intros n Hn. unfold url_char. apply orb_true_iff. left.
      apply is_always_safe_spec. unfold hex_digit.
      destruct (n <? 10)%N eqn:E10;
        [apply N.ltb_lt in E10 | apply N.ltb_ge in E10]; lia. }
    repeat apply List.Forall_cons; try apply List.Forall_nil;
      [reflexivity | apply Hhex; lia_div | apply Hhex; lia_div].
Qed.

Lemma quote_url_chars q s :
  quote q = Ok s -> Forall (fun c => url_char c = true) s.
Proof.
  unfold quote. intros H. apply bind_Ok in H as [bs [Hbs [= <-]]].
  apply utf8_encode_bytes in Hbs.
  induction Hbs as [|b bs Hb _ IH]; simpl; [constructor|].
  apply Forall_app. split; [apply quote_byte_url_chars; exact Hb | exact IH].
Qed.

Lemma count_occ_url_chars s c :
  Forall (fun x => url_char x = true) s -> url_char c = false ->
  count_occ N.eq_dec s c = 0%nat.
Proof.
  intros Hs Hc. apply count_occ_not_In. intros Hin.
  rewrite List.Forall_forall in Hs. rewrite (Hs c Hin) in Hc. discriminate.
Qed.

(** X4. The query text cannot change the shape of the URL.  Whatever the
    query, every character [quote] gives for it is a letter, a digit, one
    of [_.-~] or a percent sign; so the URL [build_filters_url] returns has
    one question mark, eight ampersands and nine equals signs, those of the
    fixed parameters and of [query=], and neither a hash sign nor a space. *)
Theorem build_filters_url_shape (query : json) (url : pystr) :
  build_filters_url py_repr query = Ok url ->
  exists v,
    quote (py_str py_repr query) = Ok v /\
    Forall (fun c => url_char c = true) v /\
    count_occ N.eq_dec url 63%N = 1%nat /\
    count_occ N.eq_dec url 38%N = 8%nat /\
    count_occ N.eq_dec url 61%N = 9%nat /\
    count_occ N.eq_dec url 35%N = 0%nat /\
    count_occ N.eq_dec url 32%N = 0%nat.
Proof.
  rewrite build_filters_url_eq. intros H.
  apply bind_Ok in H as [v [Hv H]]. apply Ok_inj in H. subst url.
  exists v. split; [exact Hv|].
  pose proof (quote_url_chars _ _ Hv) as Hchars. split; [exact Hchars|].
  rewrite !count_occ_app.
  rewrite !(count_occ_url_chars v) by (exact Hchars || reflexivity).
  repeat split; vm_compute; reflexivity.
Qed.

Lemma hex_digit_inj m n : hex_digit m = hex_digit n -> m = n.
Proof.
  unfold hex_digit.
  destruct (m <? 10)%N eqn:Em; destruct (n <? 10)%N eqn:En;
    try apply N.ltb_lt in Em; try apply N.ltb_ge in Em;
    try apply N.ltb_lt in En; try apply N.ltb_ge in En; lia.
Qed.

Lemma quote_byte_prefix x y a b :
  quote_byte x ++ a = quote_byte y ++ b -> x = y /\ a = b.
Proof.
  unfold quote_byte.
  destruct (is_always_safe x) eqn:Ex; destruct (is_always_safe y) eqn:Ey;
    cbn [app]; intros H.
  - injection H as -> ->. auto.
  - injection H as -> _. discriminate.
  - injection H as <- _. discriminate.
  - injection H as H1 H2 ->. split; [|reflexivity].
    apply hex_digit_inj in H1, H2. lia_div.
Qed.

Lemma quote_bytes_inj a b :
  flat_map quote_byte a = flat_map quote_byte b -> a = b.
Proof.
  revert b. induction a as [|x a IH]; intros [|y b]; cbn [flat_map]; intros H.
  - reflexivity.
  - exfalso. unfold quote_byte in H. destruct (is_always_safe y); discriminate.
  - exfalso. unfold quote_byte in H. destruct (is_always_safe x); discriminate.
  - apply quote_byte_prefix in H as [-> H]. f_equal. apply IH. exact H.
Qed.

Lemma utf8_char_prefix c d x y a b :
  utf8_char c = Some x -> utf8_char d = Some y -> x ++ a = y ++ b ->
  c = d /\ a = b.
Proof.
  unfold utf8_char. intros Hc Hd.
  destruct (c <? 128)%N eqn:C1; [apply N.ltb_lt in C1 | apply N.ltb_ge in C1];
  [|destruct (c <? 2048)%N eqn:C2;
     [apply N.ltb_lt in C2 | apply N.ltb_ge in C2];
   [|destruct ((55296 <=? c) && (c <=? 57343))%N; [discriminate|];
     destruct (c <? 65536)%N eqn:C3;
       [apply N.ltb_lt in C3 | apply N.ltb_ge in C3];
     [|destruct (c <? 1114112)%N eqn:C4;
        [apply N.ltb_lt in C4 | discriminate]]]];
  injection Hc as <-;
  (destruct (d <? 128)%N eqn:D1; [apply N.ltb_lt in D1 | apply N.ltb_ge in D1];
   [|destruct (d <? 2048)%N eqn:D2;
      [apply N.ltb_lt in D2 | apply N.ltb_ge in D2];
    [|destruct ((55296 <=? d) && (d <=? 57343))%N; [discriminate|];
      destruct (d <? 65536)%N eqn:D3;
        [apply N.ltb_lt in D3 | apply N.ltb_ge in D3];
      [|destruct (d <? 1114112)%N eqn:D4;
         [apply N.ltb_lt in D4 | discriminate]]]]);
  injection Hd as <-; cbn [app]; intros H;
  repeat match goal with
         | H : _ :: _ = _ :: _ |- _ =>
             let H1 := fresh "Hb" in injection H as H1 H
         end;
  try (exfalso; lia_div);
  (split; [lia_div | assumption]).
Qed.

Lemma utf8_encode_inj s t bs :
  utf8_encode s = Ok bs -> utf8_encode t = Ok bs -> s = t.
Proof.
  revert t bs. induction s as [|c s IH]; intros [|d t] bs; simpl.
  - reflexivity.
  - intros [= <-]. destruct (utf8_char d) as [y|] eqn:Ed; [|discriminate].
    intros H. apply bind_Ok in H as [r [_ H]]. apply Ok_inj in H. exfalso.
    unfold utf8_char in Ed.
    repeat match type of Ed with
           | (if ?b then _ else _) = _ => destruct b
           end; try discriminate; injection Ed as <-; discriminate.
  - destruct (utf8_char c) as [x|] eqn:Ec; [|discriminate].
    intros H [= <-]. apply bind_Ok in H as [r [_ H]]. apply Ok_inj in H.
    exfalso. unfold utf8_char in Ec.
    repeat match type of Ec with
           | (if ?b then _ else _) = _ => destruct b
           end; try discriminate; injection Ec as <-; discriminate.
  - destruct (utf8_char c) as [x|] eqn:Ec; [|discriminate].
    destruct (utf8_char d) as [y|] eqn:Ed; [|discriminate].
    intros H1 H2. apply bind_Ok in H1 as [r1 [Hr1 H1]].
    apply bind_Ok in H2 as [r2 [Hr2 H2]]. apply Ok_inj in H1, H2.
    rewrite <- H2 in H1.
    destruct (utf8_char_prefix c d x y r1 r2 Ec Ed H1) as [-> ->].
    f_equal. eapply IH; eassumption.
Qed.

(** X5. Different queries give different URLs: the percent-encoding of
    the UTF-8 bytes loses nothing, so when [build_filters_url] returns the
    same URL for two query strings, the two strings are equal. *)
Theorem build_filters_url_injective (q1 q2 url : pystr) :
  build_filters_url py_repr (JStr q1) = Ok url ->
  build_filters_url py_repr (JStr q2) = Ok url ->
  q1 = q2.
Proof.
  rewrite !build_filters_url_eq. cbn [py_str]. unfold quote. intros H1 H2.
  apply bind_Ok in H1 as [v1 [Hv1 H1]]. apply bind_Ok in H2 as [v2 [Hv2 H2]].
  apply bind_Ok in Hv1 as [b1 [Hb1 Hv1]]. apply bind_Ok in Hv2 as [b2 [Hb2 Hv2]].
  apply Ok_inj in H1, H2, Hv1, Hv2. subst url v1 v2.
  apply app_inv_head in H2. apply quote_bytes_inj in H2. subst b2.
  eapply utf8_encode_inj; eassumption.
Qed.

Lemma utf8_char_None c :
  utf8_char c = None <-> is_surrogate c \/ (1114112 <= c)%N.
Proof.
  unfold utf8_char, is_surrogate.
  destruct (c <? 128)%N eqn:C1; [apply N.ltb_lt in C1 | apply N.ltb_ge in C1].
  { split; [discriminate | lia]. }
  destruct (c <? 2048)%N eqn:C2; [apply N.ltb_lt in C2 | apply N.ltb_ge in C2].
  { split; [discriminate | lia]. }
  destruct ((55296 <=? c) && (c <=? 57343))%N eqn:S.
  { apply andb_true_iff in S as [S1 S2]. apply N.leb_le in S1, S2.
    split; [left; lia | reflexivity]. }
  apply andb_false_iff in S.
  destruct (c <? 65536)%N eqn:C3; [apply N.ltb_lt in C3 | apply N.ltb_ge in C3].
  { split; [discriminate|]. rewrite !N.leb_gt in S. lia. }
  destruct (c <? 1114112)%N eqn:C4; [apply N.ltb_lt in C4 | apply N.ltb_ge in C4].
  { split; [discriminate|]. rewrite !N.leb_gt in S. lia. }
  split; [right; exact C4 | reflexivity].
Qed.

Lemma utf8_encode_Raise s :
  (exists c, In c s /\ utf8_char c = None) ->
  exists e, utf8_encode s = Raise e /\ exc_cls e = UnicodeEncodeError.
Proof.
  induction s as [|c s IH]; intros [x [Hin Hx]]; [contradiction|]. simpl.
  destruct (utf8_char c) as [bs|] eqn:E; [|eauto].
  destruct Hin as [->|Hin]; [congruence|].
  destruct IH as [e [He Hc]]; [eauto|]. rewrite He. eauto.
Qed.

Lemma utf8_encode_Ok s :
  Forall (fun c => utf8_char c <> None) s -> exists bs, utf8_encode s = Ok bs.
Proof.
  induction 1 as [|c s Hc _ [bs IH]]; simpl; [eauto|].
  destruct (utf8_char c); [|contradiction]. rewrite IH. simpl. eauto.
Qed.

(** X6. When the URL cannot be built.  For a query string of code
    points, [build_filters_url] returns a URL when the string holds no
    surrogate, and raises [UnicodeEncodeError] as soon as it holds one. *)
Theorem build_filters_url_surrogates (q : pystr) :
  Forall (fun c => (c < 1114112)%N) q ->
  (Forall (fun c => ~ is_surrogate c) q ->
   exists url, build_filters_url py_repr (JStr q) = Ok url) /\
  ((exists c, In c q /\ is_surrogate c) ->
   exists e, build_filters_url py_repr (JStr q) = Raise e /\
             exc_cls e = UnicodeEncodeError).
Proof.
  intros Hcp. rewrite build_filters_url_eq. cbn [py_str]. unfold quote. split.
  - intros Hs. destruct (utf8_encode_Ok q) as [bs Hbs].
    + apply List.Forall_forall. intros c Hc Hnone.
      rewrite List.Forall_forall in Hcp, Hs.
      apply utf8_char_None in Hnone as [H|H]; [exact (Hs c Hc H)|].
      specialize (Hcp c Hc). lia.
    + rewrite Hbs. cbn [bind]. eauto.
  - intros [c [Hc Hs]]. destruct (utf8_encode_Raise q) as [e [He Hcls]].
    + exists c. split; [exact Hc|]. apply utf8_char_None. auto.
    + rewrite He. cbn [bind]. eauto.
Qed.

(** ** The extraction of subjects *)

(** X7. The scan stops at the first [xsubject] filter: the filters after
    it are never looked at, whatever they are.  Two responses whose filter
    lists agree up to and including a filter with the key ["xsubject"] give
    the same result, subjects or exception. *)
Theorem extract_subjects_stops_at_first (d1 d2 f : json) (pre post1 post2 : list json) :
  has_key_xsubject f = true ->
  filters_of d1 = Some (pre ++ f :: post1) ->
  filters_of d2 = Some (pre ++ f :: post2) ->
  extract_subjects d1 = extract_subjects d2.
Proof.
  intros Hf H1 H2.
  rewrite (extract_subjects_filters _ _ H1), (extract_subjects_filters _ _ H2).
  destruct (has_key_xsubject_get f Hf) as [kvs [-> Hloop]]. clear H1 H2.
  induction pre as [|g pre IH]; cbn [app].
  - rewrite !Hloop. reflexivity.
  - cbn [extract_subjects_loop].
    destruct (py_get g (u "key") JNull) as [k|e]; cbn [bind]; [|reflexivity].
    destruct (json_eq_str k (u "xsubject")); [reflexivity | exact IH].
Qed.

Lemma mapM_subject_of_item_Raise items it :
  In it items -> (forall s, ~ pair_of_item it s) ->
  exists e, mapM subject_of_item items = Raise e.
Proof.
  intros Hin Hbad. induction items as [|x items IH]; [contradiction|]. simpl.
  destruct (subject_of_item x) as [s|e] eqn:Ex; cbn [bind]; [|eauto].
  destruct Hin as [->|Hin].
  - exfalso. apply (Hbad s). unfold subject_of_item in Ex.
    apply bind_Ok in Ex as [i [Hi Ex]]. apply bind_Ok in Ex as [n [Hn Ex]].
    apply Ok_inj in Ex. exists i, n. auto using py_getitem_Ok.
  - destruct (IH Hin) as [e He]. rewrite He. cbn [bind]. eauto.
Qed.

(** X8. On a well-formed response the subjects are returned.  When
    [data.filters] is a list of dicts: without a filter of key ["xsubject"]
    the result is the empty list; with one, whose items are a list of dicts
    that all have [id] and [name], the result is the list of their
    [{id, name}] pairs, one per item and in order. *)
Theorem extract_subjects_complete (data : json) (filters : list json) :
  filters_of data = Some filters ->
  Forall is_dict filters ->
  (List.find has_key_xsubject filters = None -> extract_subjects data = Ok []) /\
  (forall f items,
     List.find has_key_xsubject filters = Some f ->
     default (JList []) (node_field f (u "items")) = JList items ->
     Forall (fun it => exists s, pair_of_item it s) items ->
     exists subjs, extract_subjects data = Ok subjs /\
                   Forall2 pair_of_item items subjs /\
                   length subjs = length items).
Proof.
  intros Hf Hd. rewrite (extract_subjects_filters _ _ Hf).
  rewrite (extract_subjects_loop_find _ Hd). split.
  - intros ->. reflexivity.
  - intros f items -> -> Hitems. cbn [py_iter bind].
    destruct (mapM_subject_of_item_Ok items Hitems) as [subjs Hs].
    exists subjs. split; [exact Hs|].
    pose proof (mapM_subject_of_item _ _ Hs) as H2. split; [exact H2|].
    symmetry. eapply Forall2_length. exact H2.
Qed.

(** X9. One bad item loses all the subjects.  When the first [xsubject]
    filter of a well-formed filter list holds an item that is not a dict
    with both [id] and [name], [extract_subjects] raises: no subject of the
    other items is returned. *)
Theorem extract_subjects_all_or_nothing (data : json) (filters : list json)
    (f : json) (items : list json) (it : json) :
  filters_of data = Some filters ->
  Forall is_dict filters ->
  List.find has_key_xsubject filters = Some f ->
  default (JList []) (node_field f (u "items")) = JList items ->
  In it items ->
  (forall s, ~ pair_of_item it s) ->
  exists e, extract_subjects data = Raise e.
Proof.
  intros Hf Hd Hfind Hitems Hin Hbad.
  rewrite (extract_subjects_filters _ _ Hf), (extract_subjects_loop_find _ Hd).
  rewrite Hfind, Hitems. cbn [py_iter bind].
  apply (mapM_subject_of_item_Raise items it Hin Hbad).
Qed.

(** ** The orchestrator *)

Lemma as_completed_loop_crash ctx cap sched tasks :
  (0 < cap)%nat ->
  forall waiting in_flight results,
    (length waiting + length in_flight)%nat = tasks ->
    (exists n e, In n (in_flight ++ waiting) /\
       fetch_subjects_for_leaf py_repr str_to_int json_loads ctx n = Raise e) ->
    exists e,
      as_completed_loop py_repr str_to_int json_loads ctx cap sched tasks
        waiting in_flight results = Crashed e.
Proof.
  intros Hcap. induction tasks as [|tasks IH];
    intros waiting in_flight results Hlen [n [e [Hin He]]].
  - destruct waiting; [|discriminate]. destruct in_flight; [|discriminate].
    contradiction.
  - cbn [as_completed_loop].
    destruct (fill_slots cap waiting in_flight) as [w f] eqn:Hfill.
    pose proof (fill_slots_app _ _ _ _ _ Hfill) as Happ.
    assert (Hf : f <> []).
    { intros ->. destruct (fill_slots_nonempty _ _ _ _ _ Hcap Hfill eq_refl)
        as [-> ->]. discriminate. }
    assert (Hi : (sched (S tasks) mod length f < length f)%nat).
    { apply Nat.mod_upper_bound. destruct f; [contradiction | discriminate]. }
    destruct (lookup_lt_is_Some_2 _ _ Hi) as [node Hnode]. rewrite Hnode.
    destruct (fetch_subjects_for_leaf py_repr str_to_int json_loads ctx node)
      as [r|e'] eqn:Hr; [|eauto].
    pose proof (delete_Permutation _ _ _ Hnode) as Hperm.
    apply IH.
    + assert (Hl : length (f ++ w) = length (in_flight ++ waiting))
        by (rewrite Happ; reflexivity).
      apply Permutation_length in Hperm. rewrite !length_app in Hl.
      simpl in Hperm. lia.
    + exists n, e. split; [|exact He].
      rewrite <- Happ in Hin. apply in_app_iff in Hin as [Hin|Hin];
        apply in_app_iff; [|right; exact Hin].
      apply list_elem_of_In in Hin. rewrite Hperm in Hin.
      apply list_elem_of_In in Hin. destruct Hin as [<-|Hin]; [congruence|].
      left. exact Hin.
Qed.

(** X10. One malformed leaf aborts the crawl.  With a cap of at least
    one, as soon as one of the leaves makes [fetch_subjects_for_leaf] raise
    (its descriptor cannot be read), [collect_subjects] ends with an
    exception for every order in which the requests finish: no list of
    records is produced, not even for the leaves that were fetched. *)
Theorem one_bad_leaf_aborts (ctx : http_client) (concurrency : Z)
    (sched : nat -> nat) (leaves : list json) (n : json) (e : exc) :
  1 <= concurrency ->
  In n leaves ->
  fetch_subjects_for_leaf py_repr str_to_int json_loads ctx n = Raise e ->
  (exists e', gather_leaves py_repr str_to_int json_loads ctx concurrency sched
                leaves = Crashed e') /\
  (forall menu, select_leaves py_repr menu = Ok leaves ->
     exists e', collect_subjects py_repr str_to_int json_loads menu ctx
                  concurrency sched = Crashed e').
Proof.
  intros Hc Hin He.
  assert (H : exists e', gather_leaves py_repr str_to_int json_loads ctx
                           concurrency sched leaves = Crashed e').
  { unfold gather_leaves.
    destruct (concurrency <? 0) eqn:E; [apply Z.ltb_lt in E; lia|].
    apply as_completed_loop_crash; [lia | simpl; lia |].
    exists n, e. split; [exact Hin | exact He]. }
  split; [exact H|]. intros menu Hsel. unfold collect_subjects.
  rewrite Hsel. exact H.
Qed.

Lemma as_completed_loop_serial ctx sched waiting results :
  as_completed_loop py_repr str_to_int json_loads ctx 1 sched
    (length waiting) waiting [] results
  = match mapM (fetch_subjects_for_leaf py_repr str_to_int json_loads ctx)
            waiting with
    | Ok rs => Completed (results ++ rs)
    | Raise e => Crashed e
    end.
Proof.
  revert results. induction waiting as [|n waiting IH]; intros results.
  - simpl. rewrite app_nil_r. reflexivity.
  - cbn [length as_completed_loop fill_slots Nat.ltb Nat.leb app].
    assert (Hfill : fill_slots 1 waiting [n] = (waiting, [n]))
      by (destruct waiting; reflexivity).
    rewrite Hfill. cbn [length]. rewrite Nat.mod_1_r.
    cbn [lookup list_lookup mapM].
    destruct (fetch_subjects_for_leaf py_repr str_to_int json_loads ctx n)
      as [r|e]; cbn [bind]; [|reflexivity].
    cbn [delete list_delete]. rewrite IH.
    destruct (mapM _ waiting); cbn [bind]; [|reflexivity].
    rewrite <- app_assoc. reflexivity.
Qed.

(** X11. With a concurrency of one the crawl is sequential.  Whatever the
    order in which requests could finish, the records come in the order of
    the leaves, and the crawl ends with the exception of the first leaf, in
    that order, whose descriptor cannot be read. *)
Theorem concurrency_one_keeps_order (ctx : http_client) (sched : nat -> nat)
    (leaves : list json) :
  gather_leaves py_repr str_to_int json_loads ctx 1 sched leaves
  = match mapM (fetch_subjects_for_leaf py_repr str_to_int json_loads ctx)
            leaves with
    | Ok rs => Completed rs
    | Raise e => Crashed e
    end.
Proof.
  unfold gather_leaves. cbn [Z.ltb Z.compare Z.to_nat Pos.to_nat Pos.iter_op].
  apply (as_completed_loop_serial ctx sched leaves []).
Qed.

Lemma fill_slots_zero waiting in_flight :
  fill_slots 0 waiting in_flight = (waiting, in_flight).
Proof. destruct waiting; reflexivity. Qed.

(** X12. The caps that do not work.  A negative concurrency makes the
    semaphore refuse its initial value, with or without leaves; a
    concurrency of zero lets no task start, so with at least one leaf the
    loop waits for ever; without leaves any other cap gives the empty
    list. *)
Theorem concurrency_edge_cases (ctx : http_client) (sched : nat -> nat)
    (concurrency : Z) (leaves : list json) :
  (concurrency < 0 ->
   exists e, gather_leaves py_repr str_to_int json_loads ctx concurrency sched
               leaves = Crashed e /\ exc_cls e = ValueError) /\
  (leaves <> [] ->
   gather_leaves py_repr str_to_int json_loads ctx 0 sched leaves = Deadlock) /\
  (0 <= concurrency ->
   gather_leaves py_repr str_to_int json_loads ctx concurrency sched []
   = Completed []).
Proof.
  unfold gather_leaves. split; [|split].
  - intros H. apply Z.ltb_lt in H. rewrite H. eauto.
  - intros H. destruct leaves as [|n leaves]; [contradiction|].
    cbn [Z.ltb Z.compare Z.to_nat length as_completed_loop].
    rewrite fill_slots_zero. reflexivity.
  - intros H. apply Z.ltb_ge in H. rewrite H. reflexivity.
Qed.

(** ** The order of the leaves *)

Lemma iter_leaves_body_app a b out :
  b <> [] ->
  iter_leaves_body (a ++ b) out =
  match iter_leaves_body b out with
  | LoopNext s o => LoopNext (a ++ s) o
  | other => other
  end.
Proof.
  destruct b as [|node st _] using rev_ind; [congruence|]. intros _.
  unfold iter_leaves_body. rewrite app_assoc, !list_pop_snoc.
  destruct (py_get node (u "childs") JNull) as [c|e]; [|reflexivity].
  cbv zeta. destruct (truthy (py_or c (JList []))).
  - destruct (py_iter (py_or c (JList []))); [|reflexivity].
    rewrite app_assoc. reflexivity.
  - reflexivity.
Qed.

Lemma iter_leaves_body_out s pre out :
  iter_leaves_body s (pre ++ out) =
  match iter_leaves_body s out with
  | LoopNext s' o => LoopNext s' (pre ++ o)
  | other => other
  end.
Proof.
  unfold iter_leaves_body. destruct (list_pop s) as [[st node]|]; [|reflexivity].
  destruct (py_get node (u "childs") JNull) as [c|e]; [|reflexivity].
  cbv zeta. destruct (truthy (py_or c (JList []))).
  - destruct (py_iter (py_or c (JList []))); reflexivity.
  - rewrite app_assoc. reflexivity.
Qed.

Lemma iter_leaves_loop_app a b out :
  iter_leaves_loop (a ++ b) out
  = (out' <- iter_leaves_loop b out ;; iter_leaves_loop a out').
Proof.
  revert a. revert b out.
  apply (iter_leaves_loop_elim (fun b out r =>
    forall a, iter_leaves_loop (a ++ b) out
              = (out' <- r ;; iter_leaves_loop a out'))).
  - intros b out e _ a.
    destruct b as [|node st _] using rev_ind.
    + rewrite app_nil_r. reflexivity.
    + unfold iter_leaves_body in e. rewrite list_pop_snoc in e.
      destruct (py_get node (u "childs") JNull); [|discriminate].
      cbv zeta in e. destruct (truthy _); [|discriminate].
      destruct (py_iter _); discriminate.
  - intros b out e e1 _ a.
    assert (Hb : b <> []) by (intros ->; discriminate).
    rewrite iter_leaves_loop_eq, iter_leaves_body_app, e1 by exact Hb.
    reflexivity.
  - intros b out stack' out' Hstep IH _ a.
    assert (Hb : b <> []) by (intros ->; discriminate).
    rewrite iter_leaves_loop_eq, iter_leaves_body_app, Hstep by exact Hb.
    apply IH.
Qed.

Lemma iter_leaves_loop_out s out :
  iter_leaves_loop s out = (l <- iter_leaves_loop s [] ;; Ok (out ++ l)).
Proof.
  rewrite <- (app_nil_r out) at 1. generalize (@nil json) as o. revert out.
  intros out o. revert out. revert s o.
  apply (iter_leaves_loop_elim (fun s o r =>
    forall out, iter_leaves_loop s (out ++ o) = (l <- r ;; Ok (out ++ l)))).
  - intros s o e _ out.
    rewrite iter_leaves_loop_eq, iter_leaves_body_out, e. reflexivity.
  - intros s o e e1 _ out.
    rewrite iter_leaves_loop_eq, iter_leaves_body_out, e1. reflexivity.
  - intros s o stack' out' Hstep IH _ out.
    rewrite iter_leaves_loop_eq, iter_leaves_body_out, Hstep. apply IH.
Qed.

(** X13. The order of the leaves.  [iter_leaves] empties its stack from the
    end: on two forests put one after the other it gives the leaves of the
    second, then those of the first, and raises when either raises; a
    catalog node alone gives itself when it has no children and the leaves
    of its children otherwise. *)
Theorem iter_leaves_order (a b : list json) (n : json) :
  iter_leaves (a ++ b)
  = (lb <- iter_leaves b ;; la <- iter_leaves a ;; Ok (lb ++ la)) /\
  (catalog_node n ->
   iter_leaves [n]
   = match children n with [] => Ok [n] | cs => iter_leaves cs end).
Proof.
  unfold iter_leaves. split.
  - rewrite iter_leaves_loop_app.
    destruct (iter_leaves_loop b []) as [lb|e]; cbn [bind]; [|reflexivity].
    apply iter_leaves_loop_out.
  - intros Hn. rewrite iter_leaves_loop_eq.
    change [n] with ([] ++ [n]).
    rewrite (iter_leaves_body_catalog [] n [] Hn).
    destruct (children n) as [|c cs]; [|reflexivity].
    rewrite iter_leaves_loop_eq. reflexivity.
Qed.

Lemma iter_leaves_loop_dicts stack out res :
  iter_leaves_loop stack out = Ok res ->
  Forall is_dict out -> Forall is_dict res.
Proof.
  revert res. revert stack out.
  apply (iter_leaves_loop_elim (fun stack out r =>
    forall res, r = Ok res -> Forall is_dict out -> Forall is_dict res)).
  - intros stack out _ _ res [= <-] H. exact H.
  - intros stack out e _ _ res [= ].
  - intros stack out stack' out' Hstep IH _ res Hr Hout.
    apply (IH res Hr). clear IH Hr.
    unfold iter_leaves_body in Hstep.
    destruct (list_pop stack) as [[st node]|]; [|discriminate].
    destruct node; try discriminate. cbn [py_get] in Hstep. cbv zeta in Hstep.
    destruct (truthy _).
    + destruct (py_iter _); [|discriminate]. injection Hstep as _ <-. exact Hout.
    + injection Hstep as _ <-. apply Forall_app. split; [exact Hout|].
      apply List.Forall_cons; [eexists; reflexivity | apply List.Forall_nil].
Qed.

Lemma select_leaves_loop_dicts nodes out :
  Forall is_dict nodes ->
  select_leaves_loop py_repr nodes out
  = Ok (out ++ List.filter (eligible py_repr) nodes).
Proof.
  revert out. induction nodes as [|node rest IH]; intros out Hd.
  - simpl. rewrite app_nil_r. reflexivity.
  - inversion Hd as [|? ? [kvs ->] Hrest]; subst.
    cbn [select_leaves_loop List.filter]. unfold eligible at 1.
    cbn [py_get bind node_field].
    destruct (startswith (py_str py_repr (default (JStr []) (dict_lookup kvs (u "url"))))
                (u "/catalog")); cbn [andb].
    + destruct (truthy (default JNull (dict_lookup kvs (u "searchQuery"))));
        rewrite IH by exact Hrest; [|reflexivity].
      rewrite <- app_assoc. reflexivity.
    + apply IH. exact Hrest.
Qed.

(** X14. [select_leaves] fails only where [iter_leaves] fails.  Whatever the
    parsed menu holds, when [iter_leaves] returns, every node it returns is
    a dict, so the second loop cannot raise: [select_leaves] returns the
    leaves that pass its test, in order; and when [iter_leaves] raises,
    [select_leaves] raises the same exception. *)
Theorem select_leaves_total_after_iter (menu : list json) :
  (forall leaves, iter_leaves menu = Ok leaves ->
     Forall is_dict leaves /\
     select_leaves py_repr menu = Ok (List.filter (eligible py_repr) leaves)) /\
  (forall e, iter_leaves menu = Raise e -> select_leaves py_repr menu = Raise e).
Proof.
  split.
  - intros leaves H.
    assert (Hd : Forall is_dict leaves).
    { apply (iter_leaves_loop_dicts menu [] leaves H). apply List.Forall_nil. }
    split; [exact Hd|]. unfold select_leaves. rewrite H. cbn [bind].
    apply (select_leaves_loop_dicts leaves [] Hd).
  - intros e H. unfold select_leaves. rewrite H. reflexivity.
Qed.

(** ** The statistics and the subject map, on any parsed file *)

Lemma count_ok_dicts data :
  Forall is_dict data ->
  count_ok data = Ok (Z.of_nat (length (List.filter record_ok data))).
Proof.
  induction data as [|r data IH]; intros H; [reflexivity|].
  inversion H as [|? ? [kvs ->] Hrest]; subst.
  cbn [count_ok py_get bind List.filter]. rewrite (IH Hrest). cbn [bind].
  change (record_ok (JObj kvs))
    with (negb (truthy (default JNull (dict_lookup kvs (u "error"))))).
  destruct (truthy (default JNull (dict_lookup kvs (u "error"))));
    cbn [negb length]; f_equal; clear; lia.
Qed.

Lemma count_ok_not_dict data r :
  In r data -> ~ is_dict r ->
  exists e, count_ok data = Raise e /\ exc_cls e = AttributeError.
Proof.
  induction data as [|x data IH]; intros Hin Hr; [contradiction|].
  cbn [count_ok].
  destruct x; try (eexists; split; reflexivity).
  destruct Hin as [<-|Hin]; [exfalso; apply Hr; eexists; reflexivity|].
  destruct (IH Hin Hr) as [e [He Hc]]. cbn [py_get bind]. rewrite He.
  exists e. split; [reflexivity | exact Hc].
Qed.

(** X15. The statistics of any parsed list.  When every element of the
    list is a dict, [leaves_stats] returns the length of the list and the
    number of elements whose [error] is missing or falsy, which lies
    between zero and the length; when some element is not a dict, it
    raises an [AttributeError] and gives no statistics. *)
Theorem leaves_stats_counts (data : list json) :
  (Forall is_dict data ->
   exists ok,
     leaves_stats (JList data) = Ok (Z.of_nat (length data), ok) /\
     ok = Z.of_nat (length (List.filter record_ok data)) /\
     0 <= ok <= Z.of_nat (length data)) /\
  (forall r, In r data -> ~ is_dict r ->
   exists e, leaves_stats (JList data) = Raise e /\
             exc_cls e = AttributeError).
Proof.
  unfold leaves_stats. cbn [py_len py_iter bind]. split.
  - intros H. rewrite (count_ok_dicts data H). cbn [bind].
    eexists. split; [reflexivity|]. split; [reflexivity|].
    pose proof (filter_length_le record_ok data). clear py_repr str_to_int json_loads. lia.
  - intros r Hin Hr. destruct (count_ok_not_dict data r Hin Hr) as [e [He Hc]].
    rewrite He. exists e. split; [reflexivity | exact Hc].
Qed.

Lemma subjects_map_loop_filter items res :
  subjects_map_loop py_repr str_to_int items res
  = subjects_map_loop py_repr str_to_int (List.filter record_ok items) res.
Proof.
  revert res. induction items as [|r items IH]; intros res; [reflexivity|].
  cbn [List.filter].
  destruct r; try reflexivity.
  change (record_ok (JObj kvs))
    with (negb (truthy (default JNull (dict_lookup kvs (u "error"))))).
  cbn [subjects_map_loop py_get bind].
  destruct (truthy (default JNull (dict_lookup kvs (u "error")))) eqn:E;
    cbn [negb].
  - apply IH.
  - cbn [subjects_map_loop py_get bind]. rewrite E.
    destruct (py_getitem (JObj kvs) (u "leaf_id")) as [lid|e]; [|reflexivity].
    cbn [bind]. destruct (py_int py_repr str_to_int lid); [|reflexivity].
    cbn [bind]. apply IH.
Qed.

Lemma subjects_map_loop_values items res m :
  subjects_map_loop py_repr str_to_int items res = Ok m ->
  (forall k v, res !! k = Some v -> v = JList [] \/ truthy v = true) ->
  forall k v, m !! k = Some v -> v = JList [] \/ truthy v = true.
Proof.
  revert res. induction items as [|r items IH]; intros res H Hres.
  - injection H as <-. exact Hres.
  - cbn [subjects_map_loop] in H.
    destruct (py_get r (u "error") JNull) as [e|]; [|discriminate].
    cbn [bind] in H. destruct (truthy e); [exact (IH res H Hres)|].
    destruct (py_get r (u "subjects") (JList [])) as [s|]; [|discriminate].
    cbn [bind] in H.
    destruct (py_getitem r (u "leaf_id")) as [lid|]; [|discriminate].
    cbn [bind] in H.
    destruct (py_int py_repr str_to_int lid) as [k0|]; [|discriminate].
    cbn [bind] in H. apply (IH _ H). intros k v.
    destruct (decide (k0 = k)) as [->|Hne].
    + rewrite lookup_insert_eq. intros [= <-]. unfold py_or.
      destruct (truthy s) eqn:E; [right; exact E | left; reflexivity].
    + rewrite lookup_insert_ne by exact Hne. apply Hres.
Qed.

(** X16. The subject map of any parsed list.  The records whose [error] is
    truthy play no part: [subjects_map] returns, or raises, just as it
    does on the list without them, so that a failed record may even lack
    its [leaf_id].  And the map never holds a falsy value other than the
    empty list: a null or missing [subjects] is stored as [[]]. *)
Theorem subjects_map_ignores_failed (items : list json) :
  subjects_map py_repr str_to_int items
  = subjects_map py_repr str_to_int (List.filter record_ok items) /\
  (forall m k v,
     subjects_map py_repr str_to_int items = Ok m -> m !! k = Some v ->
     v = JList [] \/ truthy v = true).
Proof.
  split; [apply subjects_map_loop_filter|].
  intros m k v H. apply (subjects_map_loop_values items ∅ m H).
  intros k' v'. rewrite lookup_empty. discriminate.
Qed.

(** ** The rows of several paths *)

Lemma build_rows_app p1 p2 subj :
  build_rows py_repr str_to_int (p1 ++ p2) subj
  = (r1 <- build_rows py_repr str_to_int p1 subj ;;
     r2 <- build_rows py_repr str_to_int p2 subj ;; Ok (r1 ++ r2)).
Proof.
  unfold build_rows. rewrite !build_rows_loop_concat, mapM_app.
  destruct (mapM _ p1) as [a|e]; cbn [bind]; [|reflexivity].
  destruct (mapM _ p2) as [b|e]; cbn [bind]; [|reflexivity].
  cbn [app]. rewrite concat_app. reflexivity.
Qed.

Lemma path_rows_nil subj :
  exists e, path_rows py_repr str_to_int subj [] = Raise e /\
            exc_cls e = IndexError.
Proof. eexists. split; reflexivity. Qed.

(** X17. The rows are built path by path.  The rows of two lists of paths
    put together are the rows of the first followed by the rows of the
    second, and the call raises when either part raises; an empty path, on
    its own, raises an [IndexError], so no list of paths that holds one has
    rows. *)
Theorem build_rows_path_by_path (p1 p2 : list (list row)) (subj : gmap Z json) :
  build_rows py_repr str_to_int (p1 ++ p2) subj
  = (r1 <- build_rows py_repr str_to_int p1 subj ;;
     r2 <- build_rows py_repr str_to_int p2 subj ;; Ok (r1 ++ r2)) /\
  (exists e, build_rows py_repr str_to_int [[]] subj = Raise e /\
             exc_cls e = IndexError) /\
  (forall rows, build_rows py_repr str_to_int (p1 ++ [] :: p2) subj <> Ok rows).
Proof.
  split; [apply build_rows_app|]. split.
  - eexists. split; reflexivity.
  - intros rows. rewrite build_rows_app.
    destruct (build_rows py_repr str_to_int p1 subj); cbn [bind]; [|discriminate].
    change ([] :: p2) with ([[]] ++ p2). rewrite build_rows_app.
    change (build_rows py_repr str_to_int [[]] subj)
      with (@Raise (list row) (Exc IndexError (u "list index out of range"))).
    discriminate.
Qed.

(** ** The paths of the export *)

Lemma dict_lookup_size kvs k v :
  dict_lookup kvs k = Some v -> (json_size v < json_size (JObj kvs))%nat.
Proof.
  induction kvs as [|[k' x] kvs IH]; cbn; [discriminate|].
  destruct (str_eqb k' k).
  - intros [= ->]. clear. lia.
  - intros H. specialize (IH H). cbn in IH. clear - IH. lia.
Qed.

Lemma py_iter_size v cs x :
  py_iter v = Ok cs -> In x cs -> (json_size x <= json_size v)%nat.
Proof.
  destruct v; cbn; try discriminate; intros [= <-].
  - induction s as [|c s IH]; cbn; [contradiction|].
    intros [<-|H]; [cbn; clear; lia | specialize (IH H); clear - IH; lia].
  - induction l as [|c l IH]; cbn; [contradiction|].
    intros [<-|H]; [clear; lia | specialize (IH H); cbn in IH; clear - IH; lia].
  - induction kvs as [|[k y] kvs IH]; cbn; [contradiction|].
    intros [<-|H]; [cbn; clear; lia | specialize (IH H); cbn in IH; clear - IH; lia].
Qed.

Lemma py_or_size c x cs :
  py_iter (py_or c (JList [])) = Ok cs -> In x cs ->
  (json_size x <= json_size c)%nat.
Proof.
  unfold py_or. destruct (truthy c).
  - apply py_iter_size.
  - intros [= <-] [].
Qed.

Lemma for_each_is_Some {S : Type} (f : json -> S -> option (result S)) xs s :
  (forall x s', In x xs -> is_Some (f x s')) -> is_Some (for_each f xs s).
Proof.
  revert s. induction xs as [|x xs IH]; intros s H; [eexists; reflexivity|].
  cbn [for_each]. destruct (H x s (or_introl eq_refl)) as [r Hr]. rewrite Hr.
  destruct r as [s'|e]; [|eexists; reflexivity].
  apply IH. intros y s'' Hy. apply H. right. exact Hy.
Qed.

(** The bound on the depth is enough as soon as it exceeds the size of
    the node. *)
Lemma walk_is_Some depth node level acc root_key out :
  (json_size node < depth)%nat ->
  is_Some (walk py_repr str_to_int depth node level acc root_key out).
Proof.
  revert node level acc out.
  induction depth as [|depth IH]; intros node level acc out Hlt;
    [clear - Hlt; lia|].
  cbn [walk].
  destruct (py_getitem node (u "id")) as [idv|e]; [|eexists; reflexivity].
  cbn [bind].
  destruct (py_int py_repr str_to_int idv) as [id|e]; [|eexists; reflexivity].
  cbn [bind]. destruct node; try (eexists; reflexivity).
  cbn [py_get bind].
  destruct (truthy (py_or _ _)) eqn:Ht; [|eexists; reflexivity].
  destruct (py_iter (py_or _ _)) as [cs|e] eqn:Hit; [|eexists; reflexivity].
  apply for_each_is_Some. intros x s' Hx. apply IH.
  destruct (dict_lookup kvs (u "childs")) as [c|] eqn:Hc.
  - pose proof (py_or_size c x cs Hit Hx) as H1.
    pose proof (dict_lookup_size kvs _ c Hc) as H2.
    clear - H1 H2 Hlt. cbn [default] in *. lia.
  - cbn [default] in Hit. injection Hit as <-. destruct Hx.
Qed.

Lemma build_paths_by_root_is_Some menu :
  is_Some (build_paths_by_root py_repr str_to_int menu).
Proof.
  apply for_each_is_Some. intros root out _. unfold walk_root.
  destruct (node_key py_repr str_to_int root); [|eexists; reflexivity].
  apply walk_is_Some. clear. lia.
Qed.

Lemma key_eqb_eq a b : key_eqb a b = true <-> a = b.
Proof.
  unfold key_eqb. rewrite andb_true_iff, Z.eqb_eq, str_eqb_eq.
  destruct a, b; cbn [fst snd]. split; [intros [-> ->]; reflexivity|].
  intros [= -> ->]. auto.
Qed.

Lemma iter_leaves_single_leaf node c :
  py_get node (u "childs") JNull = Ok c ->
  truthy (py_or c (JList [])) = false ->
  iter_leaves [node] = Ok [node].
Proof.
  intros Hc Ht. unfold iter_leaves. rewrite iter_leaves_loop_eq.
  unfold iter_leaves_body. change [node] with ([] ++ [node]) at 1.
  rewrite list_pop_snoc, Hc. cbv zeta. rewrite Ht.
  rewrite iter_leaves_loop_eq. reflexivity.
Qed.

Lemma iter_leaves_single_parent node c cs :
  py_get node (u "childs") JNull = Ok c ->
  truthy (py_or c (JList [])) = true ->
  py_iter (py_or c (JList [])) = Ok cs ->
  iter_leaves [node] = iter_leaves cs.
Proof.
  intros Hc Ht Hit. unfold iter_leaves. rewrite iter_leaves_loop_eq.
  unfold iter_leaves_body. change [node] with ([] ++ [node]) at 1.
  rewrite list_pop_snoc, Hc. cbv zeta. rewrite Ht, Hit. reflexivity.
Qed.

Lemma iter_leaves_cons c cs :
  iter_leaves (c :: cs)
  = (lb <- iter_leaves cs ;; la <- iter_leaves [c] ;; Ok (lb ++ la)).
Proof.
  unfold iter_leaves. change (c :: cs) with ([c] ++ cs).
  rewrite iter_leaves_loop_app.
  destruct (iter_leaves_loop cs []) as [lb|e]; cbn [bind]; [|reflexivity].
  apply iter_leaves_loop_out.
Qed.

Lemma truthy_iter_nonempty v cs :
  truthy v = true -> py_iter v = Ok cs -> cs <> [].
Proof.
  destruct v; cbn; try discriminate.
  - destruct s; [discriminate|]. intros _ [= <-]. discriminate.
  - destruct l; [discriminate|]. intros _ [= <-]. discriminate.
  - destruct kvs; [discriminate|]. intros _ [= <-]. discriminate.
Qed.

Lemma add_paths_app key ps1 ps2 out :
  add_paths key (ps1 ++ ps2) out = add_paths key ps2 (add_paths key ps1 out).
Proof. apply fold_left_app. Qed.

Lemma grows_from_child acc level id name cid cname p :
  grows_from (acc ++ [(id, name, level)]) (level + 1) cid cname p ->
  grows_from acc level id name p.
Proof.
  intros [tail [-> Hl]]. exists ((cid, cname, level + 1) :: tail). split.
  - rewrite <- app_assoc. reflexivity.
  - cbn [List.map length seq row_level snd]. f_equal; [clear; lia|].
    rewrite Hl, <- seq_shift, List.map_map.
    apply List.map_ext. intros i. clear. lia.
Qed.

(** What one call of [walk] does when it returns: it files, under the key
    it was given, one path for each leaf below the node, in the order of
    the document; each path goes through the node and ends at its leaf. *)
Lemma walk_spec depth :
  forall node level acc key out out',
    walk py_repr str_to_int depth node level acc key out = Some (Ok out') ->
    exists id name,
      node_key py_repr str_to_int node = Ok (id, name) /\
      exists ps leaves,
      ps <> [] /\
      out' = add_paths key ps out /\
      Forall (grows_from acc level id name) ps /\
      iter_leaves [node] = Ok leaves /\
      Forall2 (ends_at py_repr str_to_int) ps (rev leaves).
Proof.
  induction depth as [|depth IH]; intros node level acc key out out' H;
    [discriminate|].
  cbn [walk] in H.
  destruct (py_getitem node (u "id")) as [idv|e] eqn:Hid; [|discriminate].
  cbn [bind] in H.
  destruct (py_int py_repr str_to_int idv) as [id|e] eqn:Hint; [|discriminate].
  cbn [bind] in H.
  destruct (py_get node (u "name") (JStr [])) as [namev|e] eqn:Hname;
    [|discriminate].
  cbn [bind] in H.
  destruct (py_get node (u "childs") JNull) as [c|e] eqn:Hc; [|discriminate].
  cbn [bind] in H. cbv zeta in H.
  assert (Hkey : node_key py_repr str_to_int node
                 = Ok (id, py_str py_repr namev)).
  { unfold node_key. rewrite Hid. cbn [bind]. rewrite Hint. cbn [bind].
    rewrite Hname. reflexivity. }
  clear Hid Hint Hname. revert H Hkey.
  generalize (py_str py_repr namev) as name. intros name H Hkey.
  exists id, name. split; [exact Hkey|].
  destruct (truthy (py_or c (JList []))) eqn:Ht.
  - destruct (py_iter (py_or c (JList []))) as [cs|e] eqn:Hit; [|discriminate].
    pose proof (truthy_iter_nonempty _ _ Ht Hit) as Hne.
    rewrite (iter_leaves_single_parent node c cs Hc Ht Hit).
    clear Hc Ht Hit Hkey.
    assert (Hcs : forall o o',
      for_each (fun ch out' =>
        walk py_repr str_to_int depth ch (level + 1)
          (acc ++ [(id, name, level)]) key out') cs o = Some (Ok o') ->
      exists ps leaves,
        (cs <> [] -> ps <> []) /\
        o' = add_paths key ps o /\
        Forall (grows_from acc level id name) ps /\
        iter_leaves cs = Ok leaves /\
        Forall2 (ends_at py_repr str_to_int) ps (rev leaves)).
    { clear H Hne out out'. induction cs as [|ch cs IHcs]; intros o o' H.
      - injection H as <-. exists [], []. split; [congruence|].
        split; [reflexivity|]. split; [apply List.Forall_nil|].
        split; [|constructor].
        unfold iter_leaves. rewrite iter_leaves_loop_eq. reflexivity.
      - cbn [for_each] in H.
        destruct (walk py_repr str_to_int depth ch (level + 1)
                    (acc ++ [(id, name, level)]) key o) as [[o1|e]|] eqn:Hw;
          try discriminate.
        destruct (IH _ _ _ _ _ _ Hw)
          as [cid [cname [_ [ps1 [l1 [Hne1 [-> [Hg1 [Hl1 Hf1]]]]]]]]].
        destruct (IHcs _ _ H) as [ps2 [l2 [_ [-> [Hg2 [Hl2 Hf2]]]]]].
        exists (ps1 ++ ps2), (l2 ++ l1).
        split; [intros _ E; apply app_eq_nil in E as [E _]; congruence|].
        split; [symmetry; apply add_paths_app|].
        split.
        { apply Forall_app. split; [|exact Hg2].
          eapply List.Forall_impl; [|exact Hg1].
          intros p. apply grows_from_child. }
        split.
        { rewrite iter_leaves_cons, Hl2, Hl1. reflexivity. }
        rewrite rev_app_distr. apply List.Forall2_app; assumption. }
    destruct (Hcs _ _ H) as [ps [leaves [Hps [-> [Hg [Hl Hf]]]]]].
    exists ps, leaves. auto 10.
  - injection H as <-.
    exists [acc ++ [(id, name, level)]], [node].
    split; [discriminate|]. split; [reflexivity|].
    split.
    { apply List.Forall_cons; [|apply List.Forall_nil].
      exists []. split; reflexivity. }
    split; [exact (iter_leaves_single_leaf node c Hc Ht)|].
    constructor; [|constructor].
    exists acc, id, name, level. split; [reflexivity | exact Hkey].
Qed.

Lemma grows_from_root id name p :
  grows_from [] 0 id name p -> root_path (id, name) p.
Proof.
  intros [tail [-> Hl]]. split; [exists tail; reflexivity|].
  cbn [app List.map length seq row_level snd]. f_equal.
  rewrite Hl, <- seq_shift, List.map_map.
  apply List.map_ext. intros i. clear. lia.
Qed.

Lemma walk_root_spec root out out' :
  walk_root py_repr str_to_int root out = Some (Ok out') ->
  exists kp, root_entry py_repr str_to_int root kp /\
             out' = add_paths (fst kp) (snd kp) out.
Proof.
  unfold walk_root. intros H.
  destruct (node_key py_repr str_to_int root) as [key|e] eqn:Hkey;
    [|discriminate].
  destruct (walk_spec _ _ _ _ _ _ _ H)
    as [id [name [Hk [ps [leaves [Hne [-> [Hg [Hl Hf]]]]]]]]].
  rewrite Hkey in Hk. injection Hk as ->.
  exists ((id, name), ps). split; [|reflexivity].
  split; [exact Hkey|]. split; [exact Hne|]. split.
  - eapply List.Forall_impl; [|exact Hg]. intros p. apply grows_from_root.
  - exists leaves. split; assumption.
Qed.

Lemma for_each_walk_root_spec menu :
  forall out out',
    for_each (walk_root py_repr str_to_int) menu out = Some (Ok out') ->
    exists kps, Forall2 (root_entry py_repr str_to_int) menu kps /\
                out' = add_entries kps out.
Proof.
  induction menu as [|root menu IH]; intros out out' H.
  - injection H as <-. exists []. split; [constructor | reflexivity].
  - cbn [for_each] in H.
    destruct (walk_root py_repr str_to_int root out) as [[o1|e]|] eqn:Hw;
      try discriminate.
    destruct (walk_root_spec _ _ _ Hw) as [kp [Hkp ->]].
    destruct (IH _ _ H) as [kps [Hkps ->]].
    exists (kp :: kps). split; [constructor; assumption | reflexivity].
Qed.

Lemma setdefault_append_keys (out : paths_dict) key p :
  List.map fst (setdefault_append out key p)
  = if existsb (fun k => key_eqb k key) (List.map fst out)
    then List.map fst out else List.map fst out ++ [key].
Proof.
  induction out as [|[k ps] out IH]; [reflexivity|].
  cbn [setdefault_append List.map existsb fst].
  destruct (key_eqb k key); cbn [orb List.map fst]; [reflexivity|].
  rewrite IH. destruct (existsb _ _); reflexivity.
Qed.

Lemma existsb_key (out : paths_dict) key :
  existsb (fun k => key_eqb k key) (List.map fst out) = true
  <-> In key (List.map fst out).
Proof.
  rewrite existsb_exists. split.
  - intros [k [Hin Hk]]. apply key_eqb_eq in Hk. subst k. exact Hin.
  - intros Hin. exists key. split; [exact Hin | apply key_eqb_eq; reflexivity].
Qed.

Lemma setdefault_append_In out key p :
  In key (List.map fst (setdefault_append out key p)).
Proof.
  rewrite setdefault_append_keys.
  destruct (existsb _ _) eqn:E; [apply existsb_key; exact E|].
  apply in_or_app. right. left. reflexivity.
Qed.

Lemma add_paths_keys key ps out :
  ps <> [] ->
  List.map fst (add_paths key ps out)
  = if existsb (fun k => key_eqb k key) (List.map fst out)
    then List.map fst out else List.map fst out ++ [key].
Proof.
  destruct ps as [|p ps]; [congruence|]. intros _.
  cbn [add_paths fold_left]. rewrite <- (setdefault_append_keys out key p).
  generalize (setdefault_append_In out key p).
  generalize (setdefault_append out key p) as o.
  induction ps as [|q ps IH]; intros o Ho; [reflexivity|].
  cbn [fold_left]. rewrite (IH _ (setdefault_append_In o key q)).
  rewrite setdefault_append_keys.
  apply existsb_key in Ho. rewrite Ho. reflexivity.
Qed.

Lemma setdefault_append_ok out key p :
  root_path key p -> paths_dict_ok out ->
  paths_dict_ok (setdefault_append out key p).
Proof.
  intros Hp [Hnd Hall]. split.
  - rewrite setdefault_append_keys.
    destruct (existsb _ _) eqn:E; [exact Hnd|].
    apply NoDup_app. split; [exact Hnd|]. split.
    + intros k Hk Hk2. apply list_elem_of_In in Hk, Hk2.
      destruct Hk2 as [<-|[]]. apply existsb_key in Hk. congruence.
    + apply NoDup_singleton.
  - clear Hnd. induction Hall as [|[k ps] out [Hne Hps] Hall IH].
    + apply List.Forall_cons; [|apply List.Forall_nil].
      cbn [fst snd]. split; [discriminate|].
      apply List.Forall_cons; [exact Hp | apply List.Forall_nil].
    + cbn [setdefault_append]. cbn [fst snd] in Hne, Hps.
      destruct (key_eqb k key) eqn:E.
      * apply key_eqb_eq in E. subst k.
        apply List.Forall_cons; [|exact Hall]. cbn [fst snd]. split.
        -- intros H. apply app_eq_nil in H as [_ H]. discriminate.
        -- apply Forall_app. split; [exact Hps|].
           apply List.Forall_cons; [exact Hp | apply List.Forall_nil].
      * apply List.Forall_cons; [|exact IH]. split; assumption.
Qed.

Lemma add_paths_ok key ps out :
  Forall (root_path key) ps -> paths_dict_ok out ->
  paths_dict_ok (add_paths key ps out).
Proof.
  revert out. induction ps as [|p ps IH]; intros out Hps Hout; [exact Hout|].
  inversion Hps as [|? ? Hp Hrest]; subst. cbn [add_paths fold_left].
  apply IH; [exact Hrest|]. apply setdefault_append_ok; assumption.
Qed.

Lemma setdefault_append_all_paths out key p :
  Permutation (all_paths (setdefault_append out key p)) (all_paths out ++ [p]).
Proof.
  unfold all_paths. induction out as [|[k ps] out IH]; [reflexivity|].
  cbn [setdefault_append]. destruct (key_eqb k key);
    cbn [List.map snd concat].
  - rewrite <- !app_assoc. apply Permutation_app_head.
    apply Permutation_app_comm.
  - rewrite <- app_assoc. apply Permutation_app_head. exact IH.
Qed.

Lemma add_paths_all_paths key ps out :
  Permutation (all_paths (add_paths key ps out)) (all_paths out ++ ps).
Proof.
  revert out. induction ps as [|p ps IH]; intros out.
  - rewrite app_nil_r. reflexivity.
  - cbn [add_paths fold_left]. etransitivity; [apply IH|].
    etransitivity;
      [apply Permutation_app_tail; apply setdefault_append_all_paths|].
    rewrite <- app_assoc. reflexivity.
Qed.

Lemma add_entries_spec kps menu :
  Forall2 (root_entry py_repr str_to_int) menu kps ->
  forall out,
    (paths_dict_ok out -> paths_dict_ok (add_entries kps out)) /\
    (forall key, In key (List.map fst (add_entries kps out)) <->
                 In key (List.map fst out) \/ In key (List.map fst kps)) /\
    (length (add_entries kps out) <= length out + length kps)%nat /\
    Permutation (all_paths (add_entries kps out))
      (all_paths out ++ all_paths kps).
Proof.
  clear json_loads.
  induction 1 as [|root kp menu kps Hkp _ IH]; intros out.
  - unfold all_paths. cbn [add_entries fold_left List.map length concat In].
    rewrite app_nil_r. split; [auto|]. split; [intros key; tauto|].
    split; [clear; lia | reflexivity].
  - cbn [add_entries fold_left].
    destruct Hkp as [_ [Hne [Hps _]]].
    destruct (IH (add_paths (fst kp) (snd kp) out)) as [Hok [Hkeys [Hlen Hperm]]].
    fold (add_entries kps (add_paths (fst kp) (snd kp) out)).
    pose proof (add_paths_keys (fst kp) (snd kp) out Hne) as Hk.
    split; [|split; [|split]].
    + intros Hout. apply Hok. apply add_paths_ok; assumption.
    + intros key. rewrite Hkeys, Hk. cbn [List.map In].
      destruct (existsb _ _) eqn:E.
      * apply existsb_key in E. split; [tauto|].
        intros [H|[<-|H]]; tauto.
      * rewrite in_app_iff. cbn [In]. tauto.
    + destruct (existsb _ _); apply (f_equal (@length _)) in Hk;
        rewrite ?length_app, !length_map in Hk;
        cbn [length] in *; clear - Hk Hlen; lia.
    + etransitivity; [exact Hperm|].
      etransitivity;
        [apply Permutation_app_tail; apply add_paths_all_paths|].
      unfold all_paths at 4. cbn [List.map concat].
      rewrite <- app_assoc. reflexivity.
Qed.

Lemma root_entry_keys menu kps :
  Forall2 (root_entry py_repr str_to_int) menu kps ->
  forall key, In key (List.map fst kps) <->
    exists root, In root menu /\ node_key py_repr str_to_int root = Ok key.
Proof.
  induction 1 as [|root kp menu kps Hkp _ IH]; intros key.
  - cbn [List.map In]. split; [intros [] | intros [root [[] _]]].
  - cbn [List.map In]. rewrite IH. destruct Hkp as [Hk _]. split.
    + intros [<-|[r [Hr Hrk]]]; [exists root | exists r]; auto.
    + intros [r [[<-|Hr] Hrk]].
      * left. rewrite Hk in Hrk. injection Hrk as ->. reflexivity.
      * right. exists r. auto.
Qed.

(** X18. The shape of the dict of paths.  When [build_paths_by_root]
    returns, no key occurs twice and none is without a path; every path
    under a key starts at that root, at level 0, and its levels are
    0, 1, 2 and so on without a gap; the keys are exactly the keys of the
    roots of the menu, so that there are at most as many as roots. *)
Theorem build_paths_by_root_shape (menu : list json) (out : paths_dict) :
  build_paths_by_root py_repr str_to_int menu = Some (Ok out) ->
  paths_dict_ok out /\
  (forall key, In key (List.map fst out) <->
     exists root, In root menu /\
                  node_key py_repr str_to_int root = Ok key) /\
  (length out <= length menu)%nat.
Proof.
  intros H. apply for_each_walk_root_spec in H as [kps [Hkps ->]].
  destruct (add_entries_spec kps menu Hkps []) as [Hok [Hkeys [Hlen _]]].
  split; [|split].
  - apply Hok. split; [constructor | apply List.Forall_nil].
  - intros key. rewrite Hkeys, <- (root_entry_keys menu kps Hkps).
    cbn [List.map In]. clear. tauto.
  - apply Forall2_length in Hkps. cbn [length] in Hlen.
    clear - Hkps Hlen. lia.
Qed.

Lemma root_entries_leaves menu kps :
  Forall2 (root_entry py_repr str_to_int) menu kps ->
  exists leaves,
    iter_leaves menu = Ok leaves /\
    Forall2 (ends_at py_repr str_to_int) (all_paths kps) (rev leaves).
Proof.
  induction 1 as [|root kp menu kps Hkp _ [lb [Hlb Hfb]]].
  - exists []. split; [|constructor].
    unfold iter_leaves. rewrite iter_leaves_loop_eq. reflexivity.
  - destruct Hkp as [_ [_ [_ [la [Hla Hfa]]]]].
    exists (lb ++ la). split.
    + rewrite iter_leaves_cons, Hlb, Hla. reflexivity.
    + rewrite rev_app_distr. unfold all_paths. cbn [List.map concat].
      apply List.Forall2_app; assumption.
Qed.

Lemma add_paths_same_key key qs ps :
  add_paths key ps [(key, qs)] = [(key, qs ++ ps)].
Proof.
  revert qs. induction ps as [|p ps IH]; intros qs.
  - rewrite app_nil_r. reflexivity.
  - cbn [add_paths fold_left setdefault_append].
    rewrite (proj2 (key_eqb_eq key key) eq_refl).
    change (add_paths key ps [(key, qs ++ [p])] = [(key, qs ++ p :: ps)]).
    rewrite IH, <- app_assoc. reflexivity.
Qed.

(** X19. The paths end at the leaves.  When [build_paths_by_root] returns,
    [iter_leaves] returns too, and the paths of the dict end, one for one,
    at the leaves [iter_leaves] gives: taken root after root they come in
    the order of the document, the reverse of the order of [iter_leaves];
    the dict holds the same paths, grouped by key, and for a menu of one
    root it holds them in that very order. *)
Theorem paths_end_at_leaves (menu : list json) (out : paths_dict) :
  build_paths_by_root py_repr str_to_int menu = Some (Ok out) ->
  exists leaves ps,
    iter_leaves menu = Ok leaves /\
    Forall2 (ends_at py_repr str_to_int) ps (rev leaves) /\
    Permutation (all_paths out) ps /\
    (forall root, menu = [root] -> exists key, out = [(key, ps)]).
Proof.
  intros H. apply for_each_walk_root_spec in H as [kps [Hkps ->]].
  destruct (root_entries_leaves menu kps Hkps) as [leaves [Hl Hf]].
  destruct (add_entries_spec kps menu Hkps []) as [_ [_ [_ Hperm]]].
  exists leaves, (all_paths kps). split; [exact Hl|]. split; [exact Hf|].
  split; [exact Hperm|].
  intros root ->. inversion Hkps as [|? kp ? kps' Hkp Hnil]; subst.
  inversion Hnil; subst. destruct Hkp as [_ [Hne _]].
  destruct kp as [key ps]. cbn [fst snd] in Hne. exists key.
  unfold all_paths. cbn [add_entries fold_left List.map concat fst snd].
  rewrite app_nil_r. destruct ps as [|p ps]; [congruence|].
  cbn [add_paths fold_left setdefault_append].
  apply (add_paths_same_key key [p] ps).
Qed.

Lemma for_each_Ok_all {S : Type} (f : json -> S -> option (result S)) xs :
  forall s s', for_each f xs s = Some (Ok s') ->
  Forall (fun x => exists s1 s2, f x s1 = Some (Ok s2)) xs.
Proof.
  induction xs as [|x xs IH]; intros s s' H; [apply List.Forall_nil|].
  cbn [for_each] in H. destruct (f x s) as [[s1|e]|] eqn:E; try discriminate.
  apply List.Forall_cons; [eauto | exact (IH _ _ H)].
Qed.

Lemma for_each_Ok {S : Type} (f : json -> S -> option (result S)) xs :
  (forall x s, In x xs -> exists s', f x s = Some (Ok s')) ->
  forall s, exists s', for_each f xs s = Some (Ok s').
Proof.
  induction xs as [|x xs IH]; intros H s; [eexists; reflexivity|].
  cbn [for_each]. destruct (H x s (or_introl eq_refl)) as [s1 ->].
  apply IH. intros y t Hy. apply H. right. exact Hy.
Qed.

Lemma walk_not_dict depth v level acc key out out' :
  ~ is_dict v ->
  walk py_repr str_to_int depth v level acc key out <> Some (Ok out').
Proof.
  intros Hv. destruct depth; [discriminate|]. cbn [walk].
  destruct v; try discriminate. exfalso. apply Hv. eexists. reflexivity.
Qed.

Lemma walk_Ok_tree depth :
  forall node level acc key out out',
    walk py_repr str_to_int depth node level acc key out = Some (Ok out') ->
    catalog_node node /\ keyed_tree py_repr str_to_int node.
Proof.
  induction depth as [|depth IH]; intros node level acc key out out' H;
    [discriminate|].
  destruct (walk_spec _ _ _ _ _ _ _ H) as [id [name [Hkey _]]].
  destruct node as [| | | | | |kvs];
    try solve [exfalso; revert H; apply (walk_not_dict (S depth));
               intros [? [= ]]].
  cbn [walk] in H.
  destruct (py_getitem (JObj kvs) (u "id")) as [idv|e]; [|discriminate].
  cbn [bind] in H.
  destruct (py_int py_repr str_to_int idv) as [id'|e]; [|discriminate].
  cbn [bind py_get] in H. cbv zeta in H.
  set (path := acc ++ _) in H. clearbody path.
  unfold children, keyed_tree.
  unfold py_or in H.
  destruct (dict_lookup kvs (u "childs")) as [c|] eqn:Hc;
    cbn [default from_option Datatypes.id] in H.
  - destruct (truthy c) eqn:Ht; cbv iota in H.
    + rewrite Ht in H.
      destruct (py_iter c) as [cs|e] eqn:Hit; [|discriminate].
      pose proof (for_each_Ok_all _ _ _ _ H) as Hall. clear H.
      assert (Hsub : Forall (fun ch => catalog_node ch /\
                                        keyed_tree py_repr str_to_int ch) cs).
      { eapply List.Forall_impl; [|exact Hall].
        intros ch [s1 [s2 Hw]]. exact (IH _ _ _ _ _ _ Hw). }
      assert (Hlist : c = JList cs).
      { destruct c; try discriminate.
        - destruct s as [|x s]; [discriminate|]. injection Hit as <-.
          inversion Hsub as [|? ? [Hx _] _]; subst. inversion Hx.
        - injection Hit as <-. reflexivity.
        - destruct kvs0 as [|x kvs0]; [discriminate|]. injection Hit as <-.
          inversion Hsub as [|? ? [Hx _] _]; subst. inversion Hx. }
      subst c. split.
      * constructor. intros c' Hc' _. rewrite Hc in Hc'. injection Hc' as <-.
        exists cs. split; [reflexivity|].
        eapply List.Forall_impl; [|exact Hsub]. intros ch [Hch _]. exact Hch.
      * intros n Hn. inversion Hn as [|? ch ? Hin Hsubtree]; subst.
        -- eexists. exact Hkey.
        -- unfold children in Hin. cbn [node_field] in Hin.
           rewrite Hc in Hin. rewrite List.Forall_forall in Hsub.
           destruct (Hsub ch Hin) as [_ Hk]. exact (Hk n Hsubtree).
    + split.
      * constructor. intros c' Hc' Ht'. rewrite Hc in Hc'.
        injection Hc' as <-. congruence.
      * intros n Hn. inversion Hn as [|? ch ? Hin Hsubtree]; subst.
        -- eexists. exact Hkey.
        -- exfalso. unfold children in Hin. cbn [node_field] in Hin.
           rewrite Hc in Hin. destruct c; try contradiction.
           destruct l; [contradiction | discriminate].
  - split.
    + constructor. intros c' Hc'. rewrite Hc in Hc'. discriminate.
    + intros n Hn. inversion Hn as [|? ch ? Hin Hsubtree]; subst.
      * eexists. exact Hkey.
      * exfalso. unfold children in Hin. cbn [node_field] in Hin.
        rewrite Hc in Hin. contradiction.
Qed.

Lemma walk_tree_Ok depth :
  forall node level acc key out,
    (json_size node < depth)%nat ->
    catalog_node node -> keyed_tree py_repr str_to_int node ->
    exists out',
      walk py_repr str_to_int depth node level acc key out = Some (Ok out').
Proof.
  induction depth as [|depth IH]; intros node level acc key out Hlt Hcat Hk;
    [clear - Hlt; lia|].
  destruct (Hk node (in_tree_here node)) as [[id name] Hkey].
  destruct Hcat as [kvs Hch]. cbn [walk].
  unfold node_key in Hkey.
  destruct (py_getitem (JObj kvs) (u "id")) as [idv|e]; [|discriminate].
  cbn [bind] in Hkey |- *.
  destruct (py_int py_repr str_to_int idv) as [id'|e]; [|discriminate].
  cbn [bind py_get] in Hkey |- *. cbv zeta. clear Hkey.
  set (path := acc ++ _). clearbody path.
  unfold py_or.
  destruct (dict_lookup kvs (u "childs")) as [c|] eqn:Hc;
    cbn [default from_option Datatypes.id];
    [|eexists; reflexivity].
  destruct (truthy c) eqn:Ht; cbv iota; [|cbn [truthy]; eexists; reflexivity].
  rewrite Ht. destruct (Hch c eq_refl Ht) as [cs [-> Hcs]]. cbn [py_iter].
  apply for_each_Ok. intros ch s Hin. apply IH.
  - pose proof (dict_lookup_size kvs _ _ Hc) as H1.
    pose proof (py_iter_size (JList cs) cs ch eq_refl Hin) as H2.
    clear - H1 H2 Hlt. lia.
  - rewrite List.Forall_forall in Hcs. exact (Hcs ch Hin).
  - intros n Hn. apply Hk. apply (in_tree_child _ ch); [|exact Hn].
    unfold children. cbn [node_field]. rewrite Hc. exact Hin.
Qed.

(** X20. When the paths can be built.  [build_paths_by_root] returns a
    dict exactly when every root of the menu is a catalog node and every
    node below it has an [id] that converts to an integer; on any other
    menu it raises (the interpreter's limit on the depth of recursion
    aside). *)
Theorem build_paths_by_root_returns_iff (menu : list json) :
  ((exists out, build_paths_by_root py_repr str_to_int menu = Some (Ok out))
   <-> Forall (fun root => catalog_node root /\
                           keyed_tree py_repr str_to_int root) menu) /\
  ((forall out, build_paths_by_root py_repr str_to_int menu <> Some (Ok out))
   -> exists e, build_paths_by_root py_repr str_to_int menu = Some (Raise e)).
Proof.
  split; [split|].
  - intros [out H]. apply for_each_Ok_all in H.
    eapply List.Forall_impl; [|exact H].
    intros root [s1 [s2 Hw]]. unfold walk_root in Hw.
    destruct (node_key py_repr str_to_int root); [|discriminate].
    exact (walk_Ok_tree _ _ _ _ _ _ _ Hw).
  - intros H. apply for_each_Ok. intros root s Hin.
    rewrite List.Forall_forall in H. destruct (H root Hin) as [Hcat Hk].
    unfold walk_root.
    destruct (Hk root (in_tree_here root)) as [key ->].
    apply walk_tree_Ok; [clear; lia | exact Hcat | exact Hk].
  - intros H. destruct (build_paths_by_root_is_Some menu) as [[out|e] Hr].
    + exfalso. exact (H out Hr).
    + exists e. exact Hr.
Qed.

(** ** The rows of the paths of a root *)

Lemma root_path_tail key p :
  root_path key p ->
  exists rest, p = (fst key, snd key, 0) :: rest /\
               Forall (fun r => 0 < row_level r) rest.
Proof.
  intros [[rest ->] Hl]. exists rest. split; [reflexivity|].
  cbn [List.map length seq] in Hl. injection Hl as Hl.
  apply List.Forall_forall. intros r Hr.
  apply (in_map row_level) in Hr. rewrite Hl in Hr.
  apply in_map_iff in Hr as [i [<- Hi]]. apply in_seq in Hi.
  clear - Hi. lia.
Qed.

Lemma filter_all {A} (f : A -> bool) l :
  Forall (fun x => f x = true) l -> List.filter f l = l.
Proof.
  induction 1 as [|x l Hx _ IH]; [reflexivity|].
  cbn [List.filter]. rewrite Hx, IH. reflexivity.
Qed.

Lemma build_rows_single subj p :
  build_rows py_repr str_to_int [p] subj = path_rows py_repr str_to_int subj p.
Proof.
  unfold build_rows. cbn [build_rows_loop].
  destruct (path_rows py_repr str_to_int subj p); reflexivity.
Qed.

(** X21. The rows of one path of the dict.  A path that starts at its root
    with level 0 and goes one level deeper at every step gives, as rows,
    every node after the root down to the leaf, in order, and then the
    rows of the leaf's subjects; the root gives no row, and a leaf the
    subject map does not know gives none for its subjects. *)
Theorem rows_of_a_root_path (key : Z * pystr) (p : list row)
    (subj : gmap Z json) :
  root_path key p ->
  exists pre id name level,
    p = pre ++ [(id, name, level)] /\
    build_rows py_repr str_to_int [p] subj
    = (ss <- py_iter (default (JList []) (subj !! id)) ;;
       rows3 <- mapM (subject_row py_repr str_to_int) ss ;;
       Ok (tl p ++ rows3)) /\
    (subj !! id = None ->
     build_rows py_repr str_to_int [p] subj = Ok (tl p)).
Proof.
  intros Hp. destruct (root_path_tail key p Hp) as [rest [-> Hpos]].
  assert (Hrows : forall pre id name level,
    (fst key, snd key, 0) :: rest = pre ++ [(id, name, level)] ->
    List.filter (fun r => 0 <? row_level r) (removelast rest)
      ++ (if 0 <? level then [(id, name, level)] else [])
    = rest).
  { intros pre id name level E.
    destruct rest as [|r rest] using rev_ind.
    - destruct pre as [|x [|y pre]]; try discriminate.
      injection E as _ _ <-. reflexivity.
    - clear IHrest. rewrite app_comm_cons in E.
      apply app_inj_tail in E as [_ ->].
      apply Forall_app in Hpos as [Hrest Hr].
      inversion Hr as [|? ? Hlvl _]; subst. cbn [row_level snd] in Hlvl.
      rewrite removelast_last. rewrite (proj2 (Z.ltb_lt _ _) Hlvl).
      f_equal. apply filter_all.
      eapply List.Forall_impl; [|exact Hrest].
      intros x Hx. apply Z.ltb_lt. exact Hx. }
  destruct (exists_last (l := (fst key, snd key, 0) :: rest))
    as [pre [[[id name] level] E]]; [discriminate|].
  exists pre, id, name, level. split; [exact E|].
  assert (Heq : build_rows py_repr str_to_int [(fst key, snd key, 0) :: rest] subj
    = (ss <- py_iter (default (JList []) (subj !! id)) ;;
       rows3 <- mapM (subject_row py_repr str_to_int) ss ;;
       Ok (rest ++ rows3))).
  { assert (Hpop : list_pop ((fst key, snd key, 0) :: rest)
                   = Some (pre, (id, name, level)))
      by (rewrite E; apply list_pop_snoc).
    rewrite build_rows_single. unfold path_rows, last_item.
    rewrite Hpop. cbn [bind].
    destruct (py_iter (default (JList []) (subj !! id))) as [ss|e];
      cbn [bind]; [|reflexivity].
    destruct (mapM (subject_row py_repr str_to_int) ss) as [rows3|e];
      cbn [bind]; [|reflexivity].
    unfold slice_1_m1. cbn [tl].
    rewrite app_assoc, (Hrows pre id name level E). reflexivity. }
  split; [exact Heq|].
  intros Hnone. rewrite Heq, Hnone. cbn [default from_option py_iter bind mapM].
  rewrite app_nil_r. reflexivity.
Qed.

(** ** The sheets of the workbook *)

Lemma safe_sheet_name_eq (root_name : pystr) :
  safe_sheet_name root_name = take 19 root_name ++ SHEET_SUFFIX.
Proof.
  unfold safe_sheet_name. cbv zeta.
  change (31 - length SHEET_SUFFIX)%nat with 19%nat.
  apply take_ge. rewrite length_app, length_take.
  change (length SHEET_SUFFIX) with 12%nat. clear. lia.
Qed.

(** X22. The names of the sheets.  A sheet name is the first 19
    characters of the root's name followed by the whole suffix: the outer
    cut at 31 characters never removes anything.  So it has at most 31
    characters, and two roots get the same sheet name exactly when their
    names agree on their first 19 characters. *)
Theorem safe_sheet_name_cut (a b : pystr) :
  safe_sheet_name a = take 19 a ++ SHEET_SUFFIX /\
  length (safe_sheet_name a) = (Nat.min 19 (length a) + 12)%nat /\
  (length (safe_sheet_name a) <= 31)%nat /\
  (safe_sheet_name a = safe_sheet_name b <-> take 19 a = take 19 b).
Proof.
  rewrite !safe_sheet_name_eq.
  assert (Hlen : length (take 19 a ++ SHEET_SUFFIX)
                 = (Nat.min 19 (length a) + 12)%nat).
  { rewrite length_app, length_take. reflexivity. }
  split; [reflexivity|]. split; [exact Hlen|]. split.
  - rewrite Hlen. clear. lia.
  - split; [apply app_inv_tail | intros ->; reflexivity].
Qed.





(** ** Records and paths *)

Lemma get_leaf_info_key node id name full_url q k :
  get_leaf_info py_repr str_to_int node = Ok (id, name, full_url, q) ->
  node_key py_repr str_to_int node = Ok k ->
  id = fst k /\ name = strip (snd k).
Proof.
  unfold get_leaf_info, node_key.
  destruct (py_getitem node (u "id")) as [idv|e]; [|discriminate].
  cbn [bind].
  destruct (py_int py_repr str_to_int idv) as [i|e]; [|discriminate].
  cbn [bind].
  destruct (py_get node (u "name") (JStr [])) as [namev|e]; [|discriminate].
  cbn [bind]. cbv zeta.
  destruct (py_get node (u "url") (JStr [])) as [urlv|e]; [|discriminate].
  cbn [bind].
  destruct (py_getitem node (u "searchQuery")) as [q'|e]; [|discriminate].
  cbn [bind]. intros H1 H2. apply Ok_inj in H1, H2. subst k.
  cbn [fst snd].
  pose proof (f_equal (fun t => fst (fst (fst t))) H1) as Hid.
  pose proof (f_equal (fun t => snd (fst (fst t))) H1) as Hname.
  cbn [fst snd] in Hid, Hname. split; congruence.
Qed.

Lemma Forall2_In_right {A B} (P : A -> B -> Prop) l1 l2 y :
  Forall2 P l1 l2 -> In y l2 -> exists x, In x l1 /\ P x y.
Proof.
  induction 1 as [|a b l1 l2 Hab _ IH]; intros Hin; [contradiction|].
  destruct Hin as [<-|Hin].
  - exists a. split; [left; reflexivity | exact Hab].
  - destruct (IH Hin) as [x [Hx Hp]]. exists x. split; [right|]; assumption.
Qed.

(** X24. A record meets its path.  When the menu that gave the selected
    leaves also gives the dict of paths, every record made for a selected
    leaf carries the id that ends one of the paths of the dict, and its
    name is the name at the end of that path, stripped: the subjects
    stored under the record's id are the ones [build_rows] looks up for
    that path. *)
Theorem record_meets_its_path (menu : list json) (out : paths_dict)
    (leaves : list json) (ctx : http_client) (n : json) (r : LeafRecord) :
  build_paths_by_root py_repr str_to_int menu = Some (Ok out) ->
  select_leaves py_repr menu = Ok leaves ->
  In n leaves ->
  fetch_subjects_for_leaf py_repr str_to_int json_loads ctx n = Ok r ->
  exists p pre name level,
    In p (all_paths out) /\
    p = pre ++ [(leaf_id r, name, level)] /\
    leaf_name r = strip name.
Proof.
  intros Hout Hsel Hn Hr.
  assert (Hleaves : exists leaves0 ps,
            iter_leaves menu = Ok leaves0 /\
            Forall2 (ends_at py_repr str_to_int) ps (rev leaves0) /\
            Permutation (all_paths out) ps).
  { apply for_each_walk_root_spec in Hout as [kps [Hkps ->]].
    destruct (root_entries_leaves menu kps Hkps) as [leaves0 [Hl Hf]].
    destruct (add_entries_spec kps menu Hkps []) as [_ [_ [_ Hperm]]].
    exists leaves0, (all_paths kps). auto. }
  destruct Hleaves as [leaves0 [ps [Hit [Hends Hperm]]]].
  assert (Hin0 : In n leaves0).
  { unfold select_leaves in Hsel. rewrite Hit in Hsel. cbn [bind] in Hsel.
    rewrite select_leaves_loop_dicts in Hsel.
    - apply Ok_inj in Hsel. cbn [app] in Hsel. subst leaves.
      apply filter_In in Hn as [Hn _]. exact Hn.
    - apply (iter_leaves_loop_dicts menu [] leaves0 Hit). apply List.Forall_nil. }
  apply in_rev in Hin0.
  destruct (Forall2_In_right _ _ _ _ Hends Hin0)
    as [p [Hp [pre [id [name [level [-> Hkey]]]]]]].
  exists (pre ++ [(id, name, level)]), pre, name, level.
  unfold fetch_subjects_for_leaf in Hr.
  destruct (get_leaf_info py_repr str_to_int n)
    as [[[[id' name'] full_url] q]|e] eqn:Hinfo; [|discriminate].
  destruct (get_leaf_info_key _ _ _ _ _ _ Hinfo Hkey) as [Hid Hname].
  cbn [fst snd] in Hid, Hname. cbn [bind] in Hr.
  assert (Hrec : leaf_id r = id' /\ leaf_name r = name').
  { destruct (fetch_subjects_try py_repr json_loads ctx q full_url);
      apply Ok_inj in Hr; subst r; split; reflexivity. }
  destruct Hrec as [Hrid Hrname].
  split; [apply (Permutation_in _ (Permutation_sym Hperm)); exact Hp|].
  split; [congruence | congruence].
Qed.

End MoreProperties.

(** * Instances of the further properties *)

Lemma sample_menu_catalog : Forall catalog_node sample_menu.
Proof.
  assert (Hleaf : catalog_node sample_leaf).
  { constructor. intros c Hc. vm_compute in Hc. discriminate. }
  apply List.Forall_cons; [|constructor]. constructor. intros c Hc _.
  vm_compute in Hc. injection Hc as <-.
  exists [sample_leaf]. split; [reflexivity|].
  apply List.Forall_cons; [exact Hleaf | constructor].
Defined.

Lemma select_leaves_again_witness :
  Forall catalog_node sample_menu /\
  exists leaves out,
    iter_leaves sample_menu = Ok leaves /\
    iter_leaves leaves = Ok (rev leaves) /\
    select_leaves sample_repr sample_menu = Ok out /\
    select_leaves sample_repr out = Ok (rev out).
Proof.
  split; [exact sample_menu_catalog|].
  exact (select_leaves_again sample_repr sample_menu sample_menu_catalog).
Defined.

Lemma get_leaf_info_descriptor_witness :
  get_leaf_info sample_repr sample_int sample_leaf
    = Ok (2, u "L", u "https://www.wildberries.ru/catalog/x", JStr (u "q")) /\
  stripped (u "https://www.wildberries.ru/catalog/x") /\
  node_field sample_leaf (u "searchQuery") = Some (JStr (u "q")).
Proof.
  assert (H : get_leaf_info sample_repr sample_int sample_leaf
              = Ok (2, u "L", u "https://www.wildberries.ru/catalog/x",
                    JStr (u "q"))) by (vm_compute; reflexivity).
  split; [exact H|].
  destruct (get_leaf_info_descriptor sample_repr sample_int _ _ _ _ _ H)
    as [_ [_ [Hs [_ [_ [_ [_ Hq]]]]]]].
  split; [exact Hs | exact Hq].
Defined.

Lemma build_filters_url_shape_witness :
  build_filters_url sample_repr (JStr (u "a b"))
  = Ok (u "https://search.wb.ru/exactmatch/ru/common/v18/search?appType=1&curr=rub&dest=-1257786&hide_dtype=13&lang=ru&filters=ffsubject&resultset=filters&spp=30&query=a%20b") /\
  count_occ N.eq_dec
    (u "https://search.wb.ru/exactmatch/ru/common/v18/search?appType=1&curr=rub&dest=-1257786&hide_dtype=13&lang=ru&filters=ffsubject&resultset=filters&spp=30&query=a%20b")
    38%N = 8%nat.
Proof.
  assert (H : build_filters_url sample_repr (JStr (u "a b"))
    = Ok (u "https://search.wb.ru/exactmatch/ru/common/v18/search?appType=1&curr=rub&dest=-1257786&hide_dtype=13&lang=ru&filters=ffsubject&resultset=filters&spp=30&query=a%20b"))
    by (vm_compute; reflexivity).
  split; [exact H|].
  destruct (build_filters_url_shape sample_repr _ _ H)
    as [v [_ [_ [_ [Hamp _]]]]].
  exact Hamp.
Defined.

Lemma build_filters_url_injective_witness :
  build_filters_url sample_repr (JStr (u "a b"))
  = Ok (u "https://search.wb.ru/exactmatch/ru/common/v18/search?appType=1&curr=rub&dest=-1257786&hide_dtype=13&lang=ru&filters=ffsubject&resultset=filters&spp=30&query=a%20b") /\
  u "a b" = u "a b".
Proof.
  assert (H : build_filters_url sample_repr (JStr (u "a b"))
    = Ok (u "https://search.wb.ru/exactmatch/ru/common/v18/search?appType=1&curr=rub&dest=-1257786&hide_dtype=13&lang=ru&filters=ffsubject&resultset=filters&spp=30&query=a%20b"))
    by (vm_compute; reflexivity).
  split; [exact H|].
  exact (build_filters_url_injective sample_repr _ _ _ H H).
Defined.

Lemma build_filters_url_surrogates_witness :
  Forall (fun c => (c < 1114112)%N) [113; 55357]%N /\
  exists e, build_filters_url sample_repr (JStr [113; 55357]%N) = Raise e /\
            exc_cls e = UnicodeEncodeError.
Proof.
  assert (H : Forall (fun c => (c < 1114112)%N) [113; 55357]%N).
  { repeat apply List.Forall_cons; try apply List.Forall_nil; reflexivity. }
  split; [exact H|].
  apply (proj2 (build_filters_url_surrogates sample_repr _ H)).
  exists 55357%N. split; [right; left; reflexivity|].
  unfold is_surrogate. lia.
Defined.

Lemma extract_subjects_stops_at_first_witness :
  has_key_xsubject sample_filter = true /\
  filters_of (sample_payload_of [sample_filter])
    = Some ([] ++ sample_filter :: []) /\
  filters_of (sample_payload_of [sample_filter; sample_filter_bad])
    = Some ([] ++ sample_filter :: [sample_filter_bad]) /\
  extract_subjects (sample_payload_of [sample_filter])
  = extract_subjects (sample_payload_of [sample_filter; sample_filter_bad]).
Proof.
  assert (H1 : has_key_xsubject sample_filter = true) by reflexivity.
  assert (H2 : filters_of (sample_payload_of [sample_filter])
               = Some ([] ++ sample_filter :: [])) by reflexivity.
  assert (H3 : filters_of (sample_payload_of [sample_filter; sample_filter_bad])
               = Some ([] ++ sample_filter :: [sample_filter_bad]))
    by reflexivity.
  split; [exact H1|]. split; [exact H2|]. split; [exact H3|].
  exact (extract_subjects_stops_at_first _ _ _ _ _ _ H1 H2 H3).
Defined.

Lemma sample_filters_dicts :
  Forall is_dict [sample_filter_brand; sample_filter].
Proof.
  repeat apply List.Forall_cons; try apply List.Forall_nil;
    eexists; reflexivity.
Defined.

Lemma extract_subjects_complete_witness :
  filters_of (sample_payload_of [sample_filter_brand; sample_filter])
    = Some [sample_filter_brand; sample_filter] /\
  Forall is_dict [sample_filter_brand; sample_filter] /\
  exists subjs,
    extract_subjects (sample_payload_of [sample_filter_brand; sample_filter])
      = Ok subjs /\
    length subjs = 1%nat.
Proof.
  assert (H1 : filters_of (sample_payload_of [sample_filter_brand; sample_filter])
               = Some [sample_filter_brand; sample_filter]) by reflexivity.
  split; [exact H1|]. split; [exact sample_filters_dicts|].
  destruct (proj2 (extract_subjects_complete _ _ H1 sample_filters_dicts)
              sample_filter
              [JObj [ (u "id", JInt 9); (u "name", JStr (u "Foo"));
                      (u "count", JInt 3) ]])
    as [subjs [Hs [_ Hlen]]].
  - reflexivity.
  - reflexivity.
  - apply List.Forall_cons; [|apply List.Forall_nil].
    eexists. eexists. eexists. split; [reflexivity|]. split; reflexivity.
  - exists subjs. split; [exact Hs | exact Hlen].
Defined.

Lemma extract_subjects_all_or_nothing_witness :
  filters_of (sample_payload_of [sample_filter_bad]) = Some [sample_filter_bad] /\
  exists e, extract_subjects (sample_payload_of [sample_filter_bad]) = Raise e.
Proof.
  assert (H1 : filters_of (sample_payload_of [sample_filter_bad])
               = Some [sample_filter_bad]) by reflexivity.
  split; [exact H1|].
  apply (extract_subjects_all_or_nothing _ _ sample_filter_bad
           [JObj [ (u "id", JInt 9) ]] (JObj [ (u "id", JInt 9) ]) H1).
  - apply List.Forall_cons; [eexists; reflexivity | apply List.Forall_nil].
  - reflexivity.
  - reflexivity.
  - left. reflexivity.
  - intros s [i [n [_ [Hn _]]]]. vm_compute in Hn. discriminate.
Defined.

Lemma one_bad_leaf_aborts_witness :
  1 <= 24 /\
  In sample_leaf_bad [sample_leaf; sample_leaf_bad] /\
  fetch_subjects_for_leaf sample_repr sample_int sample_loads sample_ctx
    sample_leaf_bad = Raise (Exc KeyError (quoted (u "searchQuery"))) /\
  exists e',
    gather_leaves sample_repr sample_int sample_loads sample_ctx 24
      (fun _ => 0%nat) [sample_leaf; sample_leaf_bad] = Crashed e'.
Proof.
  assert (H1 : 1 <= 24) by lia.
  assert (H2 : In sample_leaf_bad [sample_leaf; sample_leaf_bad])
    by (right; left; reflexivity).
  assert (H3 : fetch_subjects_for_leaf sample_repr sample_int sample_loads
                 sample_ctx sample_leaf_bad
               = Raise (Exc KeyError (quoted (u "searchQuery"))))
    by (vm_compute; reflexivity).
  split; [exact H1|]. split; [exact H2|]. split; [exact H3|].
  exact (proj1 (one_bad_leaf_aborts sample_repr sample_int sample_loads
                  sample_ctx 24 (fun _ => 0%nat) _ _ _ H1 H2 H3)).
Defined.

Lemma build_paths_by_root_shape_witness :
  build_paths_by_root sample_repr sample_int sample_menu
    = Some (Ok sample_paths) /\
  paths_dict_ok sample_paths.
Proof.
  assert (H : build_paths_by_root sample_repr sample_int sample_menu
              = Some (Ok sample_paths)) by (vm_compute; reflexivity).
  split; [exact H|].
  exact (proj1 (build_paths_by_root_shape sample_repr sample_int _ _ H)).
Defined.

Lemma paths_end_at_leaves_witness :
  build_paths_by_root sample_repr sample_int sample_menu
    = Some (Ok sample_paths) /\
  exists leaves ps,
    iter_leaves sample_menu = Ok leaves /\
    Forall2 (ends_at sample_repr sample_int) ps (rev leaves) /\
    Permutation (all_paths sample_paths) ps /\
    (forall root, sample_menu = [root] -> exists key, sample_paths = [(key, ps)]).
Proof.
  assert (H : build_paths_by_root sample_repr sample_int sample_menu
              = Some (Ok sample_paths)) by (vm_compute; reflexivity).
  split; [exact H|].
  exact (paths_end_at_leaves sample_repr sample_int _ _ H).
Defined.

Lemma rows_of_a_root_path_witness :
  root_path (1, u "A") sample_path /\
  build_rows sample_repr sample_int [sample_path] ∅ = Ok [(2, u "L", 1)].
Proof.
  assert (H : root_path (1, u "A") sample_path).
  { split; [exists [(2, u "L", 1)]; reflexivity | reflexivity]. }
  split; [exact H|].
  destruct (rows_of_a_root_path sample_repr sample_int _ _ ∅ H)
    as [pre [id [name [level [E [_ Hnone]]]]]].
  apply (app_inj_tail [(1, u "A", 0)] pre (2, u "L", 1) (id, name, level)) in E
    as [_ E].
  injection E as <- _ _. exact (Hnone eq_refl).
Defined.


(** Two workbooks the sample writer refuses or cannot tell apart: an empty
    menu opens the writer and leaves it without a sheet, and leaving
    raises; two roots whose names agree on their first 19 characters are
    written under one and the same sheet name. *)
Example workbook_without_sheets_and_with_twins :
  make_excel sample_repr sample_int sample_writer [] []
  = Some ([OpenWriter; ExitWriter None],
          Raise (Exc IndexError (u "At least one sheet must be visible"))) /\
  (exists calls,
     make_excel sample_repr sample_int sample_writer
       [ JObj [ (u "id", JInt 1); (u "name", JStr (u "abcdefghijklmnopqrsX"));
                (u "childs", JList [sample_leaf]) ];
         JObj [ (u "id", JInt 3); (u "name", JStr (u "abcdefghijklmnopqrsY"));
                (u "childs", JList [sample_leaf2]) ] ] []
     = Some (calls, Ok tt) /\
     List.filter (fun c => match c with SheetOf _ => true | _ => false end)
       calls
     = [ SheetOf (safe_sheet_name (u "abcdefghijklmnopqrs"));
         SheetOf (safe_sheet_name (u "abcdefghijklmnopqrs")) ]).
Proof.
  split; [vm_compute; reflexivity|].
  eexists. split; vm_compute; reflexivity.
Qed.


Lemma record_meets_its_path_witness :
  build_paths_by_root sample_repr sample_int sample_menu
    = Some (Ok sample_paths) /\
  select_leaves sample_repr sample_menu = Ok [sample_leaf] /\
  In sample_leaf [sample_leaf] /\
  fetch_subjects_for_leaf sample_repr sample_int sample_loads sample_ctx_down
    sample_leaf
  = Ok {| leaf_id := 2; leaf_name := u "L";
          leaf_full_url := u "https://www.wildberries.ru/catalog/x";
          subjects := []; error := Some (u "Timeout 8000ms exceeded.") |} /\
  exists p pre name level,
    In p (all_paths sample_paths) /\
    p = pre ++ [(2, name, level)] /\
    u "L" = strip name.
Proof.
  assert (H1 : build_paths_by_root sample_repr sample_int sample_menu
               = Some (Ok sample_paths)) by (vm_compute; reflexivity).
  assert (H2 : select_leaves sample_repr sample_menu = Ok [sample_leaf])
    by (vm_compute; reflexivity).
  assert (H3 : In sample_leaf [sample_leaf]) by (left; reflexivity).
  assert (H4 : fetch_subjects_for_leaf sample_repr sample_int sample_loads
                 sample_ctx_down sample_leaf
               = Ok {| leaf_id := 2; leaf_name := u "L";
                       leaf_full_url := u "https://www.wildberries.ru/catalog/x";
                       subjects := [];
                       error := Some (u "Timeout 8000ms exceeded.") |})
    by (vm_compute; reflexivity).
  split; [exact H1|]. split; [exact H2|]. split; [exact H3|].
  split; [exact H4|].
  exact (record_meets_its_path sample_repr sample_int sample_loads
           _ _ _ _ _ _ H1 H2 H3 H4).
Defined.
